(** * observe-path: property observers, links and paths

    A shallow embedding of [lib/observer.js], [lib/path.js] and
    [lib/link.js].  The three classes mutate shared JavaScript objects
    (property descriptors, the module-level [observers] registry, [Observer],
    [Link] and [Path] instances), so the embedding is a state-and-exception
    monad over an explicit store:

    - the JavaScript heap maps object identities to their own properties,
      each a data or an accessor property with its attribute flags;
    - [Observer], [Link] and [Path] instances live in append-only stores and
      are referred to by their index, which plays the role of the object
      identity;
    - calls into user code (change callbacks, pre-existing setters) are
      recorded, in order, in a trace.

    Scope of the model.  Property keys are strings and there are no symbols;
    numbers are integers (no NaN, no fractions); the objects of the heap are
    plain, extensible objects given by their own properties, and what they
    inherit from [Object.prototype] is not in the heap, so that the theorems
    about reading, assigning or observing a property of any name take the
    name not to be the name of a member of [Object.prototype]
    ([inherited]); a user accessor pair is backed by one closure cell, which
    the getter returns and the setter overwrites; user callbacks do not call
    back into the library.  The source files are ES modules, so property
    writes follow strict-mode rules.  The registry [observers] of
    [observer.js] is a plain object of the library's own, and what it
    inherits from [Object.prototype] is part of the model.

    Recursion that follows the [next] pointers of links, or re-enters the
    library through a bound setter, is bounded by a fuel argument; a run that
    exhausts it ends in [OutOfFuel], which is neither a result nor an
    exception. *)

From Stdlib Require Import ZArith String Ascii List Bool Lia.
From stdpp Require Import base option list gmap strings fin_maps.

Open Scope Z_scope.
Open Scope string_scope.
Open Scope list_scope.

(** ** Values *)

Inductive value : Type :=
| VUndef
| VNull
| VBool (b : bool)
| VNum (n : Z)
| VStr (s : string)
| VObj (l : nat)
| VFun (l : nat).

#[global] Instance value_eq_dec : EqDecision value.
Proof. solve_decision. Defined.

(** [a === b] *)
Definition strict_eq (a b : value) : bool := bool_decide (a = b).

(** ToBoolean *)
Definition truthy (v : value) : bool :=
  match v with
  | VUndef | VNull => false
  | VBool b => b
  | VNum n => negb (n =? 0)%Z
  | VStr s => negb (String.eqb s EmptyString)
  | VObj _ | VFun _ => true
  end.

Inductive jstype : Type :=
| TUndefined | TObject | TBoolean | TNumber | TString | TFunction.

#[global] Instance jstype_eq_dec : EqDecision jstype.
Proof. solve_decision. Defined.

Definition typeof (v : value) : jstype :=
  match v with
  | VUndef => TUndefined
  | VNull => TObject
  | VBool _ => TBoolean
  | VNum _ => TNumber
  | VStr _ => TString
  | VObj _ => TObject
  | VFun _ => TFunction
  end.

(** The heap address of an object or function value; primitives have none. *)
Definition ref_of (v : value) : option nat :=
  match v with
  | VObj l | VFun l => Some l
  | _ => None
  end.

(** ** Functions that can sit in a descriptor or in a callback list *)

(** A getter is either [Observer.prototype.get] bound to the observer with the
    given identity, or a user getter reading its closure cell. *)
Inductive getter : Type :=
| GetBound (o : nat)
| GetUser (c : nat).

Inductive setter : Type :=
| SetBound (o : nat)
| SetUser (c : nat).

(** A property-level change callback is either [Link.prototype.change] bound
    to a link instance, or a user function. *)
Inductive callback : Type :=
| CbLink (k : nat)
| CbUser (f : nat).

#[global] Instance getter_eq_dec : EqDecision getter.
Proof. solve_decision. Defined.
#[global] Instance setter_eq_dec : EqDecision setter.
Proof. solve_decision. Defined.
#[global] Instance callback_eq_dec : EqDecision callback.
Proof. solve_decision. Defined.

(** ** Properties and property descriptors *)

Inductive property : Type :=
| DataProperty (v : value) (writable enumerable configurable : bool)
| AccessorProperty (g : option getter) (s : option setter)
    (enumerable configurable : bool).

#[global] Instance property_eq_dec : EqDecision property.
Proof. solve_decision. Defined.

(** A descriptor object: every field may be absent.  [d_get = Some None] is a
    present [get] field holding [undefined]. *)
Record descriptor : Type := Descriptor {
  d_get : option (option getter);
  d_set : option (option setter);
  d_value : option value;
  d_writable : option bool;
  d_enumerable : option bool;
  d_configurable : option bool
}.

#[global] Instance descriptor_eq_dec : EqDecision descriptor.
Proof. solve_decision. Defined.

Definition prop_enumerable (p : property) : bool :=
  match p with
  | DataProperty _ _ e _ => e
  | AccessorProperty _ _ e _ => e
  end.

Definition prop_configurable (p : property) : bool :=
  match p with
  | DataProperty _ _ _ c => c
  | AccessorProperty _ _ _ c => c
  end.

(** FromPropertyDescriptor, as returned by [Object.getOwnPropertyDescriptor]. *)
Definition from_property (p : property) : descriptor :=
  match p with
  | DataProperty v w e c =>
      Descriptor None None (Some v) (Some w) (Some e) (Some c)
  | AccessorProperty g s e c =>
      Descriptor (Some g) (Some s) None None (Some e) (Some c)
  end.

Definition is_accessor_desc (d : descriptor) : bool :=
  bool_decide (is_Some (d_get d)) || bool_decide (is_Some (d_set d)).

Definition is_data_desc (d : descriptor) : bool :=
  bool_decide (is_Some (d_value d)) || bool_decide (is_Some (d_writable d)).

(** A present field that differs from the current attribute. *)
Definition differs {A} `{EqDecision A} (field : option A) (current : A) : bool :=
  match field with
  | Some x => negb (bool_decide (x = current))
  | None => false
  end.

(** ValidateAndApplyPropertyDescriptor on an extensible object: the property
    after the definition, or [None] when the definition is rejected. *)
Definition validate_and_apply (current : option property) (d : descriptor)
  : option property :=
  match current with
  | None =>
      Some (if is_accessor_desc d
            then AccessorProperty (default None (d_get d)) (default None (d_set d))
                   (default false (d_enumerable d)) (default false (d_configurable d))
            else DataProperty (default VUndef (d_value d)) (default false (d_writable d))
                   (default false (d_enumerable d)) (default false (d_configurable d)))
  | Some cur =>
      if negb (prop_configurable cur)
         && (bool_decide (d_configurable d = Some true)
             || differs (d_enumerable d) (prop_enumerable cur))
      then None
      else
        match cur with
        | DataProperty v w e c =>
            if is_accessor_desc d then
              if c then
                Some (AccessorProperty (default None (d_get d)) (default None (d_set d))
                        (default e (d_enumerable d)) (default c (d_configurable d)))
              else None
            else if negb c && negb w
                    && (bool_decide (d_writable d = Some true) || differs (d_value d) v)
            then None
            else Some (DataProperty (default v (d_value d)) (default w (d_writable d))
                         (default e (d_enumerable d)) (default c (d_configurable d)))
        | AccessorProperty g s e c =>
            if is_data_desc d then
              if c then
                Some (DataProperty (default VUndef (d_value d)) (default false (d_writable d))
                        (default e (d_enumerable d)) (default c (d_configurable d)))
              else None
            else if negb c && (differs (d_get d) g || differs (d_set d) s)
            then None
            else Some (AccessorProperty (default g (d_get d)) (default s (d_set d))
                         (default e (d_enumerable d)) (default c (d_configurable d)))
        end
  end.

(** ** Own properties of string primitives

    [Object.getOwnPropertyDescriptor] applies ToObject to its argument; only
    a String wrapper has own properties: [length] and the indices. *)

Definition digit_of (a : ascii) : option nat :=
  let n := nat_of_ascii a in
  if (48 <=? n)%nat && (n <=? 57)%nat then Some (n - 48)%nat else None.

Fixpoint digits_value (acc : nat) (s : string) : option nat :=
  match s with
  | EmptyString => Some acc
  | String a rest =>
      match digit_of a with
      | Some d => digits_value (10 * acc + d)%nat rest
      | None => None
      end
  end.

(** A canonical array index: decimal digits without a leading zero. *)
Definition index_of_key (k : string) : option nat :=
  match k with
  | EmptyString => None
  | String a rest =>
      if Ascii.eqb a "0"%char && negb (String.eqb rest EmptyString) then None
      else digits_value 0 k
  end.

Definition string_own_property (s k : string) : option property :=
  if String.eqb k "length"
  then Some (DataProperty (VNum (Z.of_nat (String.length s))) false false false)
  else
    match index_of_key k with
    | Some i =>
        match String.get i s with
        | Some a => Some (DataProperty (VStr (String a EmptyString)) false true false)
        | None => None
        end
    | None => None
    end.

(** ** The store *)

(** An [Observer] instance.  [ob_target], [ob_property] and [ob_definition]
    stay unset when the constructor takes its read-only short circuit. *)
Record observer : Type := Observer {
  ob_callbacks : list callback;
  ob_value : value;
  ob_target : option value;
  ob_property : option string;
  ob_definition : option descriptor
}.

(** A [Link] instance.  [lk_path], [lk_part] and the class of the next link
    come from the prototype built by [Link.define]; [lk_callbacks] and
    [lk_value] are the fields that [Path.observe] puts on the first link of a
    chain. *)
Record link : Type := Link {
  lk_path : nat;
  lk_part : string;
  lk_next : option nat;
  lk_root : value;
  lk_observer : option nat;
  lk_last : option nat;
  lk_callbacks : list nat;
  lk_value : value
}.

(** A [Path] instance: its segments (from which the chain of link classes,
    [FirstLink], is derived) and the [observed] WeakMap from roots to the first
    link of their chain. *)
Record path : Type := Path {
  p_path : list string;
  p_observed : gmap nat nat
}.

(** Calls into user code, in the order they happen. *)
Inductive event : Type :=
| EvObserverCallback (f : nat) (object newValue : value)
| EvPathCallback (f : nat) (first second : value)
| EvSetter (c : nat) (this newValue : value).

#[global] Instance event_eq_dec : EqDecision event.
Proof. solve_decision. Defined.

Record state : Type := State {
  heap : gmap nat (gmap string property);
  cells : gmap nat value;
  observers : gmap string (gmap nat nat);
  observer_store : list observer;
  link_store : list link;
  path_store : list path;
  trace : list event
}.

Definition with_heap (h : gmap nat (gmap string property)) (s : state) : state :=
  State h (cells s) (observers s) (observer_store s) (link_store s) (path_store s) (trace s).
Definition with_cells (c : gmap nat value) (s : state) : state :=
  State (heap s) c (observers s) (observer_store s) (link_store s) (path_store s) (trace s).
Definition with_observers (r : gmap string (gmap nat nat)) (s : state) : state :=
  State (heap s) (cells s) r (observer_store s) (link_store s) (path_store s) (trace s).
Definition with_observer_store (o : list observer) (s : state) : state :=
  State (heap s) (cells s) (observers s) o (link_store s) (path_store s) (trace s).
Definition with_link_store (l : list link) (s : state) : state :=
  State (heap s) (cells s) (observers s) (observer_store s) l (path_store s) (trace s).
Definition with_path_store (p : list path) (s : state) : state :=
  State (heap s) (cells s) (observers s) (observer_store s) (link_store s) p (trace s).
Definition with_trace (t : list event) (s : state) : state :=
  State (heap s) (cells s) (observers s) (observer_store s) (link_store s) (path_store s) t.

(** ** The monad: state, exceptions and fuel *)

Inductive exn : Type :=
| TypeError
| Error (msg : string).

Inductive outcome (A : Type) : Type :=
| Ok (a : A) (s : state)
| Throw (e : exn) (s : state)
| OutOfFuel.
Arguments Ok {A} a s.
Arguments Throw {A} e s.
Arguments OutOfFuel {A}.

Definition M (A : Type) : Type := state -> outcome A.

#[global] Instance M_ret : MRet M := fun A a s => Ok a s.
#[global] Instance M_bind : MBind M := fun A B f m s =>
  match m s with
  | Ok a s' => f a s'
  | Throw e s' => Throw e s'
  | OutOfFuel => OutOfFuel
  end.

Definition throw {A} (e : exn) : M A := fun s => Throw e s.
Definition out_of_fuel {A} : M A := fun _ => OutOfFuel.
Definition gets {A} (f : state -> A) : M A := fun s => Ok (f s) s.
Definition modify (f : state -> state) : M unit := fun s => Ok tt (f s).
Definition emit (e : event) : M unit := modify (fun s => with_trace (trace s ++ [e]) s).

(** Reading a field of an instance that is not in the store is reading a
    property of [undefined]. *)
Definition the_observer (o : nat) : M observer := fun s =>
  match observer_store s !! o with
  | Some ob => Ok ob s
  | None => Throw TypeError s
  end.
Definition the_link (k : nat) : M link := fun s =>
  match link_store s !! k with
  | Some lk => Ok lk s
  | None => Throw TypeError s
  end.
Definition the_path (p : nat) : M path := fun s =>
  match path_store s !! p with
  | Some pa => Ok pa s
  | None => Throw TypeError s
  end.

Definition update_observer (o : nat) (f : observer -> observer) : M unit :=
  modify (fun s => with_observer_store (alter f o (observer_store s)) s).
Definition update_link (k : nat) (f : link -> link) : M unit :=
  modify (fun s => with_link_store (alter f k (link_store s)) s).
Definition update_path (p : nat) (f : path -> path) : M unit :=
  modify (fun s => with_path_store (alter f p (path_store s)) s).

(** ** The JavaScript operations the library uses *)

(** The names of the members of [Object.prototype], which a plain object
    inherits: [obj[k]] is one of these members when [k] is one of these
    names and [obj] has no own property [k]. *)
Definition Object_prototype_names : list string :=
  ["constructor"; "__defineGetter__"; "__defineSetter__"; "hasOwnProperty";
   "__lookupGetter__"; "__lookupSetter__"; "isPrototypeOf";
   "propertyIsEnumerable"; "toString"; "valueOf"; "__proto__";
   "toLocaleString"].

Definition inherited (k : string) : bool :=
  existsb (String.eqb k) Object_prototype_names.
Arguments inherited : simpl never.

(** The own property [k] of the object that ToObject gives for [v].  The
    objects of the heap inherit nothing, so that reading and assigning below
    are those of JavaScript for the names that are not [inherited]. *)
Definition own_property (s : state) (v : value) (k : string) : option property :=
  match v with
  | VObj l | VFun l => heap s !! l ≫= fun o => o !! k
  | VStr str => string_own_property str k
  | _ => None
  end.

(** [Object.getOwnPropertyDescriptor(v, k)] *)
Definition Object_getOwnPropertyDescriptor (v : value) (k : string)
  : M (option descriptor) := fun s =>
  match v with
  | VUndef | VNull => Throw TypeError s
  | _ => Ok (from_property <$> own_property s v k) s
  end.

(** [Object.defineProperty(v, k, d)] *)
Definition Object_defineProperty (v : value) (k : string) (d : descriptor) : M unit :=
  fun s =>
  match ref_of v with
  | None => Throw TypeError s
  | Some l =>
      if is_accessor_desc d && is_data_desc d then Throw TypeError s
      else
        let o := default ∅ (heap s !! l) in
        match validate_and_apply (o !! k) d with
        | None => Throw TypeError s
        | Some p => Ok tt (with_heap (<[l := <[k := p]> o]> (heap s)) s)
        end
  end.

(** [map.get(v)] on a WeakMap: a key that is not an object is never found. *)
Definition WeakMap_get {A} (m : gmap nat A) (v : value) : option A :=
  ref_of v ≫= fun l => m !! l.

(** ** class Observer *)

(** What [observers[property]] holds.  The registry [var observers = {}]
    is a plain object: without an own entry for the property, a WeakMap
    that [getMap] created, it holds the member of [Object.prototype] of
    that name, if there is one (a function, or the prototype itself for
    [__proto__]), which is truthy and has no method [get]. *)
Inductive registry_entry : Type :=
| AWeakMap (m : gmap nat nat)
| Inherited.

(** [Observer.getMap(property, create)]: [observers[property]], with a
    WeakMap created on demand when that is [undefined]. *)
Definition Observer_getMap (property : string) (create : bool)
  : M (option registry_entry) := fun s =>
  match observers s !! property with
  | Some m => Ok (Some (AWeakMap m)) s
  | None =>
      if inherited property then Ok (Some Inherited) s
      else if create
      then Ok (Some (AWeakMap ∅)) (with_observers (<[property := ∅]> (observers s)) s)
      else Ok None s
  end.

(** [map.get(object)] on what [getMap] returned: calling the missing method
    of an inherited member, or a method of [undefined], is a TypeError. *)
Definition map_get (map : option registry_entry) (object : value) : M (option nat) :=
  match map with
  | Some (AWeakMap m) => mret (WeakMap_get m object)
  | Some Inherited | None => throw TypeError
  end.

(** [observers[property].set(target, o)]: a WeakMap key must be an object. *)
Definition registry_set (property : string) (target : value) (o : nat) : M unit :=
  fun s =>
  match ref_of target with
  | None => Throw TypeError s
  | Some l =>
      Ok tt (with_observers
               (<[property := <[l := o]> (default ∅ (observers s !! property))]>
                  (observers s)) s)
  end.

(** [observers[property].delete(target)]: without an own entry for the
    property this calls a method that [undefined], or the inherited member,
    does not have. *)
Definition registry_delete (property : string) (target : value) : M unit :=
  fun s =>
  match observers s !! property with
  | None => Throw TypeError s
  | Some m =>
      match ref_of target with
      | None => Ok tt s
      | Some l => Ok tt (with_observers (<[property := delete l m]> (observers s)) s)
      end
  end.

(** The descriptor used when the property does not exist:
    [{ enumerable: true, writable: true, value: undefined }]. *)
Definition default_definition : descriptor :=
  Descriptor None None (Some VUndef) (Some true) (Some true) None.

(** Field updates on an [Observer] instance. *)
Definition add_callback (cb : callback) (ob : observer) : observer :=
  Observer (ob_callbacks ob ++ [cb]) (ob_value ob)
    (ob_target ob) (ob_property ob) (ob_definition ob).
Definition set_callbacks (cbs : list callback) (ob : observer) : observer :=
  Observer cbs (ob_value ob) (ob_target ob) (ob_property ob) (ob_definition ob).
Definition set_value (v : value) (ob : observer) : observer :=
  Observer (ob_callbacks ob) v (ob_target ob) (ob_property ob) (ob_definition ob).
Definition set_instrumented (target : value) (property : string) (d : descriptor)
    (ob : observer) : observer :=
  Observer (ob_callbacks ob) (ob_value ob) (Some target) (Some property) (Some d).
Definition set_definition (d : descriptor) (ob : observer) : observer :=
  Observer (ob_callbacks ob) (ob_value ob) (ob_target ob) (ob_property ob) (Some d).

(** [new Observer(target, property)] *)
Definition Observer_new (target : value) (property : string) : M nat :=
  this ← gets (fun s => length (observer_store s));
  modify (fun s => with_observer_store
            (observer_store s ++ [Observer [] VUndef None None None]) s) ;;
  found ← Object_getOwnPropertyDescriptor target property;
  let definition := default default_definition found in
  let get := default None (d_get definition) in
  let set := default None (d_set definition) in
  let value := default VUndef (d_value definition) in
  let writable := default false (d_writable definition) in
  let enumerable := default false (d_enumerable definition) in
  update_observer this (fun ob => set_value value (set_callbacks [] ob)) ;;
  if negb writable || (bool_decide (is_Some get) && negb (bool_decide (is_Some set)))
  then mret this
  else
    update_observer this (set_instrumented target property definition) ;;
    Object_defineProperty target property
      (Descriptor (Some (Some (default (GetBound this) get)))
                  (Some (Some (SetBound this)))
                  None None (Some enumerable) (Some true)) ;;
    mret this.

(** [observer.add(callback)] *)
Definition Observer_add (this : nat) (cb : callback) : M nat :=
  update_observer this (add_callback cb) ;;
  mret this.

(** [observer.get()] *)
Definition Observer_get (this : nat) : M value :=
  ob ← the_observer this; mret (ob_value ob).

(** [Observer.observe(object, property, callback)] *)
Definition Observer_observe (object : value) (property : string) (cb : callback)
  : M nat :=
  map ← Observer_getMap property true;
  observer ← map_get map object;
  match observer with
  | Some o => Observer_add o cb
  | None =>
      o ← Observer_new object property;
      registry_set property object o ;;
      Observer_add o cb
  end.

(** [observer.dispose()] *)
Definition Observer_dispose (this : nat) : M unit :=
  ob ← the_observer this;
  match ob_definition ob with
  | None => mret tt
  | Some definition =>
      let definition' :=
        if bool_decide (is_Some (d_value definition))
        then Descriptor (d_get definition) (d_set definition) (Some (ob_value ob))
               (d_writable definition) (d_enumerable definition)
               (d_configurable definition)
        else definition in
      update_observer this (set_definition definition') ;;
      Object_defineProperty (default VUndef (ob_target ob))
        (default "undefined" (ob_property ob)) definition'
  end.

(** [callbacks.indexOf(cb)] *)
Fixpoint index_of {A} `{EqDecision A} (x : A) (l : list A) : option nat :=
  match l with
  | [] => None
  | y :: l' => if decide (y = x) then Some 0%nat else S <$> index_of x l'
  end.

(** [observer.remove(callback)] *)
Definition Observer_remove (this : nat) (cb : callback) : M bool :=
  ob ← the_observer this;
  match index_of cb (ob_callbacks ob) with
  | None => mret false
  | Some index =>
      let callbacks := delete index (ob_callbacks ob) in
      update_observer this (set_callbacks callbacks) ;;
      (if bool_decide (callbacks = [])
       then
         Observer_dispose this ;;
         match ob_definition ob with
         | Some _ =>
             registry_delete (default "undefined" (ob_property ob))
               (default VUndef (ob_target ob))
         | None => mret tt
         end
       else mret tt) ;;
      mret true
  end.

(** [Observer.unobserve(object, property, callback)] *)
Definition Observer_unobserve (object : value) (property : string) (cb : callback)
  : M unit :=
  map ← Observer_getMap property false;
  observer ← match map with
             | Some _ => map_get map object
             | None => mret None
             end;
  match observer with
  | None => mret tt
  | Some o => Observer_remove o cb ;; mret tt
  end.

(** Field updates on a [Link] instance. *)
Definition set_lk_next (n : option nat) (lk : link) : link :=
  Link (lk_path lk) (lk_part lk) n (lk_root lk)
    (lk_observer lk) (lk_last lk) (lk_callbacks lk) (lk_value lk).
Definition set_lk_root (r : value) (lk : link) : link :=
  Link (lk_path lk) (lk_part lk) (lk_next lk) r
    (lk_observer lk) (lk_last lk) (lk_callbacks lk) (lk_value lk).
Definition set_lk_observer (o : option nat) (lk : link) : link :=
  Link (lk_path lk) (lk_part lk) (lk_next lk) (lk_root lk)
    o (lk_last lk) (lk_callbacks lk) (lk_value lk).
Definition set_lk_last (l : option nat) (lk : link) : link :=
  Link (lk_path lk) (lk_part lk) (lk_next lk) (lk_root lk)
    (lk_observer lk) l (lk_callbacks lk) (lk_value lk).
Definition set_lk_callbacks (c : list nat) (lk : link) : link :=
  Link (lk_path lk) (lk_part lk) (lk_next lk) (lk_root lk)
    (lk_observer lk) (lk_last lk) c (lk_value lk).
Definition set_lk_value (v : value) (lk : link) : link :=
  Link (lk_path lk) (lk_part lk) (lk_next lk) (lk_root lk)
    (lk_observer lk) (lk_last lk) (lk_callbacks lk) v.

(** ** class Path, first part: [change] *)

(** [for (let callback of link.callbacks) callback(value, old)]: the callbacks of
    a path are user functions, which leave the array alone. *)
Fixpoint call_path_callbacks (callbacks : list nat) (first second : value) : M unit :=
  match callbacks with
  | [] => mret tt
  | f :: rest =>
      emit (EvPathCallback f first second) ;;
      call_path_callbacks rest first second
  end.

(** [path.change(root, value)]: [link.value] is read first, then [link] is
    tested. *)
Definition Path_change (this : nat) (root value : value) : M unit :=
  pa ← the_path this;
  let link := WeakMap_get (p_observed pa) root in
  old ← match link with
        | Some k => lk ← the_link k; mret (lk_value lk)
        | None => throw TypeError
        end;
  match link with
  | None => throw (Error "Event fired on unbound path")
  | Some k =>
      if negb (strict_eq old value)
      then
        lk ← the_link k;
        call_path_callbacks (lk_callbacks lk) value old ;;
        update_link k (set_lk_value value)
      else mret tt
  end.

(** ** class Link *)

(** [link.setLast()] *)
Fixpoint Link_setLast (fuel : nat) (this : nat) : M nat :=
  match fuel with
  | O => out_of_fuel
  | S fuel' =>
      lk ← the_link this;
      last ← match lk_next lk with
             | Some n => Link_setLast fuel' n
             | None => mret this
             end;
      update_link this (set_lk_last (Some last)) ;;
      mret last
  end.

(** [new PathLink(root, chained)], where [PathLink] is the class that
    [Link.define(path, part, NextLink)] returned and [rest] lists the parts of
    [NextLink] and of the classes after it. *)
Fixpoint Link_new (fuel : nat) (path : nat) (part : string) (rest : list string)
    (root : value) (chained : bool) : M nat :=
  this ← gets (fun s => length (link_store s));
  modify (fun s => with_link_store
            (link_store s ++ [Link path part None VUndef None None [] VUndef]) s) ;;
  match rest with
  | [] => mret tt
  | part' :: rest' =>
      next ← Link_new fuel path part' rest' root true;
      update_link this (set_lk_next (Some next))
  end ;;
  update_link this (set_lk_root root) ;;
  (if chained then mret tt else Link_setLast fuel this ;; mret tt) ;;
  mret this.

(** [link.detach()] *)
Fixpoint Link_detach (fuel : nat) (this : nat) : M unit :=
  match fuel with
  | O => out_of_fuel
  | S fuel' =>
      lk ← the_link this;
      match lk_observer lk with
      | None => mret tt
      | Some o =>
          Observer_remove o (CbLink this) ;;
          match lk_next lk with
          | Some n => Link_detach fuel' n
          | None => mret tt
          end
      end
  end.

(** [link.attach(target)] *)
Fixpoint Link_attach (fuel : nat) (this : nat) (target : value) : M value :=
  match fuel with
  | O => out_of_fuel
  | S fuel' =>
      lk ← the_link this;
      match lk_observer lk with
      | Some _ => Link_detach fuel this
      | None => mret tt
      end ;;
      observer ← Observer_observe target (lk_part lk) (CbLink this);
      value ← Observer_get observer;
      update_link this (set_lk_observer (Some observer)) ;;
      match lk_next lk with
      | Some n =>
          if truthy value then Link_attach fuel' n value
          else mret VUndef
      | None => mret value
      end
  end.

(** [link.change(target, value)] *)
Definition Link_change (fuel : nat) (this : nat) (target value : value) : M unit :=
  lk ← the_link this;
  existing ← match lk_observer lk with
             | Some o => Observer_get o
             | None => throw TypeError
             end;
  if strict_eq existing value then mret tt
  else
    result ← match lk_next lk with
             | Some n =>
                 if truthy value then
                   if bool_decide (typeof value = TObject)
                      || bool_decide (typeof value = TFunction)
                   then Link_attach fuel n value
                   else mret VUndef
                 else mret value
             | None => mret value
             end;
    Path_change (lk_path lk) (lk_root lk) result.

(** ** [Observer.prototype.set] and property assignment *)

(** Calling one entry of an observer's callback list with [(target, value)]. *)
Definition call_callback (fuel : nat) (cb : callback) (target value : value) : M unit :=
  match cb with
  | CbLink k => Link_change fuel k target value
  | CbUser f => emit (EvObserverCallback f target value)
  end.

(** [for (let callback of this.callbacks) callback(target, value)]: the array
    iterator reads the live array at each step, so callbacks pushed or spliced
    by a callback that runs are seen. *)
Fixpoint for_of_callbacks (fuel : nat) (this : nat) (index : nat)
    (target value : value) : M unit :=
  match fuel with
  | O => out_of_fuel
  | S fuel' =>
      ob ← the_observer this;
      match ob_callbacks ob !! index with
      | None => mret tt
      | Some cb =>
          call_callback fuel' cb target value ;;
          for_of_callbacks fuel' this (S index) target value
      end
  end.

(** [observer.set(value, silent)] *)
Fixpoint Observer_set (fuel : nat) (this : nat) (value : value) (silent : bool)
  : M unit :=
  match fuel with
  | O => out_of_fuel
  | S fuel' =>
      ob ← the_observer this;
      let target := default VUndef (ob_target ob) in
      match ob_definition ob with
      | None => throw TypeError
      | Some definition =>
          let set := default None (d_set definition) in
          if strict_eq (ob_value ob) value then mret tt
          else
            (if silent then mret tt
             else for_of_callbacks fuel' this 0%nat target value) ;;
            update_observer this (set_value value) ;;
            match set with
            | None => mret tt
            | Some (SetUser c) =>
                emit (EvSetter c target value) ;;
                modify (fun s => with_cells (<[c := value]> (cells s)) s)
            | Some (SetBound o) => Observer_set fuel' o value false
            end
      end
  end.

(** Calling a getter found in a descriptor. *)
Definition call_getter (g : getter) : M value :=
  match g with
  | GetBound o => Observer_get o
  | GetUser c => gets (fun s => default VUndef (cells s !! c))
  end.

(** Calling a setter found in a descriptor, with the receiver as [this]. *)
Definition call_setter (fuel : nat) (st : setter) (this v : value) : M unit :=
  match st with
  | SetBound o => Observer_set fuel o v false
  | SetUser c =>
      emit (EvSetter c this v) ;;
      modify (fun s => with_cells (<[c := v]> (cells s)) s)
  end.

(** [object[k]] *)
Definition Js_get (object : value) (k : string) : M value :=
  match object with
  | VUndef | VNull => throw TypeError
  | _ =>
      p ← gets (fun s => own_property s object k);
      match p with
      | None => mret VUndef
      | Some (DataProperty v _ _ _) => mret v
      | Some (AccessorProperty (Some g) _ _ _) => call_getter g
      | Some (AccessorProperty None _ _ _) => mret VUndef
      end
  end.

(** [object[k] = v] in strict mode *)
Definition Js_set (fuel : nat) (object : value) (k : string) (v : value) : M unit :=
  match ref_of object with
  | None => throw TypeError
  | Some l =>
      p ← gets (fun s => own_property s object k);
      match p with
      | None =>
          modify (fun s => with_heap
            (<[l := <[k := DataProperty v true true true]> (default ∅ (heap s !! l))]>
               (heap s)) s)
      | Some (DataProperty _ true e c) =>
          modify (fun s => with_heap
            (<[l := <[k := DataProperty v true e c]> (default ∅ (heap s !! l))]>
               (heap s)) s)
      | Some (DataProperty _ false _ _) => throw TypeError
      | Some (AccessorProperty _ (Some st) _ _) => call_setter fuel st object v
      | Some (AccessorProperty _ None _ _) => throw TypeError
      end
  end.

(** [link.set(value, silent)] *)
Definition Link_set (fuel : nat) (this : nat) (value : value) (silent : bool) : M bool :=
  lk ← the_link this;
  match lk_observer lk with
  | None => mret false
  | Some o => Observer_set fuel o value silent ;; mret true
  end.

(** ** class Path, second part *)

(** [new Path(...path)] *)
Definition Path_new (segments : list string) : M nat :=
  this ← gets (fun s => length (path_store s));
  modify (fun s => with_path_store (path_store s ++ [Path segments ∅]) s) ;;
  mret this.

(** [this.observed.set(root, link)] *)
Definition observed_set (this : nat) (root : value) (k : nat) : M unit :=
  match ref_of root with
  | None => throw TypeError
  | Some l => update_path this (fun pa => Path (p_path pa) (<[l := k]> (p_observed pa)))
  end.

(** [this.observed.delete(root)] *)
Definition observed_delete (this : nat) (root : value) : M unit :=
  match ref_of root with
  | None => mret tt
  | Some l => update_path this (fun pa => Path (p_path pa) (delete l (p_observed pa)))
  end.

(** [path.observe(root, callback)] *)
Definition Path_observe (fuel : nat) (this : nat) (root : value) (cb : nat) : M unit :=
  if negb (truthy root) then throw (Error "Cannot bind to undefined value")
  else
    pa ← the_path this;
    match WeakMap_get (p_observed pa) root with
    | None =>
        match p_path pa with
        | [] => throw TypeError
        | part :: rest =>
            k ← Link_new fuel this part rest root false;
            observed_set this root k ;;
            update_link k (set_lk_callbacks [cb]) ;;
            v ← Link_attach fuel k root;
            update_link k (set_lk_value v)
        end
    | Some k =>
        update_link k (fun lk => set_lk_callbacks (lk_callbacks lk ++ [cb]) lk)
    end.

(** [path.unobserve(root, callback)] *)
Definition Path_unobserve (fuel : nat) (this : nat) (root : value) (cb : nat) : M bool :=
  if negb (truthy root) then mret false
  else
    pa ← the_path this;
    match WeakMap_get (p_observed pa) root with
    | None => mret false
    | Some k =>
        lk ← the_link k;
        match index_of cb (lk_callbacks lk) with
        | None => mret false
        | Some index =>
            let callbacks := delete index (lk_callbacks lk) in
            update_link k (set_lk_callbacks callbacks) ;;
            (if bool_decide (callbacks = [])
             then Link_detach fuel k ;; observed_delete this root
             else mret tt) ;;
            mret true
        end
    end.

(** The loop of [path.get]: [root = root[part]; if (!root) return root]. *)
Fixpoint walk (parts : list string) (root : value) : M value :=
  match parts with
  | [] => mret root
  | part :: rest =>
      v ← Js_get root part;
      if negb (truthy v) then mret v else walk rest v
  end.

(** [path.get(root)] *)
Definition Path_get (this : nat) (root : value) : M value :=
  pa ← the_path this;
  match WeakMap_get (p_observed pa) root with
  | Some k => lk ← the_link k; mret (lk_value lk)
  | None => walk (p_path pa) root
  end.

(** [path.set(root, value, silent)] *)
Definition Path_set (fuel : nat) (this : nat) (root value : value) (silent : bool)
  : M bool :=
  pa ← the_path this;
  match WeakMap_get (p_observed pa) root with
  | None => mret false
  | Some k =>
      lk ← the_link k;
      ok ← match lk_last lk with
           | Some last => Link_set fuel last value silent
           | None => throw TypeError
           end;
      if negb ok then mret false
      else update_link k (set_lk_value value) ;; mret true
  end.

(** ** Programs that use the library

    A test of the repository is a sequence of object literals, calls into the
    library and property assignments; the definitions below are the pieces
    such programs are made of. *)

(** A property as an object literal creates it. *)
Definition plain (v : value) : property := DataProperty v true true true.

(** The own properties of the object literal [{ k1: v1, ... }]. *)
Definition literal (props : list (string * value)) : gmap string property :=
  list_to_map (map (fun kv => (kv.1, plain kv.2)) props).

(** Storing a new object at the heap address [l]. *)
Definition new_object (l : nat) (o : gmap string property) : M unit :=
  modify (fun s => with_heap (<[l := o]> (heap s)) s).

Definition empty_state : state := State ∅ ∅ ∅ [] [] [] [].

Definition result_of {A} (o : outcome A) : option (A + exn) :=
  match o with
  | Ok a _ => Some (inl a)
  | Throw e _ => Some (inr e)
  | OutOfFuel => None
  end.

Definition state_of {A} (o : outcome A) : option state :=
  match o with
  | Ok _ s => Some s
  | Throw _ s => Some s
  | OutOfFuel => None
  end.

Definition trace_of {A} (o : outcome A) : list event :=
  from_option trace [] (state_of o).

Definition is_path_call (f : nat) (e : event) : bool :=
  match e with
  | EvPathCallback g _ _ => bool_decide (g = f)
  | _ => false
  end.

(** How many times the path callback [f] is called while [m] runs from [s]. *)
Definition invocations {A} (f : nat) (m : M A) (s : state) : nat :=
  (length (List.filter (is_path_call f) (trace_of (m s)))
   - length (List.filter (is_path_call f) (trace s)))%nat.

(** Running [m] for its effect on the state; [None] when it throws or runs out
    of fuel. *)
Definition exec {A} (m : M A) (s : state) : option state :=
  match m s with
  | Ok _ s' => Some s'
  | _ => None
  end.

(** [root = { a: { b: { c: 7 } } }], [path = new Path('a', 'b', 'c')] and
    [path.observe(root, f)] with [f] the user function 100.  The root is at
    address 1, [root.a] at 2, [root.a.b] at 3; the path is instance 0. *)
Definition abc_root : M unit :=
  new_object 1 (literal [("a", VObj 2)]) ;;
  new_object 2 (literal [("b", VObj 3)]) ;;
  new_object 3 (literal [("c", VNum 7)]).

Definition abc_observed : M unit :=
  abc_root ;;
  p ← Path_new ["a"; "b"; "c"];
  Path_observe 10 p (VObj 1) 100.

(** [root.a.b = v] *)
Definition assign_a_b (v : value) : M unit :=
  a ← Js_get (VObj 1) "a";
  Js_set 10 a "b" v.

(** [root.a.b.c = v] *)
Definition assign_a_b_c (v : value) : M unit :=
  a ← Js_get (VObj 1) "a";
  b ← Js_get a "b";
  Js_set 10 b "c" v.

(** [root.a.b = { c: 'x' }], the new object at address 4. *)
Definition reform_b : M unit :=
  new_object 4 (literal [("c", VStr "x")]) ;;
  assign_a_b (VObj 4).

(** [root.a = { b: { c: 'x' } }], the new objects at addresses 6 and 5. *)
Definition replace_a : M unit :=
  new_object 5 (literal [("c", VStr "x")]) ;;
  new_object 6 (literal [("b", VObj 5)]) ;;
  Js_set 10 (VObj 1) "a" (VObj 6).

(** The value that following [a], [b], [c] from the root reaches. *)
Definition resolve_abc : M value := walk ["a"; "b"; "c"] (VObj 1).

(** [object = {}] with an accessor property [a] whose getter and setter are
    user functions over the closure cell 0, as
    [Object.defineProperty(object, 'a', { enumerable: true, configurable: true,
    get: get, set: set })] makes it. *)
Definition accessor_object : M unit :=
  new_object 1 {[ "a" := AccessorProperty (Some (GetUser 0)) (Some (SetUser 0)) true true ]}.

(** [root = { a: v }] observed along [new Path('a', 'b')]. *)
Definition observe_a_b (v : value) : M unit :=
  new_object 1 (literal [("a", v)]) ;;
  p ← Path_new ["a"; "b"];
  Path_observe 10 p (VObj 1) 100.

(** [new Path('a', 'b').get({ a: v })] *)
Definition cold_get_a_b (v : value) : M value :=
  new_object 1 (literal [("a", v)]) ;;
  p ← Path_new ["a"; "b"];
  Path_get p (VObj 1).

(** ** Notions used to state the properties *)

Definition raises {A} (o : outcome A) : bool :=
  match o with
  | Throw _ _ => true
  | _ => false
  end.

(** The accessor property that [new Observer] installs: both functions bound
    to the observer [n], the enumerability of the original property,
    configurable. *)
Definition bound_accessor (n : nat) (e : bool) : property :=
  AccessorProperty (Some (GetBound n)) (Some (SetBound n)) e true.

(** The value [new Observer] caches for an existing property. *)
Definition cached_value (p : property) : value :=
  match p with
  | DataProperty v _ _ _ => v
  | AccessorProperty _ _ _ _ => VUndef
  end.

(** The constructor's guard [!writable || (get && !set)] on an existing
    property: every accessor property has no [writable] field. *)
Definition short_circuits (p : property) : bool :=
  match p with
  | DataProperty _ w _ _ => negb w
  | AccessorProperty _ _ _ _ => true
  end.

(** A read-only property: a data property that is not writable, or a getter
    without a setter. *)
Definition read_only (p : property) : bool :=
  match p with
  | DataProperty _ w _ _ => negb w
  | AccessorProperty g st _ _ =>
      bool_decide (is_Some g) && negb (bool_decide (is_Some st))
  end.

(** An assignment to the property reaches a value slot: the property is a
    writable data property, or an accessor property with a user setter. *)
Definition accepts_assignment (p : property) : bool :=
  match p with
  | DataProperty _ w _ _ => w
  | AccessorProperty _ (Some (SetUser _)) _ _ => true
  | AccessorProperty _ _ _ _ => false
  end.

Definition writable_data (p : property) : bool :=
  match p with
  | DataProperty _ w _ _ => w
  | AccessorProperty _ _ _ _ => false
  end.

(** The property [p] with its value replaced, when it has one and a new one
    is given. *)
Definition with_value (p : property) (v : option value) : property :=
  match p, v with
  | DataProperty _ w e c, Some v' => DataProperty v' w e c
  | _, _ => p
  end.

(** What the round trip leaves in place of the property [po] of the object,
    [None] when the object had no such property. *)
Definition restored (po : option property) (v : option value) : property :=
  match po with
  | Some p => with_value p v
  | None => DataProperty (default VUndef v) true true true
  end.

(** [new Observer] does not throw: the property is not a writable data
    property that is not configurable. *)
Definition observable (po : option property) : bool :=
  match po with
  | Some (DataProperty _ true _ false) => false
  | _ => true
  end.

(** The events of calling the user functions [fs], in order. *)
Definition call_events (fs : list nat) (target v : value) : list event :=
  (fun f => EvObserverCallback f target v) <$> fs.
Definition path_events (fs : list nat) (first second : value) : list event :=
  (fun f => EvPathCallback f first second) <$> fs.

(** [Observer.observe(object, k, f)] for each user function of [fs]. *)
Fixpoint observe_each (object : value) (k : string) (fs : list nat) : M unit :=
  match fs with
  | [] => mret tt
  | f :: rest => Observer_observe object k (CbUser f) ;; observe_each object k rest
  end.

(** [object[k] = v] for each value of [vs]. *)
Fixpoint assign_each (fuel : nat) (object : value) (k : string) (vs : list value)
  : M unit :=
  match vs with
  | [] => mret tt
  | v :: rest => Js_set fuel object k v ;; assign_each fuel object k rest
  end.

(** [Observer.unobserve(object, k, f)] for each user function of [fs]. *)
Fixpoint unobserve_each (object : value) (k : string) (fs : list nat) : M unit :=
  match fs with
  | [] => mret tt
  | f :: rest => Observer_unobserve object k (CbUser f) ;; unobserve_each object k rest
  end.

(** Observing a property with the callbacks [fs], assigning it the values
    [vs], and removing every callback again. *)
Definition round_trip (fuel : nat) (object : value) (k : string)
    (fs : list nat) (vs : list value) : M unit :=
  observe_each object k fs ;;
  assign_each fuel object k vs ;;
  unobserve_each object k fs.

(** The descriptor the observer keeps for a writable data property:
    [from_property] of the property when it existed ([c = Some true]), the
    default definition when it did not ([c = None]). *)
Definition kept_definition (x : value) (e : bool) (c : option bool) : descriptor :=
  Descriptor None None (Some x) (Some true) (Some e) c.

(** The property [k] of the object [l] is instrumented by the observer [n]:
    the observer holds the user callbacks [fs], the cached value [v] and the
    kept descriptor of a writable data property; it is the one registered for
    the pair; the object carries the bound accessor where [o] had the
    original property or none, in the heap [h0]. *)
Definition instrumented (l : nat) (k : string) (n : nat) (e : bool) (x : value)
    (c : option bool) (o : gmap string property) (h0 : gmap nat (gmap string property))
    (fs : list nat) (v : value) (s : state) : Prop :=
  observer_store s !! n
    = Some (Observer (CbUser <$> fs) v (Some (VObj l)) (Some k)
              (Some (kept_definition x e c)))
  ∧ c ≠ Some false
  ∧ (∃ m, observers s !! k = Some m ∧ m !! l = Some n)
  ∧ heap s = <[l := <[k := bound_accessor n e]> o]> h0.

(** The observer [n] is registered for the pair without instrumenting it. *)
Definition registered (l : nat) (k : string) (n : nat)
    (fs : list nat) (v : value) (s : state) : Prop :=
  observer_store s !! n = Some (Observer (CbUser <$> fs) v None None None)
  ∧ (∃ m, observers s !! k = Some m ∧ m !! l = Some n).

(** ** Further programs *)

(** The state after [path.observe(root, f)] and [root.a.b = v]. *)
Definition broken_with (v : value) : option state :=
  exec (abc_observed ;; assign_a_b v) empty_state.

(** [b = root.a.b; root.a.b = undefined; b.c = 8], with the value the path
    resolves to from the root before and after the last assignment. *)
Definition mutate_detached_object : M (value * value) :=
  abc_observed ;;
  assign_a_b VUndef ;;
  before ← resolve_abc;
  Js_set 10 (VObj 3) "c" (VNum 8) ;;
  after ← resolve_abc;
  mret (before, after).

(** [root.a.b = undefined; path.set(root, 5)], with the value of [c] on the
    object that used to be [root.a.b], the value the path resolves to from the
    root, and [path.get(root)]. *)
Definition set_on_broken_path : M (bool * value * value * value) :=
  abc_observed ;;
  assign_a_b VUndef ;;
  r ← Path_set 10 0 (VObj 1) (VNum 5) false;
  c ← Js_get (VObj 3) "c";
  w ← resolve_abc;
  g ← Path_get 0 (VObj 1);
  mret (r, c, w, g).

(** [root = { a: undefined }] observed along [a.b], then [path.set(root, 5)]. *)
Definition set_on_unattached_path : M bool :=
  observe_a_b VUndef ;;
  Path_set 10 0 (VObj 1) (VNum 5) false.

(** [Observer.observe(object, 'a', f); object.a = 12] on the accessor object,
    with the property [a] as it is after [observe]. *)
Definition observe_accessor_then_assign : M (option property) :=
  accessor_object ;;
  Observer_observe (VObj 1) "a" (CbUser 100) ;;
  p ← gets (fun s => own_property s (VObj 1) "a");
  Js_set 10 (VObj 1) "a" (VNum 12) ;;
  mret p.

(** [Observer.observe(object, 'a', f)] where [a] is neither writable nor
    configurable. *)
Definition observe_frozen_property : M nat :=
  new_object 1 {[ "a" := DataProperty (VNum 7) false true false ]} ;;
  Observer_observe (VObj 1) "a" (CbUser 100).

(** [new Path('a').unobserve(undefined, f)] *)
Definition unobserve_undefined_root : M bool :=
  p ← Path_new ["a"];
  Path_unobserve 10 p VUndef 100.

(** [object = {}] *)
Definition empty_object_state : state :=
  State {[ 1%nat := ∅ ]} ∅ ∅ [] [] [] [].

(** [object = {}] with [a] defined as
    [{ writable: true, enumerable: false, configurable: true }]. *)
Definition hidden_property_object : gmap string property :=
  {[ "a" := DataProperty VUndef true false true ]}.
Definition hidden_property_state : state :=
  State {[ 1%nat := hidden_property_object ]} ∅ ∅ [] [] [] [].

(** [object = {}] with [a] defined as
    [{ enumerable: true, configurable: false, writable: true }]. *)
Definition unconfigurable_state : state :=
  State {[ 1%nat := {[ "a" := DataProperty VUndef true true false ]} ]} ∅ ∅ [] [] [] [].

(** [object = {}] with [a] defined as
    [{ enumerable: true, configurable: false, get: () => 5 }], the getter
    reading the closure cell 0. *)
Definition getter_only_state : state :=
  State {[ 1%nat := {[ "a" := AccessorProperty (Some (GetUser 0)) None true false ]} ]}
    {[ 0%nat := VNum 5 ]} ∅ [] [] [] [].

(** ** Notions used by the further properties *)

(** [m] calls no user function: it ends with the trace and the closure cells
    it started with, whether it returns or throws. *)
Definition quiet {A} (m : M A) : Prop :=
  ∀ s, from_option (fun s' => trace s' = trace s ∧ cells s' = cells s) True
         (state_of (m s)).

(** The value [new Observer] caches when it instruments the property: the
    property is absent, or a writable and configurable data property. *)
Definition initial_value (po : option property) : option value :=
  match po with
  | None => Some VUndef
  | Some (DataProperty v true _ true) => Some v
  | Some _ => None
  end.

(** The enumerability of the accessor that replaces the property. *)
Definition initial_enumerable (po : option property) : bool :=
  match po with
  | Some p => prop_enumerable p
  | None => true
  end.

Definition kept_configurable (po : option property) : option bool :=
  match po with
  | Some p => Some (prop_configurable p)
  | None => None
  end.

(** [path.observe(root, f)] for each user function of [fs]. *)
Fixpoint path_observe_each (fuel this : nat) (root : value) (fs : list nat) : M unit :=
  match fs with
  | [] => mret tt
  | f :: rest => Path_observe fuel this root f ;; path_observe_each fuel this root rest
  end.

(** [path.unobserve(root, f)] for each user function of [fs]; whether every
    call returned [true]. *)
Fixpoint path_unobserve_each (fuel this : nat) (root : value) (fs : list nat) : M bool :=
  match fs with
  | [] => mret true
  | f :: rest =>
      found ← Path_unobserve fuel this root f;
      others ← path_unobserve_each fuel this root rest;
      mret (found && others)
  end.

(** [root = { a: 7 }] with [a] not writable, and [path = new Path('a')]. *)
Definition constant_property_object : gmap string property :=
  {[ "a" := DataProperty (VNum 7) false true true ]}.
Definition constant_path_state : state :=
  State {[ 1%nat := constant_property_object ]} ∅ ∅ [] [] [Path ["a"] ∅] [].

(** The links that [new FirstLink(root)] constructs for the parts of a path,
    the first at index [base]: each link carries its part and the root, the
    next link except on the last, no observer, and [last] as the last link. *)
Fixpoint chain (path base : nat) (parts : list string) (root : value)
    (last : option nat) : list link :=
  match parts with
  | [] => []
  | part :: rest =>
      Link path part (match rest with [] => None | _ => Some (S base) end)
        root None last [] VUndef
      :: chain path (S base) rest root last
  end.

(** The observer registered for the property [k] of the object [l]. *)
Definition registry (s : state) (k : string) (l : nat) : option nat :=
  observers s !! k ≫= fun m => m !! l.

(** One level of an observed path: the object a link is attached to, the
    part the link observes on it, and the properties the object had before
    it was instrumented. *)
Record level : Type := Level {
  lv_object : nat;
  lv_part : string;
  lv_original : gmap string property
}.

(** The value of a level's property: the object of the next level, or the
    final value [v] of the path on the last level. *)
Definition level_value (rest : list level) (v : value) : value :=
  match rest with
  | [] => v
  | lv :: _ => VObj (lv_object lv)
  end.

(** The link after the link [k]: the link of the next level, and after the
    last level the link of a further part when the path has [more] parts than
    levels. *)
Definition next_link (more : bool) (k : nat) (rest : list level) : option nat :=
  match rest with
  | [] => if more then Some (S k) else None
  | _ :: _ => Some (S k)
  end.

(** Objects nobody observes yet, nested along the parts of a path, each
    property one that [Observer.observe] instruments. *)
Fixpoint unobserved (s : state) (lvs : list level) (v : value) : Prop :=
  match lvs with
  | [] => True
  | lv :: rest =>
      heap s !! lv_object lv = Some (lv_original lv)
      ∧ initial_value (lv_original lv !! lv_part lv) = Some (level_value rest v)
      ∧ registry s (lv_part lv) (lv_object lv) = None
      ∧ unobserved s rest v
  end.

(** The parts of the levels are names that the registry [observers] does not
    inherit from [Object.prototype]. *)
Definition own_names (lvs : list level) : Prop :=
  Forall (fun lv => inherited (lv_part lv) = false) lvs.

(** The link [k] is attached at the level [lv]: its observer holds the
    link's change handler only and the value [val], is registered for the
    property, and the object carries the bound accessor. *)
Definition level_ok (s : state) (this : nat) (root : value) (k : nat) (lv : level)
    (val : value) (next : option nat) : Prop :=
  ∃ lk n x,
    link_store s !! k = Some lk
    ∧ lk_path lk = this ∧ lk_part lk = lv_part lv ∧ lk_root lk = root
    ∧ lk_next lk = next ∧ lk_observer lk = Some n
    ∧ observer_store s !! n
      = Some (Observer [CbLink k] val (Some (VObj (lv_object lv))) (Some (lv_part lv))
                (Some (kept_definition x
                         (initial_enumerable (lv_original lv !! lv_part lv))
                         (kept_configurable (lv_original lv !! lv_part lv)))))
    ∧ is_Some (initial_value (lv_original lv !! lv_part lv))
    ∧ registry s (lv_part lv) (lv_object lv) = Some n
    ∧ heap s !! lv_object lv
      = Some (<[lv_part lv := bound_accessor n
                                (initial_enumerable (lv_original lv !! lv_part lv))]>
                (lv_original lv)).

(** The chain from the link [k] on is attached along the levels [lvs], the
    property of the last level holding [v]; the chain ends there, or goes on
    with links that are not attached when there are [more]. *)
Fixpoint attached (more : bool) (s : state) (this : nat) (root : value) (k : nat)
    (lvs : list level) (v : value) : Prop :=
  match lvs with
  | [] => True
  | lv :: rest =>
      level_ok s this root k lv (level_value rest v) (next_link more k rest)
      ∧ attached more s this root (S k) rest v
  end.

(** The observer of a link is absent, or one that no longer holds the
    link's change handler. *)
Definition stale (s : state) (k : nat) (o : option nat) : Prop :=
  match o with
  | None => True
  | Some n => ∃ ob, observer_store s !! n = Some ob
                    ∧ index_of (CbLink k) (ob_callbacks ob) = None
  end.

(** The links from [k] on are those of the parts, none of them attached. *)
Fixpoint detached (s : state) (this : nat) (root : value) (k : nat)
    (lvs : list level) : Prop :=
  match lvs with
  | [] => True
  | lv :: rest =>
      (∃ lk, link_store s !! k = Some lk
             ∧ lk_path lk = this ∧ lk_part lk = lv_part lv ∧ lk_root lk = root
             ∧ lk_next lk = next_link false k rest ∧ stale s k (lk_observer lk))
      ∧ detached s this root (S k) rest
  end.

(** What attaching to the objects [ls] leaves alone: the other objects and
    their registry entries, every observer there was, the paths and the
    trace. *)
Definition attach_frame (ls : list nat) (s s' : state) : Prop :=
  (∀ l, l ∉ ls → heap s' !! l = heap s !! l)
  ∧ (∀ p l, l ∉ ls → registry s' p l = registry s p l)
  ∧ (∀ n ob, observer_store s !! n = Some ob → observer_store s' !! n = Some ob)
  ∧ path_store s' = path_store s
  ∧ cells s' = cells s
  ∧ trace s' = trace s.

(** What detaching from the objects [ls] leaves alone: the other objects,
    their registry entries and the observers that target them, every link,
    the paths and the trace. *)
Definition detach_frame (ls : list nat) (s s' : state) : Prop :=
  (∀ l, l ∉ ls → heap s' !! l = heap s !! l)
  ∧ (∀ p l, l ∉ ls → registry s' p l = registry s p l)
  ∧ (∀ n ob, observer_store s !! n = Some ob →
             (∀ l, ob_target ob = Some (VObj l) → l ∉ ls) →
             observer_store s' !! n = Some ob)
  ∧ link_store s' = link_store s
  ∧ path_store s' = path_store s
  ∧ cells s' = cells s
  ∧ trace s' = trace s.

(** Links keep everything but their observer, and the links before [k0]
    that too. *)
Definition links_kept (k0 : nat) (s s' : state) : Prop :=
  (∀ k, (k < k0)%nat → link_store s' !! k = link_store s !! k)
  ∧ (∀ k lk, link_store s !! k = Some lk →
             ∃ o, link_store s' !! k = Some (set_lk_observer o lk)).

(** Two link records with the fields of a link proper equal: all but the
    callbacks, the value and the last link, which belong to the path. *)
Definition link_same (lk lk' : link) : Prop :=
  lk_path lk' = lk_path lk ∧ lk_part lk' = lk_part lk ∧ lk_root lk' = lk_root lk
  ∧ lk_next lk' = lk_next lk ∧ lk_observer lk' = lk_observer lk.

Definition links_same_at (s s' : state) (j : nat) : Prop :=
  ∀ lk, link_store s !! j = Some lk →
        ∃ lk', link_store s' !! j = Some lk' ∧ link_same lk lk'.

(** The state after [link.attach] has observed the property of its level,
    before it goes on to the next link. *)
Definition attached_level (s : state) (k : nat) (lv : level) (val : value) : state :=
  State (<[lv_object lv :=
             <[lv_part lv := bound_accessor (length (observer_store s))
                               (initial_enumerable (lv_original lv !! lv_part lv))]>
               (lv_original lv)]> (heap s))
    (cells s)
    (<[lv_part lv := <[lv_object lv := length (observer_store s)]>
                       (default ∅ (observers s !! lv_part lv))]> (observers s))
    (observer_store s
     ++ [Observer [CbLink k] val (Some (VObj (lv_object lv))) (Some (lv_part lv))
           (Some (kept_definition val
                    (initial_enumerable (lv_original lv !! lv_part lv))
                    (kept_configurable (lv_original lv !! lv_part lv))))])
    (alter (set_lk_observer (Some (length (observer_store s)))) k (link_store s))
    (path_store s) (trace s).

(** Whether the path has parts beyond the levels. *)
Definition has_more (rem : list level) : bool :=
  match rem with
  | [] => false
  | _ :: _ => true
  end.

(** What [attach] returns: the value of the last level, or [undefined] when
    that value is falsy and the path has more parts. *)
Definition resolved (rem : list level) (v : value) : value :=
  match rem with
  | [] => v
  | _ :: _ => VUndef
  end.

(** The path [this] observes the root [l0] with the chain that starts at
    the link [k0]: the chain is attached along the levels [lvs], and its
    first link holds the callbacks [fs] and the value [v] the path resolves
    to. *)
Definition deep_bound (this l0 k0 : nat) (lvs : list level) (fs : list nat)
    (v : value) (s : state) : Prop :=
  head (lv_object <$> lvs) = Some l0
  ∧ (∃ pa, path_store s !! this = Some pa ∧ p_path pa = lv_part <$> lvs
           ∧ p_observed pa !! l0 = Some k0)
  ∧ (∃ lk0, link_store s !! k0 = Some lk0 ∧ lk_callbacks lk0 = fs ∧ lk_value lk0 = v
            ∧ lk_last lk0 = Some (k0 + length lvs - 1)%nat)
  ∧ attached false s this (VObj l0) k0 lvs v
  ∧ NoDup (lv_object <$> lvs).

(** The levels as [detach] leaves them: each property is a writable,
    configurable data property again, with the value the level had. *)
Fixpoint restored_levels (lvs : list level) (v : value) : list level :=
  match lvs with
  | [] => []
  | lv :: rest =>
      Level (lv_object lv) (lv_part lv)
        (<[lv_part lv := DataProperty (level_value rest v) true
                           (initial_enumerable (lv_original lv !! lv_part lv)) true]>
           (lv_original lv))
      :: restored_levels rest v
  end.

(** The state after the only callback of the observer [n] of a level was
    removed. *)
Definition detached_level (s : state) (lv : level) (n : nat) (val : value)
    (m : gmap nat nat) : state :=
  State (<[lv_object lv :=
             <[lv_part lv := DataProperty val true
                               (initial_enumerable (lv_original lv !! lv_part lv)) true]>
               (lv_original lv)]> (heap s))
    (cells s)
    (<[lv_part lv := delete (lv_object lv) m]> (observers s))
    (<[n := Observer [] val (Some (VObj (lv_object lv))) (Some (lv_part lv))
              (Some (kept_definition val
                       (initial_enumerable (lv_original lv !! lv_part lv))
                       (kept_configurable (lv_original lv !! lv_part lv))))]>
       (observer_store s))
    (link_store s) (path_store s) (trace s).

(** The root of the levels [pre ++ [lz]]: the object of the first one. *)
Definition first_object (pre : list level) (lz : level) : nat :=
  lv_object (hd lz pre).

(** [root = { a: { b: { c: 7 } } }] and [path = new Path('a', 'b', 'c')]:
    the root at address 1, [root.a] at 2, [root.a.b] at 3, the path
    instance 0. *)
Definition abc_state : state :=
  State {[ 1%nat := literal [("a", VObj 2)];
           2%nat := literal [("b", VObj 3)];
           3%nat := literal [("c", VNum 7)] ]}
    ∅ ∅ [] [] [Path ["a"; "b"; "c"] ∅] [].

Definition abc_levels : list level :=
  [Level 1 "a" (literal [("a", VObj 2)]); Level 2 "b" (literal [("b", VObj 3)])].
Definition abc_last : level := Level 3 "c" (literal [("c", VNum 7)]).

(** [root = { a: { b: { c: 7 } } }] with [path = new Path('a', 'b', 'c')],
    and a second object [{ b: { c: 'x' } }] at the addresses 4 and 5 that
    nothing refers to yet. *)
Definition abc_spare_state : state :=
  State {[ 1%nat := literal [("a", VObj 2)];
           2%nat := literal [("b", VObj 3)];
           3%nat := literal [("c", VNum 7)];
           4%nat := literal [("b", VObj 5)];
           5%nat := literal [("c", VStr "x")] ]}
    ∅ ∅ [] [] [Path ["a"; "b"; "c"] ∅] [].

Definition abc_spare_levels : list level :=
  [Level 4 "b" (literal [("b", VObj 5)])].
Definition abc_spare_last : level := Level 5 "c" (literal [("c", VStr "x")]).
Definition abc_root_level : level := Level 1 "a" (literal [("a", VObj 2)]).
Definition abc_middle_levels : list level := [Level 2 "b" (literal [("b", VObj 3)])].

(** The path [this] observes the root [l0] with a chain that stops short:
    it is attached along the levels [lvs], the property of the last of them
    holds the falsy value [u], and the links of the parts that remain, those
    of the levels [rem], were never attached.  The path resolves to
    [undefined]. *)
Definition open_bound (this l0 k0 : nat) (lvs rem : list level) (fs : list nat)
    (u : value) (s : state) : Prop :=
  head (lv_object <$> lvs) = Some l0
  ∧ (∃ pa, path_store s !! this = Some pa ∧ p_path pa = lv_part <$> (lvs ++ rem)
           ∧ p_observed pa !! l0 = Some k0)
  ∧ (∃ lk0, link_store s !! k0 = Some lk0 ∧ lk_callbacks lk0 = fs
            ∧ lk_value lk0 = VUndef
            ∧ lk_last lk0 = Some (k0 + length (lvs ++ rem) - 1)%nat)
  ∧ attached true s this (VObj l0) k0 lvs u
  ∧ truthy u = false
  ∧ detached s this (VObj l0) (k0 + length lvs) rem
  ∧ (∃ lkz, link_store s !! (k0 + length (lvs ++ rem) - 1)%nat = Some lkz
            ∧ lk_observer lkz = None)
  ∧ NoDup (lv_object <$> lvs)
  ∧ (0 < length lvs)%nat
  ∧ (0 < length rem)%nat.

(** [root = {}] with [path = new Path('a', 'b', 'c')], and an object
    [{ b: { c: 'x' } }] at the addresses 2 and 3 that nothing refers to
    yet. *)
Definition late_state : state :=
  State {[ 1%nat := literal [];
           2%nat := literal [("b", VObj 3)];
           3%nat := literal [("c", VStr "x")] ]}
    ∅ ∅ [] [] [Path ["a"; "b"; "c"] ∅] [].

Definition late_root_level : level := Level 1 "a" (literal []).
Definition late_levels : list level :=
  [Level 2 "b" (literal [("b", VObj 3)]); Level 3 "c" (literal [("c", VStr "x")])].

(** * Properties *)

(** ** Running the monad *)

Lemma alter_snoc {A} (f : A → A) (l : list A) (x : A) :
  alter f (length l) (l ++ [x]) = l ++ [f x].
Proof.
  induction l as [|y l IH]; simpl; [done|]. f_equal. exact IH.
Qed.

Ltac msimp :=
  unfold mbind, M_bind, mret, M_ret, gets, modify, throw, emit,
    update_observer, update_link, update_path, the_observer, the_link, the_path,
    with_heap, with_cells, with_observers, with_observer_store,
    with_link_store, with_path_store, with_trace, WeakMap_get,
    add_callback, set_callbacks, set_value, set_definition, set_instrumented in *;
  simpl in *.

Ltac mgo :=
  repeat (msimp;
          first [ rewrite lookup_empty | rewrite lookup_insert_eq
                | rewrite alter_snoc | rewrite insert_insert_eq
                | match goal with H : ?x = _ |- context [?x] => rewrite H end ]).

Lemma with_trace_id s : with_trace (trace s ++ []) s = s.
Proof. destruct s; unfold with_trace; simpl. by rewrite app_nil_r. Qed.

Lemma default_last_cons {A} (v v' : A) (vs : list A) :
  default v (last (v' :: vs)) = default v' (last vs).
Proof.
  revert v v'. induction vs as [|w vs IH]; intros v v'; [done|].
  change (last (v' :: w :: vs)) with (last (w :: vs)).
  by rewrite !IH.
Qed.

(** ** [Observer.observe] on a property nobody observes yet *)

(** A writable, configurable data property is replaced by the bound accessor;
    the observer keeps the original descriptor. *)
Lemma Observer_observe_first s l o k v0 e cb :
  heap s !! l = Some o →
  o !! k = Some (DataProperty v0 true e true) →
  (observers s !! k ≫= fun m => m !! l) = None →
  inherited k = false →
  Observer_observe (VObj l) k cb s =
    Ok (length (observer_store s))
      (State (<[l := <[k := bound_accessor (length (observer_store s)) e]> o]> (heap s))
         (cells s)
         (<[k := <[l := length (observer_store s)]> (default ∅ (observers s !! k))]>
            (observers s))
         (observer_store s ++
            [Observer [cb] v0 (Some (VObj l)) (Some k)
               (Some (from_property (DataProperty v0 true e true)))])
         (link_store s) (path_store s) (trace s)).
Proof.
  intros Hl Hk Hreg Hown.
  unfold Observer_observe, Observer_getMap, map_get, Observer_new, Observer_add,
    Object_getOwnPropertyDescriptor, Object_defineProperty, registry_set,
    bound_accessor. msimp.
  destruct (observers s !! k) as [m|] eqn:Hm; mgo; reflexivity.
Qed.

(** A property that does not exist is created as the bound accessor,
    enumerable; the observer keeps the default definition. *)
Lemma Observer_observe_absent s l o k cb :
  heap s !! l = Some o →
  o !! k = None →
  (observers s !! k ≫= fun m => m !! l) = None →
  inherited k = false →
  Observer_observe (VObj l) k cb s =
    Ok (length (observer_store s))
      (State (<[l := <[k := bound_accessor (length (observer_store s)) true]> o]> (heap s))
         (cells s)
         (<[k := <[l := length (observer_store s)]> (default ∅ (observers s !! k))]>
            (observers s))
         (observer_store s ++
            [Observer [cb] VUndef (Some (VObj l)) (Some k) (Some default_definition)])
         (link_store s) (path_store s) (trace s)).
Proof.
  intros Hl Hk Hreg Hown.
  unfold Observer_observe, Observer_getMap, map_get, Observer_new, Observer_add,
    Object_getOwnPropertyDescriptor, Object_defineProperty, registry_set,
    bound_accessor. msimp.
  destruct (observers s !! k) as [m|] eqn:Hm; mgo; reflexivity.
Qed.

(** A property on which the constructor's guard fires is left alone; the
    observer has no target, property or definition. *)
Lemma Observer_observe_short_circuit s l o k p cb :
  heap s !! l = Some o →
  o !! k = Some p →
  short_circuits p = true →
  (observers s !! k ≫= fun m => m !! l) = None →
  inherited k = false →
  Observer_observe (VObj l) k cb s =
    Ok (length (observer_store s))
      (State (heap s) (cells s)
         (<[k := <[l := length (observer_store s)]> (default ∅ (observers s !! k))]>
            (observers s))
         (observer_store s ++ [Observer [cb] (cached_value p) None None None])
         (link_store s) (path_store s) (trace s)).
Proof.
  intros Hl Hk Hp Hreg Hown.
  unfold Observer_observe, Observer_getMap, map_get, Observer_new, Observer_add,
    Object_getOwnPropertyDescriptor, Object_defineProperty, registry_set. msimp.
  destruct p as [v [] e c|g st e c]; try discriminate;
    destruct (observers s !! k) as [m|] eqn:Hm; mgo; reflexivity.
Qed.

(** A writable data property that is not configurable: the constructor's
    [Object.defineProperty] throws (and [map.get] before it, when the
    registry inherits a member of that name).  The heap is as before and the
    registry has no entry for the object. *)
Lemma Observer_observe_throws s l o k v0 e cb :
  heap s !! l = Some o →
  o !! k = Some (DataProperty v0 true e false) →
  (observers s !! k ≫= fun m => m !! l) = None →
  ∃ s', Observer_observe (VObj l) k cb s = Throw TypeError s'
        ∧ heap s' = heap s
        ∧ (observers s' !! k ≫= fun m => m !! l) = None.
Proof.
  intros Hl Hk Hreg.
  unfold Observer_observe, Observer_getMap, map_get, Observer_new, Observer_add,
    Object_getOwnPropertyDescriptor, Object_defineProperty, registry_set. msimp.
  destruct (observers s !! k) as [m|] eqn:Hm;
    [|destruct (inherited k) eqn:Hown]; mgo;
    (eexists; split; [reflexivity|]); simpl; split; try done.
  - by rewrite Hm.
  - by rewrite Hm.
  - by rewrite lookup_insert_eq.
Qed.

(** An object that already has an observer for the property gets the callback
    appended. *)
Lemma Observer_observe_again s l k n m cb :
  observers s !! k = Some m → m !! l = Some n →
  Observer_observe (VObj l) k cb s
    = Ok n (with_observer_store (alter (add_callback cb) n (observer_store s)) s).
Proof.
  intros Hm Hl. unfold Observer_observe, Observer_getMap, map_get, Observer_add. mgo.
  reflexivity.
Qed.

(** A primitive that passes a truthiness test cannot be observed: either
    [Object.defineProperty] or [WeakMap.prototype.set] rejects it. *)
Lemma Observer_observe_primitive target k cb s :
  ref_of target = None →
  truthy target = true →
  ∃ s', Observer_observe target k cb s = Throw TypeError s' ∧ heap s' = heap s.
Proof.
  intros Href Htruthy.
  unfold Observer_observe, Observer_getMap, map_get, Observer_new, Observer_add,
    Object_getOwnPropertyDescriptor, Object_defineProperty, registry_set.
  destruct target as [| |b|z|str|l|l]; try discriminate; msimp;
    (destruct (observers s !! k) as [m|]; [|destruct (inherited k)]); msimp;
    try (destruct (string_own_property str k) as [[v [] e c|g st e c]|]; msimp);
    eexists; (split; [reflexivity|done]).
Qed.

(** The registry inherits the members of [Object.prototype]: for a property
    of such a name [getMap] returns the member, which has no method [get],
    so that [Observer.observe] and [Observer.unobserve] throw a TypeError
    and change nothing, whatever the object is. *)
Lemma Observer_inherited_name object k cb s :
  inherited k = true →
  observers s !! k = None →
  Observer_observe object k cb s = Throw TypeError s
  ∧ Observer_unobserve object k cb s = Throw TypeError s.
Proof.
  intros Hk Hm.
  unfold Observer_observe, Observer_unobserve, Observer_getMap, map_get.
  unfold mbind, M_bind, throw. by rewrite Hm, Hk.
Qed.

(** ** The interceptor [Observer.prototype.set] with user callbacks *)

(** The loop calls the user functions from [index] on, in registration
    order, with [(target, value)]. *)
Lemma for_of_user_callbacks n target v fs :
  ∀ fuel i s ob,
    observer_store s !! n = Some ob →
    ob_callbacks ob = CbUser <$> fs →
    (length fs - i < fuel)%nat →
    for_of_callbacks fuel n i target v s =
      Ok tt (with_trace (trace s ++ call_events (drop i fs) target v) s).
Proof.
  induction fuel as [|fuel IH]; intros i s ob Hob Hcbs Hlen; [lia|].
  simpl. unfold mbind, M_bind, the_observer. rewrite Hob, Hcbs.
  rewrite list_lookup_fmap.
  destruct (fs !! i) as [f|] eqn:Hf; simpl.
  - unfold emit, modify.
    erewrite IH; [| exact Hob | exact Hcbs |].
    + rewrite (drop_S fs f i Hf). unfold with_trace; simpl.
      by rewrite <- app_assoc.
    + apply lookup_lt_Some in Hf. lia.
  - rewrite (drop_ge fs i) by (by apply lookup_ge_None).
    unfold call_events; simpl. by rewrite with_trace_id.
Qed.

(** Without an original setter: a value identical to the cached one changes
    nothing; any other value is announced to every callback and then cached. *)
Lemma Observer_set_user fuel n v fs s cbs old tgt prop d :
  observer_store s !! n = Some (Observer cbs old tgt prop (Some d)) →
  cbs = CbUser <$> fs →
  default None (d_set d) = None →
  (length fs + 1 < fuel)%nat →
  Observer_set fuel n v false s =
    if decide (old = v) then Ok tt s
    else Ok tt (State (heap s) (cells s) (observers s)
                  (alter (set_value v) n (observer_store s))
                  (link_store s) (path_store s)
                  (trace s ++ call_events fs (default VUndef tgt) v)).
Proof.
  intros Hob -> Hset Hfuel.
  destruct fuel as [|fuel]; [lia|]. simpl.
  unfold mbind, M_bind, the_observer. rewrite Hob. simpl. rewrite Hset.
  unfold strict_eq. rewrite bool_decide_decide. destruct (decide (old = v)); [done|].
  erewrite for_of_user_callbacks; [| exact Hob | done | simpl; lia].
  rewrite drop_0. reflexivity.
Qed.

(** With an original user setter in the kept descriptor: the callbacks come
    first, in registration order, then the cached value is updated, and the
    original setter is called last. *)
Lemma Observer_set_order fuel n v fs s cbs old tgt prop d c :
  observer_store s !! n = Some (Observer cbs old tgt prop (Some d)) →
  cbs = CbUser <$> fs →
  default None (d_set d) = Some (SetUser c) →
  old ≠ v →
  (length fs + 1 < fuel)%nat →
  Observer_set fuel n v false s =
    Ok tt (State (heap s) (<[c := v]> (cells s)) (observers s)
             (alter (set_value v) n (observer_store s))
             (link_store s) (path_store s)
             (trace s ++ call_events fs (default VUndef tgt) v
                ++ [EvSetter c (default VUndef tgt) v])).
Proof.
  intros Hob -> Hset Hne Hfuel.
  destruct fuel as [|fuel]; [lia|]. simpl.
  unfold mbind, M_bind, the_observer. rewrite Hob. simpl. rewrite Hset.
  unfold strict_eq. rewrite bool_decide_decide, decide_False by done.
  erewrite for_of_user_callbacks; [| exact Hob | done | simpl; lia].
  rewrite drop_0. unfold emit, modify, with_trace, with_cells; simpl.
  by rewrite <- app_assoc.
Qed.

(** ** An instrumented property through observe, assign and unobserve *)

Section instrumented.
Variables (l : nat) (k : string) (n : nat) (e : bool) (x : value) (c : option bool).
Variables (o : gmap string property) (h0 : gmap nat (gmap string property)).

Abbreviation inv := (instrumented l k n e x c o h0).

Lemma instrumented_observe fs v f s :
  inv fs v s →
  ∃ s', Observer_observe (VObj l) k (CbUser f) s = Ok n s' ∧ inv (fs ++ [f]) v s'.
Proof.
  intros (Hob & Hc & (m & Hm & Hl) & Hh).
  eexists. split.
  - by eapply Observer_observe_again.
  - split; [|split; [|split]]; simpl; [|done|eauto|done].
    rewrite list_lookup_alter_eq, Hob. simpl. unfold add_callback; simpl.
    by rewrite fmap_app.
Qed.

Lemma instrumented_observe_each rest : ∀ fs v s,
  inv fs v s →
  ∃ s', observe_each (VObj l) k rest s = Ok tt s' ∧ inv (fs ++ rest) v s'.
Proof.
  induction rest as [|f rest IH]; intros fs v s HI; simpl.
  - exists s. by rewrite app_nil_r.
  - destruct (instrumented_observe fs v f s HI) as (s1 & E1 & H1).
    destruct (IH _ _ _ H1) as (s2 & E2 & H2).
    exists s2. unfold mbind, M_bind. rewrite E1. split; [done|].
    by rewrite <- app_assoc in H2.
Qed.

Lemma instrumented_assign fuel fs v v' s :
  inv fs v s →
  (length fs + 2 ≤ fuel)%nat →
  ∃ s', Js_set fuel (VObj l) k v' s = Ok tt s' ∧ inv fs v' s'.
Proof.
  intros (Hob & Hc & (m & Hm & Hl) & Hh) Hfuel.
  unfold Js_set, own_property. msimp. rewrite Hh, lookup_insert_eq. simpl.
  rewrite lookup_insert_eq. unfold bound_accessor, call_setter.
  erewrite Observer_set_user; [| exact Hob | done | done | lia].
  destruct (decide (v = v')) as [->|Hne].
  - exists s. split; [done|]. repeat split; eauto.
  - eexists. split; [reflexivity|].
    split; [|split; [|split]]; simpl; eauto.
    rewrite list_lookup_alter_eq, Hob. done.
Qed.

Lemma instrumented_assign_each fuel fs vs : ∀ v s,
  inv fs v s →
  (length fs + 2 ≤ fuel)%nat →
  ∃ s', assign_each fuel (VObj l) k vs s = Ok tt s'
        ∧ inv fs (default v (last vs)) s'.
Proof.
  induction vs as [|v' vs IH]; intros v s HI Hfuel; simpl.
  - by exists s.
  - destruct (instrumented_assign fuel fs v v' s HI Hfuel) as (s1 & E1 & H1).
    destruct (IH v' s1 H1 Hfuel) as (s2 & E2 & H2).
    exists s2. unfold mbind, M_bind. rewrite E1. split; [done|].
    by rewrite default_last_cons.
Qed.

Lemma instrumented_unobserve f f' rest v s :
  inv (f :: f' :: rest) v s →
  ∃ s', Observer_unobserve (VObj l) k (CbUser f) s = Ok tt s'
        ∧ inv (f' :: rest) v s'.
Proof.
  intros (Hob & Hc & (m & Hm & Hl) & Hh).
  eexists. split.
  - unfold Observer_unobserve, Observer_getMap, map_get, Observer_remove. msimp.
    rewrite Hm. msimp. rewrite Hl, Hob. msimp.
    rewrite decide_True by done. msimp. reflexivity.
  - split; [|split; [|split]]; simpl; eauto.
    rewrite list_lookup_alter_eq, Hob. done.
Qed.

(** Removing the last callback defines the kept descriptor again, with the
    cached value in its [value] field. *)
Lemma instrumented_unobserve_last f v s :
  inv [f] v s →
  ∃ s', Observer_unobserve (VObj l) k (CbUser f) s = Ok tt s'
        ∧ heap s' = <[l := <[k := DataProperty v true e true]> o]> h0
        ∧ (observers s' !! k ≫= fun m => m !! l) = None.
Proof.
  intros (Hob & Hc & (m & Hm & Hl) & Hh).
  eexists. split.
  - unfold Observer_unobserve, Observer_getMap, map_get, Observer_remove, Observer_dispose,
      Object_defineProperty, registry_delete. msimp.
    rewrite Hm. msimp. rewrite Hl, Hob. msimp.
    rewrite decide_True by done. msimp.
    rewrite list_lookup_alter_eq, Hob. msimp.
    rewrite Hh, lookup_insert_eq. msimp. rewrite lookup_insert_eq. msimp.
    rewrite Hm. reflexivity.
  - simpl. rewrite !insert_insert_eq, lookup_insert_eq. simpl.
    rewrite lookup_delete_eq. split; [|done].
    by destruct c as [[]|].
Qed.

Lemma instrumented_unobserve_each fs : ∀ v s,
  fs ≠ [] →
  inv fs v s →
  ∃ s', unobserve_each (VObj l) k fs s = Ok tt s'
        ∧ heap s' = <[l := <[k := DataProperty v true e true]> o]> h0.
Proof.
  induction fs as [|f fs IH]; intros v s Hne HI; [done|].
  destruct fs as [|f' rest].
  - destruct (instrumented_unobserve_last f v s HI) as (s1 & E1 & H1 & _).
    exists s1. simpl. unfold mbind, M_bind. by rewrite E1.
  - destruct (instrumented_unobserve f f' rest v s HI) as (s1 & E1 & H1).
    destruct (IH v s1 ltac:(done) H1) as (s2 & E2 & H2).
    exists s2. split; [|done].
    change (unobserve_each (VObj l) k (f :: f' :: rest))
      with (Observer_unobserve (VObj l) k (CbUser f) ;;
            unobserve_each (VObj l) k (f' :: rest)).
    unfold mbind, M_bind. by rewrite E1.
Qed.

End instrumented.

(** ** A registered but not instrumented property *)

Section registered.
Variables (l : nat) (k : string) (n : nat).

Abbreviation reg := (registered l k n).

Lemma registered_observe_each rest : ∀ fs v s,
  reg fs v s →
  ∃ s', observe_each (VObj l) k rest s = Ok tt s'
        ∧ reg (fs ++ rest) v s' ∧ heap s' = heap s.
Proof.
  induction rest as [|f rest IH]; intros fs v s HI; simpl.
  - exists s. by rewrite app_nil_r.
  - destruct HI as (Hob & m & Hm & Hl).
    destruct (IH (fs ++ [f]) v
      (with_observer_store (alter (add_callback (CbUser f)) n (observer_store s)) s))
      as (s2 & E2 & H2 & Hh).
    { split; simpl; [|eauto].
      rewrite list_lookup_alter_eq, Hob. unfold add_callback; simpl.
      by rewrite fmap_app. }
    exists s2. unfold mbind, M_bind.
    rewrite (Observer_observe_again s l k n m _ Hm Hl).
    split; [done|]. by rewrite <- app_assoc in H2.
Qed.

(** Assignments to an accessor property that was left alone run its user
    setter; the heap and the observer are untouched. *)
Lemma registered_assign_each fuel o g c e conf fs v vs : ∀ s,
  reg fs v s →
  heap s !! l = Some o →
  o !! k = Some (AccessorProperty g (Some (SetUser c)) e conf) →
  ∃ s', assign_each fuel (VObj l) k vs s = Ok tt s'
        ∧ reg fs v s' ∧ heap s' = heap s.
Proof.
  induction vs as [|v' vs IH]; intros s HI Hl Hk; simpl.
  - by exists s.
  - destruct (IH (with_cells (<[c := v']> (cells s))
                    (with_trace (trace s ++ [EvSetter c (VObj l) v']) s)))
      as (s2 & E2 & H2 & Hh); [exact HI | exact Hl | exact Hk |].
    exists s2. split; [|done].
    unfold Js_set, own_property, call_setter. msimp. rewrite Hl. msimp.
    rewrite Hk. exact E2.
Qed.

Lemma registered_unobserve_each fs : ∀ v s,
  reg fs v s →
  ∃ s', unobserve_each (VObj l) k fs s = Ok tt s' ∧ heap s' = heap s.
Proof.
  induction fs as [|f fs IH]; intros v s (Hob & m & Hm & Hl); simpl.
  - by exists s.
  - destruct (IH v
      (with_observer_store
         (alter (set_callbacks (CbUser <$> fs)) n (observer_store s)) s))
      as (s2 & E2 & Hh).
    { split; simpl; [|eauto]. by rewrite list_lookup_alter_eq, Hob. }
    exists s2. split; [|done].
    unfold Observer_unobserve, Observer_getMap, map_get, Observer_remove, Observer_dispose.
    unfold with_observer_store, set_callbacks in E2.
    msimp. rewrite Hm. msimp. rewrite Hl, Hob. msimp.
    rewrite decide_True by done. msimp.
    destruct fs as [|f' fs]; msimp.
    + rewrite list_lookup_alter_eq, Hob. msimp. exact E2.
    + exact E2.
Qed.

End registered.

(** ** Restoring the descriptor *)

(** Claim C8, counterexample.  Observing and unobserving a property that the
    object does not have leaves the object with an own property: the round
    trip is not the identity. *)
Lemma round_trip_defines_absent_property :
  own_property empty_object_state (VObj 1) "a" = None
  ∧ (exec (round_trip 3 (VObj 1) "a" [100%nat] []) empty_object_state
       ≫= fun s => own_property s (VObj 1) "a")
    = Some (DataProperty VUndef true true true).
Proof. split; vm_compute; reflexivity. Qed.

(** Claim C8, amended.  Take an object and a property that nobody observes,
    such that observing it does not throw, the name of the property not
    being the name of a member of [Object.prototype].  Register any non-empty list of
    callbacks on it with [Observer.observe], assign it any sequence of values
    (none when the property is read-only), and remove the callbacks again
    with [Observer.unobserve].  The calls all return.  When the property
    existed, the heap is afterwards the original heap except that a data
    property carries the last value assigned: same getter and setter, same
    enumerable, configurable and writable flags, and every other property of
    every object as it was.  When the property did not exist, it is left
    defined as a writable, enumerable, configurable data property holding the
    last value assigned, [undefined] if there was none. *)
Theorem unobserve_restores_descriptor s l o k fs vs fuel :
  heap s !! l = Some o →
  (observers s !! k ≫= fun m => m !! l) = None →
  inherited k = false →
  (0 < length fs)%nat →
  observable (o !! k) = true →
  vs = [] ∨ from_option accepts_assignment true (o !! k) = true →
  (length fs + 2 ≤ fuel)%nat →
  ∃ s', round_trip fuel (VObj l) k fs vs s = Ok tt s'
        ∧ heap s' = <[l := <[k := restored (o !! k) (last vs)]> o]> (heap s).
Proof.
  intros Hl Hreg Hown Hfs Hobs Hvs Hfuel.
  destruct fs as [|f rest]; [simpl in Hfs; lia|]. clear Hfs.
  assert (∀ e x c s1,
    Observer_observe (VObj l) k (CbUser f) s = Ok (length (observer_store s)) s1 →
    instrumented l k (length (observer_store s)) e x c o (heap s) [f] x s1 →
    ∃ s', round_trip fuel (VObj l) k (f :: rest) vs s = Ok tt s'
          ∧ heap s' = <[l := <[k := DataProperty (default x (last vs)) true e true]> o]>
                        (heap s)) as Hinstr.
  { intros e x c s1 E1 H1. unfold round_trip. simpl observe_each.
    destruct (instrumented_observe_each l k _ e x c o (heap s) rest _ _ _ H1)
      as (s2 & E2 & H2).
    destruct (instrumented_assign_each l k _ e x c o (heap s) fuel _ vs _ _ H2)
      as (s3 & E3 & H3); [simpl in *; lia|].
    destruct (instrumented_unobserve_each l k _ e x c o (heap s) (f :: rest) _ _
                ltac:(done) H3) as (s4 & E4 & H4).
    exists s4. split; [|done].
    unfold mbind, M_bind. rewrite E1, E2, E3. exact E4. }
  destruct (o !! k) as [p0|] eqn:Hk.
  - destruct (short_circuits p0) eqn:Hsc.
    + unfold round_trip. simpl observe_each.
      pose proof (Observer_observe_short_circuit s l o k p0 (CbUser f) Hl Hk Hsc Hreg
                    Hown) as E1.
      match type of E1 with _ = Ok _ ?st => set (s1 := st) in * end.
      assert (registered l k (length (observer_store s)) [f] (cached_value p0) s1) as H1.
      { split; simpl.
        - by rewrite lookup_app_r, Nat.sub_diag.
        - eexists. rewrite lookup_insert_eq. split; [done|].
          by rewrite lookup_insert_eq. }
      destruct (registered_observe_each l k _ rest _ _ _ H1) as (s2 & E2 & H2 & Hh2).
      assert (∃ s3, assign_each fuel (VObj l) k vs s2 = Ok tt s3
                    ∧ registered l k (length (observer_store s)) ([f] ++ rest)
                        (cached_value p0) s3
                    ∧ heap s3 = heap s2) as (s3 & E3 & H3 & Hh3).
      { destruct Hvs as [->|Hacc]; [by exists s2|].
        destruct p0 as [v w e c|g [[n|c]|] e conf]; try done.
        + by destruct w.
        + eapply registered_assign_each; [exact H2 | by rewrite Hh2 | exact Hk]. }
      destruct (registered_unobserve_each l k _ _ _ _ H3) as (s4 & E4 & Hh4).
      exists s4. split.
      * unfold mbind, M_bind. rewrite E1, E2, E3. exact E4.
      * rewrite Hh4, Hh3, Hh2. simpl.
        assert (with_value p0 (last vs) = p0) as ->.
        { destruct Hvs as [->|Hacc]; [by destruct p0|].
          destruct p0 as [v [] e c|]; done. }
        by rewrite (insert_id o), (insert_id (heap s)).
    + destruct p0 as [v0 w e c|]; [|done]. simpl in Hsc, Hobs.
      destruct w; [|done]. destruct c; [|done]. clear Hobs Hvs Hsc.
      pose proof (Observer_observe_first s l o k v0 e (CbUser f) Hl Hk Hreg Hown) as E1.
      destruct (Hinstr e v0 (Some true) _ E1) as (s' & E & Hh).
      { split; [|split; [|split]]; simpl.
        - by rewrite lookup_app_r, Nat.sub_diag.
        - done.
        - eexists. rewrite lookup_insert_eq. split; [done|].
          by rewrite lookup_insert_eq.
        - done. }
      exists s'. split; [exact E|]. rewrite Hh. simpl. by destruct (last vs).
  - pose proof (Observer_observe_absent s l o k (CbUser f) Hl Hk Hreg Hown) as E1.
    destruct (Hinstr true VUndef None _ E1) as (s' & E & Hh).
    { split; [|split; [|split]]; simpl.
      - by rewrite lookup_app_r, Nat.sub_diag.
      - done.
      - eexists. rewrite lookup_insert_eq. split; [done|].
        by rewrite lookup_insert_eq.
      - done. }
    exists s'. split; [exact E|]. by rewrite Hh.
Qed.

(** The repository's test: [a] defined writable, not enumerable and
    configurable, observed, assigned 12 and unobserved. *)
Lemma unobserve_restores_descriptor_witness :
  (heap hidden_property_state !! 1%nat = Some hidden_property_object
   ∧ (observers hidden_property_state !! "a" ≫= fun m => m !! 1%nat) = None
   ∧ inherited "a" = false
   ∧ (length [100%nat] + 2 ≤ 3)%nat
   ∧ restored (hidden_property_object !! "a") (last [VNum 12])
     = DataProperty (VNum 12) true false true)
  ∧ ∃ s', round_trip 3 (VObj 1) "a" [100%nat] [VNum 12] hidden_property_state = Ok tt s'
          ∧ heap s' = <[1%nat := <[ "a" := restored (hidden_property_object !! "a")
                                             (last [VNum 12]) ]>
                                   hidden_property_object]>
                        (heap hidden_property_state).
Proof.
  split.
  - split; [reflexivity | split; [reflexivity | split; [reflexivity
      | split; [simpl; lia | reflexivity]]]].
  - apply (unobserve_restores_descriptor hidden_property_state 1
             hidden_property_object "a" [100%nat] [VNum 12] 3).
    + reflexivity.
    + reflexivity.
    + reflexivity.
    + simpl. lia.
    + reflexivity.
    + right. reflexivity.
    + simpl. lia.
Defined.

(** ** Properties that are not configurable *)

(** Claim C6, counterexample.  A property that is neither writable nor
    configurable is observed without an error: the read-only short circuit of
    the constructor comes before any [Object.defineProperty]. *)
Lemma observe_frozen_property_returns :
  raises (observe_frozen_property empty_state) = false
  ∧ result_of (observe_frozen_property empty_state) = Some (inl 0%nat).
Proof. split; vm_compute; reflexivity. Qed.

(** Claim C6, amended.  On a property that is not configurable, that nobody
    observes yet, and whose name is not the name of a member of
    [Object.prototype], [Observer.observe] throws when the property is a
    writable data property, leaving the heap as it was and the registry
    without an entry for the object; when the property is read-only (a data
    property that is not writable, or a getter without a setter) it returns
    an observer that holds the callback and has instrumented nothing, the heap
    again as it was. *)
Theorem Observer_observe_unconfigurable s l o k p cb :
  heap s !! l = Some o →
  o !! k = Some p →
  prop_configurable p = false →
  (observers s !! k ≫= fun m => m !! l) = None →
  inherited k = false →
  read_only p = true ∨ writable_data p = true →
  if read_only p
  then ∃ n s', Observer_observe (VObj l) k cb s = Ok n s'
               ∧ heap s' = heap s
               ∧ observer_store s' !! n
                 = Some (Observer [cb] (cached_value p) None None None)
  else ∃ s', Observer_observe (VObj l) k cb s = Throw TypeError s'
             ∧ heap s' = heap s
             ∧ (observers s' !! k ≫= fun m => m !! l) = None.
Proof.
  intros Hl Hk Hconf Hreg Hown Hshape.
  destruct (read_only p) eqn:Hro.
  - assert (short_circuits p = true) as Hsc by (by destruct p).
    eexists _, _. split; [by eapply Observer_observe_short_circuit|].
    simpl. split; [done|]. by rewrite lookup_app_r, Nat.sub_diag.
  - destruct Hshape as [|Hw]; [done|].
    destruct p as [v w e c|]; [|done]. simpl in *. subst.
    by eapply Observer_observe_throws.
Qed.

(** The repository's test of an unconfigurable writable property, and a
    getter-only property that is not configurable. *)
Lemma Observer_observe_unconfigurable_witness :
  (heap unconfigurable_state !! 1%nat
     = Some {[ "a" := DataProperty VUndef true true false ]}
   ∧ inherited "a" = false
   ∧ prop_configurable (DataProperty VUndef true true false) = false
   ∧ writable_data (DataProperty VUndef true true false) = true
   ∧ ∃ s', Observer_observe (VObj 1) "a" (CbUser 100) unconfigurable_state
             = Throw TypeError s'
           ∧ heap s' = heap unconfigurable_state
           ∧ (observers s' !! "a" ≫= fun m => m !! 1%nat) = None)
  ∧ (heap getter_only_state !! 1%nat
       = Some {[ "a" := AccessorProperty (Some (GetUser 0)) None true false ]}
     ∧ prop_configurable (AccessorProperty (Some (GetUser 0)) None true false) = false
     ∧ read_only (AccessorProperty (Some (GetUser 0)) None true false) = true
     ∧ ∃ n s', Observer_observe (VObj 1) "a" (CbUser 100) getter_only_state = Ok n s'
               ∧ heap s' = heap getter_only_state
               ∧ observer_store s' !! n
                 = Some (Observer [CbUser 100] VUndef None None None)).
Proof.
  split.
  - split; [reflexivity | split; [reflexivity | split; [reflexivity
      | split; [reflexivity |]]]].
    apply (Observer_observe_unconfigurable unconfigurable_state 1
             {[ "a" := DataProperty VUndef true true false ]} "a"
             (DataProperty VUndef true true false) (CbUser 100));
      [reflexivity | reflexivity | reflexivity | reflexivity | reflexivity
      | right; reflexivity].
  - split; [reflexivity | split; [reflexivity | split; [reflexivity |]]].
    apply (Observer_observe_unconfigurable getter_only_state 1
             {[ "a" := AccessorProperty (Some (GetUser 0)) None true false ]} "a"
             (AccessorProperty (Some (GetUser 0)) None true false) (CbUser 100));
      [reflexivity | reflexivity | reflexivity | reflexivity | reflexivity
      | left; reflexivity].
Defined.

(** ** Falsy roots *)

(** Claim C10, counterexample.  [path.unobserve(undefined, f)] returns [false];
    it does not throw. *)
Lemma unobserve_undefined_root_returns :
  raises (unobserve_undefined_root empty_state) = false
  ∧ result_of (unobserve_undefined_root empty_state) = Some (inl false).
Proof. split; vm_compute; reflexivity. Qed.

(** Claim C10, amended.  Given a falsy root, [path.observe] throws its error
    at once, and [path.unobserve] returns [false]; neither changes anything. *)
Theorem Path_falsy_root fuel this root cb s :
  truthy root = false →
  Path_observe fuel this root cb s = Throw (Error "Cannot bind to undefined value") s
  ∧ Path_unobserve fuel this root cb s = Ok false s.
Proof.
  intros Hroot. unfold Path_observe, Path_unobserve. rewrite Hroot. done.
Qed.

(** The five falsy roots at once. *)
Lemma Path_falsy_root_witness :
  Forall (fun root =>
    truthy root = false
    ∧ Path_observe 10 0 root 100 empty_state
      = Throw (Error "Cannot bind to undefined value") empty_state
    ∧ Path_unobserve 10 0 root 100 empty_state = Ok false empty_state)
    [VUndef; VNull; VNum 0; VStr EmptyString; VBool false].
Proof.
  repeat (apply Forall_cons; split;
          [split; [reflexivity | apply Path_falsy_root; reflexivity] |]).
  apply Forall_nil_2.
Defined.

(** ** [Path.change]: the order of the arguments and the comparison *)

Lemma call_path_callbacks_run fs first second : ∀ s,
  call_path_callbacks fs first second s
    = Ok tt (with_trace (trace s ++ path_events fs first second) s).
Proof.
  induction fs as [|f fs IH]; intros s; simpl.
  - by rewrite with_trace_id.
  - msimp. rewrite IH. unfold with_trace; simpl. by rewrite <- app_assoc.
Qed.

(** [path.change(root, v)] on a bound root: nothing happens when [v] is the
    cached value; otherwise every registered callback is called once, in
    order, with [v] first and the cached value second, and [v] is cached. *)
Lemma Path_change_run s this pa root k lk v :
  path_store s !! this = Some pa →
  WeakMap_get (p_observed pa) root = Some k →
  link_store s !! k = Some lk →
  Path_change this root v s =
    if decide (lk_value lk = v) then Ok tt s
    else Ok tt (State (heap s) (cells s) (observers s) (observer_store s)
                  (alter (set_lk_value v) k (link_store s)) (path_store s)
                  (trace s ++ path_events (lk_callbacks lk) v (lk_value lk))).
Proof.
  intros Hpa Hroot Hlk. unfold Path_change.
  unfold mbind at 1. unfold M_bind, the_path. rewrite Hpa, Hroot.
  unfold mbind, M_bind, the_link, mret, M_ret. rewrite Hlk.
  unfold strict_eq. rewrite bool_decide_decide.
  destruct (decide (lk_value lk = v)); simpl; [done|].
  rewrite Hlk, call_path_callbacks_run. reflexivity.
Qed.

(** Claim C4.  [root.a.b.c = 5] on the observed root [{a:{b:{c:7}}}] calls the
    callback once, with the new value 5 as its first argument and the old
    value 7 as its second: [Path.change] calls [callback(value, old)]. *)
Theorem path_callback_gets_new_then_old :
  trace_of ((abc_observed ;; assign_a_b_c (VNum 5)) empty_state)
  = [EvPathCallback 100 (VNum 5) (VNum 7)].
Proof. vm_compute. reflexivity. Qed.

(** ** The scenario with root [{a:{b:{c:7}}}] and path [(a, b, c)] *)

(** Claim C1.  On the scenario itself the counts are as stated:
    [root.a.b = undefined] calls the callback once, [root.a.b = {c:'x'}] calls
    it once, and [root.a = {b:{c:'x'}}] does not call it.  The general
    statement fails: after [b = root.a.b; root.a.b = undefined], the
    assignment [b.c = 8] calls the callback once, although the path resolves
    to [undefined] from the root both before and after it, because the link of
    [c] is still subscribed to the object that left the path. *)
Theorem detached_object_still_notifies :
  (invocations 100 (assign_a_b VUndef) <$> exec abc_observed empty_state = Some 1%nat
   ∧ invocations 100 reform_b <$> broken_with VUndef = Some 1%nat
   ∧ invocations 100 replace_a
       <$> exec (abc_observed ;; assign_a_b VUndef ;; reform_b) empty_state
     = Some 0%nat)
  ∧ result_of (mutate_detached_object empty_state) = Some (inl (VUndef, VUndef))
  ∧ invocations 100 (Js_set 10 (VObj 3) "c" (VNum 8)) <$> broken_with VUndef
    = Some 1%nat.
Proof. repeat split; vm_compute; reflexivity. Qed.

(** ** [Link.change] when the path breaks *)

(** In the branch of [Link.change] for a value that is not an object or a
    function, the only thing that happens is the report to the path. *)
Lemma Link_change_not_attachable fuel k target v s lk o ob :
  link_store s !! k = Some lk →
  lk_observer lk = Some o →
  observer_store s !! o = Some ob →
  ob_value ob ≠ v →
  ref_of v = None →
  Link_change fuel k target v s
  = Path_change (lk_path lk) (lk_root lk)
      (if bool_decide (is_Some (lk_next lk)) && truthy v then VUndef else v) s.
Proof.
  intros Hlk Ho Hob Hne Href. unfold Link_change.
  unfold mbind at 1. unfold M_bind, the_link. rewrite Hlk, Ho.
  unfold mbind at 1. unfold M_bind, Observer_get.
  unfold mbind at 1. unfold M_bind, the_observer. rewrite Hob.
  unfold mret at 1. unfold M_ret, strict_eq.
  rewrite bool_decide_eq_false_2 by done.
  destruct (lk_next lk) as [n|]; simpl.
  - destruct (truthy v) eqn:Hv; simpl.
    + destruct v; try discriminate; reflexivity.
    + reflexivity.
  - reflexivity.
Qed.

(** So a change to [undefined] or to a primitive leaves the heap, the registry,
    every observer and the observer of every link as they were. *)
Lemma Link_change_break_keeps_subscriptions fuel k target v s lk o ob pa first flk :
  link_store s !! k = Some lk →
  lk_observer lk = Some o →
  observer_store s !! o = Some ob →
  ob_value ob ≠ v →
  ref_of v = None →
  path_store s !! lk_path lk = Some pa →
  WeakMap_get (p_observed pa) (lk_root lk) = Some first →
  link_store s !! first = Some flk →
  ∃ s', Link_change fuel k target v s = Ok tt s'
        ∧ heap s' = heap s
        ∧ observers s' = observers s
        ∧ observer_store s' = observer_store s
        ∧ ∀ j, lk_observer <$> link_store s' !! j = lk_observer <$> link_store s !! j.
Proof.
  intros Hlk Ho Hob Hne Href Hpa Hroot Hflk.
  rewrite (Link_change_not_attachable fuel k target v s lk o ob) by done.
  rewrite (Path_change_run s _ pa _ first flk) by done.
  destruct (decide _); eexists; (split; [reflexivity|]); simpl; repeat split; try done.
  intros j. destruct (decide (first = j)) as [->|Hj].
  - rewrite list_lookup_alter_eq. by destruct (link_store s !! j).
  - by rewrite list_lookup_alter_ne.
Qed.

(** Claim C3.  After [root.a.b = 4] (a primitive) as after
    [root.a.b = undefined], the object that used to be [root.a.b] still
    carries the bound accessor on [c], the observer of that property still
    holds the change handler of the third link, and assigning [c] on that
    object calls the path callback. *)
Theorem links_beyond_break_stay_subscribed :
  Forall (fun v =>
    (broken_with v ≫= fun s => own_property s (VObj 3) "c")
      = Some (bound_accessor 2 true)
    ∧ (broken_with v ≫= fun s => ob_callbacks <$> observer_store s !! 2%nat)
      = Some [CbLink 2]
    ∧ invocations 100 (Js_set 10 (VObj 3) "c" (VNum 9)) <$> broken_with v
      = Some 1%nat)
    [VNum 4; VUndef].
Proof.
  repeat (apply Forall_cons; split; [repeat split; vm_compute; reflexivity|]).
  apply Forall_nil_2.
Qed.

(** ** [path.set] *)

(** Without a chain for the root, [path.set] returns [false] and changes
    nothing. *)
Lemma Path_set_unbound fuel s this pa root v silent :
  path_store s !! this = Some pa →
  WeakMap_get (p_observed pa) root = None →
  Path_set fuel this root v silent s = Ok false s.
Proof.
  intros Hpa Hroot. unfold Path_set. msimp. by rewrite Hpa, Hroot.
Qed.

(** A terminal link that was never attached makes [path.set] return [false]. *)
Lemma Path_set_unattached :
  result_of (set_on_unattached_path empty_state) = Some (inl false).
Proof. vm_compute. reflexivity. Qed.

(** Claim C2.  After [root.a.b = undefined] the path is broken, yet
    [path.set(root, 5)] returns [true]: it writes 5 to [c] on the object that
    used to be [root.a.b], and [path.get(root)] is 5 afterwards while the path
    resolves to [undefined] from the root. *)
Theorem Path_set_on_broken_path_succeeds :
  result_of (set_on_broken_path empty_state)
  = Some (inl (true, VNum 5, VUndef, VNum 5)).
Proof. vm_compute. reflexivity. Qed.

(** ** Accessor properties *)

(** After [Observer.observe] on an accessor property with a user setter, an
    assignment calls that setter and nothing else. *)
Lemma accessor_assignment_skips_callbacks fuel s l o k g c e conf cb v :
  heap s !! l = Some o →
  o !! k = Some (AccessorProperty g (Some (SetUser c)) e conf) →
  (observers s !! k ≫= fun m => m !! l) = None →
  inherited k = false →
  ∃ n s1 s2,
    Observer_observe (VObj l) k cb s = Ok n s1
    ∧ Js_set fuel (VObj l) k v s1 = Ok tt s2
    ∧ heap s2 = heap s
    ∧ trace s2 = trace s ++ [EvSetter c (VObj l) v].
Proof.
  intros Hl Hk Hreg Hown.
  eexists _, _, _. split; [by eapply Observer_observe_short_circuit|].
  unfold Js_set, own_property, call_setter. msimp. rewrite Hl. msimp. rewrite Hk.
  split; [reflexivity|]. done.
Qed.

(** Claim C5.  A configurable property with a getter and a setter is not
    instrumented by [Observer.observe]: the descriptor has no [writable]
    field, so the constructor returns early.  The property is the original
    accessor after [observe], and [object.a = 12] runs the original setter
    only; the registered callback is not called. *)
Theorem accessor_with_setter_not_intercepted :
  result_of (observe_accessor_then_assign empty_state)
  = Some (inl (Some (AccessorProperty (Some (GetUser 0)) (Some (SetUser 0)) true true)))
  ∧ trace_of (observe_accessor_then_assign empty_state)
    = [EvSetter 0 (VObj 1) (VNum 12)].
Proof. split; vm_compute; reflexivity. Qed.

(** ** Primitives on the path *)

(** A falsy intermediate value ends the attachment: [observe] returns and the
    value seeded for the root is [undefined]. *)
Lemma attach_falsy_intermediate :
  Forall (fun v =>
    result_of ((observe_a_b v ;; Path_get 0 (VObj 1)) empty_state) = Some (inl VUndef))
    [VUndef; VNull; VNum 0; VStr EmptyString; VBool false].
Proof.
  repeat (apply Forall_cons; split; [vm_compute; reflexivity|]).
  apply Forall_nil_2.
Qed.

(** Claim C7.  When the value of the first segment is a truthy primitive (a
    non-zero number, a non-empty string, [true]), [path.observe] throws a
    TypeError: [Link.attach] tests only the truthiness of the value before it
    attaches the next link to it. *)
Theorem attach_truthy_primitive_throws :
  Forall (fun v => result_of (observe_a_b v empty_state) = Some (inr TypeError))
    [VNum 5; VStr "hi"; VBool true].
Proof.
  repeat (apply Forall_cons; split; [vm_compute; reflexivity|]).
  apply Forall_nil_2.
Qed.

(** ** The cold walk of [path.get] *)

Lemma call_getter_pure g s : ∃ r, call_getter g s = r ∧ state_of r = Some s.
Proof.
  destruct g; simpl; msimp; unfold Observer_get; msimp.
  - destruct (observer_store s !! o); eauto.
  - eauto.
Qed.

Lemma Js_get_pure v k s : state_of (Js_get v k s) = Some s.
Proof.
  assert (∀ p : option property,
    state_of (match p with
              | None => mret VUndef
              | Some (DataProperty v _ _ _) => mret v
              | Some (AccessorProperty (Some g) _ _ _) => call_getter g
              | Some (AccessorProperty None _ _ _) => mret VUndef
              end s) = Some s) as Hp.
  { intros [[? ? ? ?|[g|] ? ? ?]|]; try done.
    by destruct (call_getter_pure g s) as (r & -> & ?). }
  unfold Js_get. destruct v; try done; unfold mbind, M_bind, gets; apply Hp.
Qed.

(** The walk installs nothing and changes no descriptor: it ends in the
    state it started from. *)
Lemma walk_pure parts : ∀ root s, state_of (walk parts root s) = Some s.
Proof.
  induction parts as [|part parts IH]; intros root s; [done|].
  simpl. unfold mbind, M_bind.
  pose proof (Js_get_pure root part s) as H.
  destruct (Js_get root part s) as [v s'|e s'|]; simpl in H; try done.
  injection H as ->. destruct (truthy v); simpl; [apply IH|done].
Qed.

Lemma Path_get_cold_pure s this pa root :
  path_store s !! this = Some pa →
  WeakMap_get (p_observed pa) root = None →
  state_of (Path_get this root s) = Some s.
Proof.
  intros Hpa Hroot. unfold Path_get. msimp. rewrite Hpa, Hroot. apply walk_pure.
Qed.

(** The walk returns a falsy intermediate value itself. *)
Lemma walk_falsy part part' rest root v s :
  Js_get root part s = Ok v s →
  truthy v = false →
  walk (part :: part' :: rest) root s = Ok v s.
Proof.
  intros Hget Hv. simpl. unfold mbind, M_bind. by rewrite Hget, Hv.
Qed.

(** Claim C9.  [new Path('a', 'b').get({a: v})] on an unobserved root returns
    [v] itself when [v] is [0], the empty string, [false] or [null], not
    [undefined]: the loop returns the value it has just read. *)
Theorem cold_get_returns_falsy_intermediate :
  Forall (fun v => result_of (cold_get_a_b v empty_state) = Some (inl v) ∧ v ≠ VUndef)
    [VNum 0; VStr EmptyString; VBool false; VNull].
Proof.
  repeat (apply Forall_cons; split; [split; [vm_compute; reflexivity | discriminate]|]).
  apply Forall_nil_2.
Qed.

(** * Further properties of the library *)

(** ** Operations that call no user code *)

Create HintDb quiet discriminated.

Lemma quiet_ret {A} (a : A) : quiet (mret a).
Proof. intros s. done. Qed.
Lemma quiet_throw {A} e : quiet (@throw A e).
Proof. intros s. done. Qed.
Lemma quiet_out_of_fuel {A} : quiet (@out_of_fuel A).
Proof. intros s. done. Qed.
Lemma quiet_gets {A} (f : state → A) : quiet (gets f).
Proof. intros s. done. Qed.
Lemma quiet_bind {A B} (m : M A) (f : A → M B) :
  quiet m → (∀ a, quiet (f a)) → quiet (m ≫= f).
Proof.
  intros Hm Hf s. specialize (Hm s). unfold mbind, M_bind.
  destruct (m s) as [a s1|e s1|]; simpl in *; try done.
  destruct Hm as [Ht Hc]. specialize (Hf a s1).
  destruct (f a s1); simpl in *; try done; destruct Hf; split; congruence.
Qed.
Lemma quiet_modify (f : state → state) :
  (∀ s, trace (f s) = trace s ∧ cells (f s) = cells s) → quiet (modify f).
Proof. intros H s. apply H. Qed.

Ltac quiet_step :=
  first
    [ apply quiet_ret | apply quiet_throw | apply quiet_out_of_fuel | apply quiet_gets
    | apply quiet_bind; [|intros ?]
    | apply quiet_modify; intros ?; split; reflexivity
    | solve [eauto with quiet]
    | match goal with
      | |- quiet (match ?x with _ => _ end) => destruct x
      | |- quiet (if ?b then _ else _) => destruct b
      | |- quiet (let _ := _ in _) => cbv zeta
      end ].
Ltac quiet_tac := repeat quiet_step.

Lemma quiet_the_observer o : quiet (the_observer o).
Proof. intros s. unfold the_observer. by destruct (_ !! _). Qed.
Lemma quiet_the_link k : quiet (the_link k).
Proof. intros s. unfold the_link. by destruct (_ !! _). Qed.
Lemma quiet_the_path p : quiet (the_path p).
Proof. intros s. unfold the_path. by destruct (_ !! _). Qed.
Lemma quiet_update_observer o f : quiet (update_observer o f).
Proof. unfold update_observer. quiet_tac. Qed.
Lemma quiet_update_link k f : quiet (update_link k f).
Proof. unfold update_link. quiet_tac. Qed.
Lemma quiet_update_path p f : quiet (update_path p f).
Proof. unfold update_path. quiet_tac. Qed.
Lemma quiet_getOwnPropertyDescriptor v k : quiet (Object_getOwnPropertyDescriptor v k).
Proof. intros s. unfold Object_getOwnPropertyDescriptor. by destruct v. Qed.
Lemma quiet_defineProperty v k d : quiet (Object_defineProperty v k d).
Proof.
  intros s. unfold Object_defineProperty.
  destruct (ref_of v); [|done]. destruct (_ && _); [done|].
  by destruct (validate_and_apply _ _).
Qed.
Lemma quiet_getMap k c : quiet (Observer_getMap k c).
Proof.
  intros s. unfold Observer_getMap. destruct (_ !! _); [done|].
  destruct (inherited k); [done|]. by destruct c.
Qed.
Lemma quiet_map_get map t : quiet (map_get map t).
Proof. intros s. unfold map_get. by destruct map as [[]|]. Qed.
Lemma quiet_registry_set k t o : quiet (registry_set k t o).
Proof. intros s. unfold registry_set. by destruct (ref_of t). Qed.
Lemma quiet_registry_delete k t : quiet (registry_delete k t).
Proof.
  intros s. unfold registry_delete. destruct (_ !! _); [|done]. by destruct (ref_of t).
Qed.
#[global] Hint Resolve quiet_the_observer quiet_the_link quiet_the_path
  quiet_update_observer quiet_update_link quiet_update_path
  quiet_getOwnPropertyDescriptor quiet_defineProperty quiet_getMap quiet_map_get
  quiet_registry_set quiet_registry_delete : quiet.

Lemma quiet_Observer_new t k : quiet (Observer_new t k).
Proof. unfold Observer_new. quiet_tac. Qed.
Lemma quiet_Observer_add o cb : quiet (Observer_add o cb).
Proof. unfold Observer_add. quiet_tac. Qed.
Lemma quiet_Observer_get o : quiet (Observer_get o).
Proof. unfold Observer_get. quiet_tac. Qed.
#[global] Hint Resolve quiet_Observer_new quiet_Observer_add quiet_Observer_get : quiet.
Lemma quiet_Observer_observe t k cb : quiet (Observer_observe t k cb).
Proof. unfold Observer_observe. quiet_tac. Qed.
Lemma quiet_Observer_dispose o : quiet (Observer_dispose o).
Proof. unfold Observer_dispose. quiet_tac. Qed.
#[global] Hint Resolve quiet_Observer_observe quiet_Observer_dispose : quiet.
Lemma quiet_Observer_remove o cb : quiet (Observer_remove o cb).
Proof. unfold Observer_remove. quiet_tac. Qed.
#[global] Hint Resolve quiet_Observer_remove : quiet.
Lemma quiet_Observer_unobserve t k cb : quiet (Observer_unobserve t k cb).
Proof. unfold Observer_unobserve. quiet_tac. Qed.
#[global] Hint Resolve quiet_Observer_unobserve : quiet.

Lemma quiet_Link_setLast fuel : ∀ k, quiet (Link_setLast fuel k).
Proof. induction fuel as [|fuel IH]; intros k; simpl; quiet_tac. Qed.
#[global] Hint Resolve quiet_Link_setLast : quiet.
Lemma quiet_Link_new fuel p rest : ∀ part root chained,
  quiet (Link_new fuel p part rest root chained).
Proof. induction rest as [|part' rest IH]; intros part root chained; simpl; quiet_tac. Qed.
Lemma quiet_Link_detach fuel : ∀ k, quiet (Link_detach fuel k).
Proof. induction fuel as [|fuel IH]; intros k; simpl; quiet_tac. Qed.
#[global] Hint Resolve quiet_Link_new quiet_Link_detach : quiet.
Lemma quiet_Link_attach fuel : ∀ k t, quiet (Link_attach fuel k t).
Proof. induction fuel as [|fuel IH]; intros k t; simpl; quiet_tac. Qed.
#[global] Hint Resolve quiet_Link_attach : quiet.
Lemma quiet_observed_set p r k : quiet (observed_set p r k).
Proof. unfold observed_set. quiet_tac. Qed.
Lemma quiet_observed_delete p r : quiet (observed_delete p r).
Proof. unfold observed_delete. quiet_tac. Qed.
#[global] Hint Resolve quiet_observed_set quiet_observed_delete : quiet.

(** Registering and removing callbacks never runs user code: whatever the
    arguments and the state, and whether the call returns or throws,
    [path.observe], [path.unobserve], [Observer.observe] and
    [Observer.unobserve] call no callback and no user setter. *)
Theorem observing_calls_no_user_code fuel this root f object k cb :
  quiet (Path_observe fuel this root f)
  ∧ quiet (Path_unobserve fuel this root f)
  ∧ quiet (Observer_observe object k cb)
  ∧ quiet (Observer_unobserve object k cb).
Proof.
  repeat split; [unfold Path_observe | unfold Path_unobserve | |]; quiet_tac.
Qed.

(** ** Observing one property with several callbacks *)

Lemma index_of_fmap_CbUser f fs :
  index_of (CbUser f) (CbUser <$> fs) = index_of f fs.
Proof.
  induction fs as [|g fs IH]; [done|]. rewrite fmap_cons. cbn [index_of].
  destruct (decide (g = f)) as [->|Hne].
  - by rewrite decide_True.
  - rewrite decide_False by congruence. by rewrite IH.
Qed.

Lemma quiet_observe_each object k fs : quiet (observe_each object k fs).
Proof. induction fs; simpl; quiet_tac. Qed.

(** What a quiet computation that returns leaves of the trace. *)
Lemma quiet_Ok {A} (m : M A) s a s' :
  quiet m → m s = Ok a s' → trace s' = trace s ∧ cells s' = cells s.
Proof. intros Hq E. specialize (Hq s). by rewrite E in Hq. Qed.

Section observed_property.
Variables (s : state) (l : nat) (o : gmap string property) (k : string) (v0 : value).
Hypothesis Hl : heap s !! l = Some o.
Hypothesis Hk : initial_value (o !! k) = Some v0.
Hypothesis Hreg : (observers s !! k ≫= fun m => m !! l) = None.
Hypothesis Hown : inherited k = false.

Abbreviation n := (length (observer_store s)).
Abbreviation inv :=
  (instrumented l k n (initial_enumerable (o !! k)) v0 (kept_configurable (o !! k))
     o (heap s)).

Lemma observe_instruments f :
  ∃ s1, Observer_observe (VObj l) k (CbUser f) s = Ok n s1 ∧ inv [f] v0 s1.
Proof.
  destruct (o !! k) as [p|] eqn:Hp.
  - destruct p as [v [] e []|]; try discriminate. simpl in Hk. injection Hk as ->.
    eexists. split; [by apply (Observer_observe_first s l o k v0 e)|].
    split; [|split; [|split]]; simpl.
    + by rewrite lookup_app_r, Nat.sub_diag.
    + done.
    + eexists. rewrite lookup_insert_eq. split; [done|]. by rewrite lookup_insert_eq.
    + done.
  - simpl in Hk. injection Hk as <-.
    eexists. split; [by apply (Observer_observe_absent s l o k)|].
    split; [|split; [|split]]; simpl.
    + by rewrite lookup_app_r, Nat.sub_diag.
    + done.
    + eexists. rewrite lookup_insert_eq. split; [done|]. by rewrite lookup_insert_eq.
    + done.
Qed.

Lemma observe_each_instruments fs :
  (0 < length fs)%nat →
  ∃ s1, observe_each (VObj l) k fs s = Ok tt s1 ∧ inv fs v0 s1 ∧ trace s1 = trace s.
Proof.
  destruct fs as [|f rest]; [simpl; lia|]. intros _.
  destruct (observe_instruments f) as (s1 & E1 & H1).
  destruct (instrumented_observe_each l k n _ v0 _ o (heap s) rest _ _ _ H1)
    as (s2 & E2 & H2).
  assert (observe_each (VObj l) k (f :: rest) s = Ok tt s2) as E.
  { simpl. unfold mbind, M_bind. by rewrite E1. }
  exists s2. split; [exact E|]. split; [exact H2|].
  by destruct (quiet_Ok _ _ _ _ (quiet_observe_each _ _ _) E).
Qed.
End observed_property.

Section instrumented_more.
Variables (l : nat) (k : string) (n : nat) (e : bool) (x : value) (c : option bool).
Variables (o : gmap string property) (h0 : gmap nat (gmap string property)).
Abbreviation inv' := (instrumented l k n e x c o h0).

(** Reading an instrumented property returns the cached value. *)
Lemma instrumented_read fs v s : inv' fs v s → Js_get (VObj l) k s = Ok v s.
Proof.
  intros (Hob & Hc & (m & Hm & Hl) & Hh).
  unfold Js_get, own_property, call_getter, Observer_get. msimp.
  rewrite Hh, lookup_insert_eq. msimp. rewrite lookup_insert_eq. msimp.
  by rewrite Hob.
Qed.

(** An assignment to an instrumented property: the events it adds. *)
Lemma instrumented_assign_events fuel fs v v' s :
  inv' fs v s →
  (length fs + 2 ≤ fuel)%nat →
  ∃ s', Js_set fuel (VObj l) k v' s = Ok tt s' ∧ inv' fs v' s'
        ∧ trace s' = trace s ++ (if decide (v = v') then []
                                 else call_events fs (VObj l) v')
        ∧ (v = v' → s' = s).
Proof.
  intros (Hob & Hc & (m & Hm & Hl) & Hh) Hfuel.
  unfold Js_set, own_property. msimp. rewrite Hh, lookup_insert_eq. simpl.
  rewrite lookup_insert_eq. unfold bound_accessor, call_setter.
  erewrite Observer_set_user; [| exact Hob | done | done | lia].
  destruct (decide (v = v')) as [->|Hne].
  - exists s. split; [done|]. rewrite app_nil_r. repeat split; eauto.
  - eexists. split; [reflexivity|].
    split; [|split; [done|done]].
    split; [|split; [|split]]; simpl; eauto.
    rewrite list_lookup_alter_eq, Hob. done.
Qed.

(** Removing the callback at any position while others remain. *)
Lemma instrumented_unobserve_at fs f i v s :
  inv' fs v s →
  index_of f fs = Some i →
  (1 < length fs)%nat →
  ∃ s', Observer_unobserve (VObj l) k (CbUser f) s = Ok tt s'
        ∧ inv' (delete i fs) v s' ∧ trace s' = trace s.
Proof.
  intros (Hob & Hc & (m & Hm & Hl) & Hh) Hi Hlen.
  assert (delete i (CbUser <$> fs) ≠ []) as Hne.
  { intros Heq. apply (f_equal length) in Heq. rewrite <- list_fmap_delete in Heq.
    rewrite length_fmap in Heq. 
    assert (i < length fs)%nat.
    { clear -Hi. revert i Hi. induction fs as [|g fs IH]; intros i Hi; [done|].
      simpl in Hi. destruct (decide (g = f)); [injection Hi as <-; simpl; lia|].
      destruct (index_of f fs) as [j|]; [|done]. injection Hi as <-.
      specialize (IH j eq_refl). simpl. lia. }
    rewrite length_delete in Heq by (by apply lookup_lt_is_Some_2).
    simpl in Heq. lia. }
  eexists. split; [|split].
  - unfold Observer_unobserve, Observer_getMap, map_get, Observer_remove. msimp.
    rewrite Hm. msimp. rewrite Hl, Hob. msimp.
    rewrite index_of_fmap_CbUser, Hi. msimp.
    rewrite bool_decide_eq_false_2 by done. msimp. reflexivity.
  - split; [|split; [|split]]; simpl; eauto.
    rewrite list_lookup_alter_eq, Hob. simpl. by rewrite list_fmap_delete.
  - done.
Qed.

End instrumented_more.

(** Observing a property that nobody observes yet, that is absent or a
    writable, configurable data property, and whose name is not the name of
    a member of [Object.prototype], keeps its value readable; an assignment of another value calls
    every registered callback once, in registration order, with the object
    and the new value, and the property reads as the new value afterwards.
    An assignment of the value the property already has changes nothing. *)
Theorem callbacks_run_in_registration_order s l o k v0 fs v fuel :
  heap s !! l = Some o →
  initial_value (o !! k) = Some v0 →
  (observers s !! k ≫= fun m => m !! l) = None →
  inherited k = false →
  (0 < length fs)%nat →
  (length fs + 2 ≤ fuel)%nat →
  ∃ s1 s2,
    observe_each (VObj l) k fs s = Ok tt s1
    ∧ Js_get (VObj l) k s1 = Ok v0 s1
    ∧ Js_set fuel (VObj l) k v s1 = Ok tt s2
    ∧ trace s2 = trace s ++ (if decide (v = v0) then [] else call_events fs (VObj l) v)
    ∧ Js_get (VObj l) k s2 = Ok v s2
    ∧ (v = v0 → s2 = s1).
Proof.
  intros Hl Hk Hreg Hown Hfs Hfuel.
  destruct (observe_each_instruments s l o k v0 Hl Hk Hreg Hown fs Hfs) as (s1 & E1 & H1 & T1).
  destruct (instrumented_assign_events _ _ _ _ _ _ _ _ fuel fs v0 v s1 H1 Hfuel)
    as (s2 & E2 & H2 & T2 & Hid).
  exists s1, s2. split; [exact E1|].
  split; [by eapply instrumented_read|].
  split; [exact E2|].
  split; [|split; [by eapply instrumented_read|]].
  - rewrite T2, T1. by destruct (decide (v0 = v)), (decide (v = v0)).
  - intros ->. by apply Hid.
Qed.

Lemma callbacks_run_in_registration_order_witness :
  (heap hidden_property_state !! 1%nat = Some hidden_property_object
   ∧ initial_value (hidden_property_object !! "a") = Some VUndef
   ∧ (observers hidden_property_state !! "a" ≫= fun m => m !! 1%nat) = None
   ∧ inherited "a" = false)
  ∧ ∃ s1 s2,
    observe_each (VObj 1) "a" [7; 8; 7]%nat hidden_property_state = Ok tt s1
    ∧ Js_get (VObj 1) "a" s1 = Ok VUndef s1
    ∧ Js_set 5 (VObj 1) "a" (VNum 12) s1 = Ok tt s2
    ∧ trace s2 = trace hidden_property_state
                 ++ (if decide (VNum 12 = VUndef) then []
                     else call_events [7; 8; 7]%nat (VObj 1) (VNum 12))
    ∧ Js_get (VObj 1) "a" s2 = Ok (VNum 12) s2
    ∧ (VNum 12 = VUndef → s2 = s1).
Proof.
  split; [repeat split; reflexivity|].
  apply (callbacks_run_in_registration_order hidden_property_state 1
           hidden_property_object "a" VUndef [7; 8; 7]%nat (VNum 12) 5);
    [reflexivity | reflexivity | reflexivity | reflexivity | simpl; lia | simpl; lia].
Defined.

(** Removing one callback of several leaves the others registered: the
    next assignment calls them, in their order, and not the removed one (its
    first registration, when it was registered more than once).  The
    property is one that nobody observes yet, absent or a writable,
    configurable data property, its name not the name of a member of
    [Object.prototype]. *)
Theorem unobserve_one_keeps_the_others s l o k v0 fs f i v fuel :
  heap s !! l = Some o →
  initial_value (o !! k) = Some v0 →
  (observers s !! k ≫= fun m => m !! l) = None →
  inherited k = false →
  index_of f fs = Some i →
  (1 < length fs)%nat →
  v ≠ v0 →
  (length fs + 2 ≤ fuel)%nat →
  ∃ s',
    (observe_each (VObj l) k fs ;;
     Observer_unobserve (VObj l) k (CbUser f) ;;
     Js_set fuel (VObj l) k v) s = Ok tt s'
    ∧ trace s' = trace s ++ call_events (delete i fs) (VObj l) v.
Proof.
  intros Hl Hk Hreg Hown Hi Hlen Hne Hfuel.
  destruct (observe_each_instruments s l o k v0 Hl Hk Hreg Hown fs ltac:(lia))
    as (s1 & E1 & H1 & T1).
  destruct (instrumented_unobserve_at _ _ _ _ _ _ _ _ fs f i v0 s1 H1 Hi Hlen)
    as (s2 & E2 & H2 & T2).
  destruct (instrumented_assign_events _ _ _ _ _ _ _ _ fuel _ v0 v s2 H2)
    as (s3 & E3 & H3 & T3 & _).
  { assert (length (delete i fs) ≤ length fs)%nat; [|lia].
    rewrite delete_take_drop, length_app, length_take, length_drop. lia. }
  exists s3. split.
  - unfold mbind, M_bind. rewrite E1, E2. exact E3.
  - rewrite T3, T2, T1. by rewrite decide_False by congruence.
Qed.

Lemma unobserve_one_keeps_the_others_witness :
  (heap hidden_property_state !! 1%nat = Some hidden_property_object
   ∧ initial_value (hidden_property_object !! "a") = Some VUndef
   ∧ (observers hidden_property_state !! "a" ≫= fun m => m !! 1%nat) = None
   ∧ inherited "a" = false
   ∧ index_of 8%nat [7; 8; 9]%nat = Some 1%nat)
  ∧ ∃ s',
    (observe_each (VObj 1) "a" [7; 8; 9]%nat ;;
     Observer_unobserve (VObj 1) "a" (CbUser 8) ;;
     Js_set 5 (VObj 1) "a" (VStr "test")) hidden_property_state = Ok tt s'
    ∧ trace s' = trace hidden_property_state
                 ++ call_events (delete 1%nat [7; 8; 9]%nat) (VObj 1) (VStr "test").
Proof.
  split; [repeat split; reflexivity|].
  apply (unobserve_one_keeps_the_others hidden_property_state 1
           hidden_property_object "a" VUndef [7; 8; 9]%nat 8%nat 1%nat (VStr "test") 5);
    [reflexivity | reflexivity | reflexivity | reflexivity | reflexivity | simpl; lia
    | discriminate | simpl; lia].
Defined.



(** ** Targets that are not objects *)

(** [Observer.observe] on a target that is not an object ([undefined],
    [null], a number, a string or a boolean) throws a TypeError; no
    descriptor changes and the registry has the entries it had. *)
Theorem Observer_observe_non_object target k cb s :
  ref_of target = None →
  ∃ s', Observer_observe target k cb s = Throw TypeError s'
        ∧ heap s' = heap s
        ∧ ∀ j l, (observers s' !! j ≫= fun m => m !! l)
                 = (observers s !! j ≫= fun m => m !! l).
Proof.
  intros Href.
  assert (∀ j l, (<[k := ∅]> (observers s) !! j ≫= fun m : gmap nat nat => m !! l)
                 = (observers s !! j ≫= fun m => m !! l)
                 ∨ is_Some (observers s !! k)) as Hempty.
  { intros j l. destruct (observers s !! k) eqn:Hk; [right; eauto|left].
    destruct (decide (k = j)) as [<-|Hne].
    - by rewrite lookup_insert_eq, Hk.
    - by rewrite lookup_insert_ne. }
  unfold Observer_observe, Observer_getMap, map_get, Observer_new, Observer_add,
    Object_getOwnPropertyDescriptor, Object_defineProperty, registry_set.
  destruct target as [| |b|z|str|l|l]; try discriminate; msimp;
    (destruct (observers s !! k) as [m|] eqn:Hk; [|destruct (inherited k)]); msimp;
    try (destruct (string_own_property str k) as [[v [] e c|g st e c]|]; msimp);
    (eexists; split; [reflexivity|]; split; [done|]); simpl; intros j l';
    try done; by destruct (Hempty j l') as [?|[? ?]].
Qed.

Lemma Observer_observe_non_object_witness :
  Forall (fun target =>
    ref_of target = None
    ∧ ∃ s', Observer_observe target "length" (CbUser 1) empty_state = Throw TypeError s'
            ∧ heap s' = heap empty_state
            ∧ ∀ j l, (observers s' !! j ≫= fun m => m !! l)
                     = (observers empty_state !! j ≫= fun m => m !! l))
    [VUndef; VNull; VNum 0; VNum 5; VStr "hi"; VBool true].
Proof.
  repeat (apply Forall_cons; split;
          [split; [reflexivity | apply Observer_observe_non_object; reflexivity] |]).
  apply Forall_nil_2.
Defined.

(** ** Instrumenting a property, and running the monad *)

(** [Observer.observe] on a property that it instruments, with any callback. *)
Lemma Observer_observe_fresh s l o k v0 cb :
  heap s !! l = Some o →
  initial_value (o !! k) = Some v0 →
  (observers s !! k ≫= fun m => m !! l) = None →
  inherited k = false →
  Observer_observe (VObj l) k cb s =
    Ok (length (observer_store s))
      (State (<[l := <[k := bound_accessor (length (observer_store s))
                             (initial_enumerable (o !! k))]> o]> (heap s))
         (cells s)
         (<[k := <[l := length (observer_store s)]> (default ∅ (observers s !! k))]>
            (observers s))
         (observer_store s ++
            [Observer [cb] v0 (Some (VObj l)) (Some k)
               (Some (kept_definition v0 (initial_enumerable (o !! k))
                        (kept_configurable (o !! k))))])
         (link_store s) (path_store s) (trace s)).
Proof.
  intros Hl Hk Hreg Hown. destruct (o !! k) as [p|] eqn:Hp.
  - destruct p as [v [] e []|]; try discriminate. simpl in Hk. injection Hk as ->.
    by rewrite (Observer_observe_first s l o k v0 e).
  - simpl in Hk. injection Hk as <-. by rewrite (Observer_observe_absent s l o k).
Qed.

Lemma lookup_snoc {A} (xs : list A) (x : A) : (xs ++ [x]) !! length xs = Some x.
Proof. by rewrite lookup_app_r, Nat.sub_diag. Qed.

Lemma bind_run {A B} (m : M A) (f : A → M B) s :
  (m ≫= f) s = match m s with
               | Ok a s' => f a s'
               | Throw e s' => Throw e s'
               | OutOfFuel => OutOfFuel
               end.
Proof. reflexivity. Qed.

Ltac mrun :=
  repeat (unfold Observer_get, observed_set, observed_delete, set_lk_callbacks,
            set_lk_value, set_lk_observer, set_lk_root, set_lk_last, set_lk_next;
          msimp;
          first [ rewrite lookup_empty | rewrite lookup_insert_eq
                | rewrite alter_snoc | rewrite lookup_snoc
                | rewrite list_lookup_alter_eq
                | rewrite insert_insert_eq
                | match goal with H : ?x = _ |- context [?x] => rewrite H end ]);
  unfold Observer_get, observed_set, observed_delete, set_lk_callbacks,
    set_lk_value, set_lk_observer, set_lk_root, set_lk_last, set_lk_next;
  msimp.

(** The change handler of a last link reports the new value as it is. *)
Lemma Link_change_terminal fuel k target v s lk o ob :
  link_store s !! k = Some lk →
  lk_observer lk = Some o →
  lk_next lk = None →
  observer_store s !! o = Some ob →
  ob_value ob ≠ v →
  Link_change fuel k target v s = Path_change (lk_path lk) (lk_root lk) v s.
Proof.
  intros Hlk Ho Hnext Hob Hne. unfold Link_change, strict_eq. 
  rewrite bind_run. unfold the_link. rewrite Hlk, Ho.
  rewrite bind_run. unfold Observer_get. rewrite bind_run. unfold the_observer.
  rewrite Hob. unfold mret at 1. unfold M_ret.
  rewrite bool_decide_eq_false_2 by done. by rewrite Hnext.
Qed.

(** ** The chain of links *)

Lemma length_chain path parts : ∀ base root last,
  length (chain path base parts root last) = length parts.
Proof. induction parts as [|p ps IH]; intros; simpl; [done|]. by rewrite IH. Qed.

Lemma alter_middle {A} (f : A → A) (l1 l2 : list A) (x : A) :
  alter f (length l1) (l1 ++ x :: l2) = l1 ++ f x :: l2.
Proof. induction l1 as [|y l1 IH]; simpl; [done|]. f_equal. exact IH. Qed.

Lemma lookup_middle' {A} (l1 l2 : list A) (x : A) :
  (l1 ++ x :: l2) !! length l1 = Some x.
Proof. by rewrite list_lookup_middle. Qed.

(** The constructor of a chained link allocates the links of the remaining
    parts after it. *)
Lemma Link_new_chained fuel path root rest : ∀ part s,
  Link_new fuel path part rest root true s
  = Ok (length (link_store s))
      (with_link_store
         (link_store s ++ chain path (length (link_store s)) (part :: rest) root None) s).
Proof.
  induction rest as [|part' rest IH]; intros part s.
  - unfold Link_new, set_lk_root. mgo. reflexivity.
  - cbn [Link_new]. rewrite bind_run. unfold gets at 1. cbv beta.
    rewrite bind_run. unfold modify at 1. cbv beta.
    rewrite !bind_run, IH. msimp. unfold set_lk_next, set_lk_root. simpl.
    rewrite length_app. simpl. rewrite Nat.add_1_r.
    rewrite <- !app_assoc. simpl. rewrite !alter_middle. reflexivity.
Qed.

(** [setLast] on a chain stores the index of its last link in every link. *)
Lemma Link_setLast_chain path root parts : ∀ ls fuel s,
  (0 < length parts)%nat →
  (length parts ≤ fuel)%nat →
  Link_setLast fuel (length ls)
    (with_link_store (ls ++ chain path (length ls) parts root None) s)
  = Ok (length ls + length parts - 1)%nat
      (with_link_store
         (ls ++ chain path (length ls) parts root
                  (Some (length ls + length parts - 1)%nat)) s).
Proof.
  induction parts as [|part [|part' rest] IH]; intros ls fuel s Hlen Hfuel;
    [simpl in Hlen; lia | |].
  - destruct fuel as [|fuel]; [simpl in Hfuel; lia|].
    cbn [Link_setLast chain]. msimp. rewrite lookup_middle'. simpl.
    rewrite alter_middle. simpl.
    replace (length ls + 1 - 1)%nat with (length ls) by lia. reflexivity.
  - destruct fuel as [|fuel]; [simpl in Hfuel; lia|].
    set (link1 := Link path part (Some (S (length ls))) root None None [] VUndef).
    assert (∀ last, ls ++ chain path (length ls) (part :: part' :: rest) root last
            = (ls ++ [Link path part (Some (S (length ls))) root None last [] VUndef])
              ++ chain path (length (ls ++ [link1])) (part' :: rest) root last) as Hsplit.
    { intros last. rewrite length_app, <- app_assoc. simpl. by rewrite Nat.add_1_r. }
    specialize (IH (ls ++ [link1]) fuel s ltac:(simpl; lia) ltac:(simpl in *; lia)).
    rewrite length_app in IH. cbn [length] in IH.
    rewrite !Hsplit. fold link1.
    cbn [Link_setLast]. rewrite bind_run.
    unfold the_link at 1. unfold with_link_store at 1. cbn [link_store].
    rewrite lookup_app_l by (rewrite length_app; simpl; lia).
    rewrite lookup_snoc. cbn [lk_next link1].
    rewrite bind_run.
    rewrite length_app in *. cbn [length] in *. rewrite Nat.add_1_r in *.
    assert (S (length ls) + S (length rest) - 1
            = length ls + S (S (length rest)) - 1)%nat as Hlast by lia.
    rewrite Hlast in IH.
    remember (length ls + S (S (length rest)) - 1)%nat as last.
    rewrite IH. clear IH Hsplit Hlast. subst link1.
    msimp. rewrite <- !app_assoc. simpl. rewrite alter_middle. reflexivity.
Qed.

Lemma Link_new_unchained fuel path root part rest s :
  Link_new fuel path part rest root false s
  = match Link_new fuel path part rest root true s with
    | Ok this s1 => (Link_setLast fuel this ;; mret this) s1
    | Throw e s1 => Throw e s1
    | OutOfFuel => OutOfFuel
    end.
Proof.
  destruct rest as [|part' rest]; cbn [Link_new];
    unfold mbind, M_bind, mret, M_ret, gets, modify;
    repeat (case_match; simplify_eq; try done).
Qed.

(** [new FirstLink(root)] allocates one link for each part of the path, in
    order; every link knows the last one. *)
Lemma Link_new_chain fuel path root part rest s :
  (length rest < fuel)%nat →
  Link_new fuel path part rest root false s
  = Ok (length (link_store s))
      (with_link_store
         (link_store s
          ++ chain path (length (link_store s)) (part :: rest) root
               (Some (length (link_store s) + length rest)%nat)) s).
Proof.
  intros Hfuel.
  rewrite Link_new_unchained, Link_new_chained, bind_run.
  rewrite (Link_setLast_chain path root (part :: rest) (link_store s) fuel s)
    by (simpl; lia).
  replace (length (link_store s) + length (part :: rest) - 1)%nat
    with (length (link_store s) + length rest)%nat by (simpl; lia).
  reflexivity.
Qed.

Lemma chain_lookup path root last parts : ∀ base i p,
  parts !! i = Some p →
  chain path base parts root last !! i
  = Some (Link path p (if decide (S i = length parts) then None else Some (base + S i)%nat)
            root None last [] VUndef).
Proof.
  induction parts as [|part rest IH]; intros base i p Hi; [done|].
  destruct i as [|i]; cbn [chain].
  - injection Hi as ->. cbn [lookup list_lookup]. do 2 f_equal.
    destruct rest; cbn [length].
    + by rewrite decide_True.
    + rewrite decide_False by lia. f_equal. lia.
  - cbn [lookup list_lookup]. change (chain path (S base) rest root last !! i = Some
      (Link path p (if decide (S (S i) = length (part :: rest)) then None
                    else Some (base + S (S i))%nat) root None last [] VUndef)).
    rewrite (IH (S base) i p Hi). do 2 f_equal. cbn [length].
    destruct (decide (S i = length rest)).
    + by rewrite decide_True by lia.
    + rewrite decide_False by lia. f_equal. lia.
Qed.

(** Constructing the first link of a path constructs the whole chain: one
    link for each part, in the order of the parts; every link carries the
    path and the root, and points to the link of the next part and to the
    last link of the chain; no link is attached yet. *)
Theorem first_link_builds_the_chain fuel path root part rest s :
  (length rest < fuel)%nat →
  ∃ links,
    Link_new fuel path part rest root false s
    = Ok (length (link_store s)) (with_link_store (link_store s ++ links) s)
    ∧ length links = S (length rest)
    ∧ ∀ i p, (part :: rest) !! i = Some p →
        links !! i
        = Some (Link path p
                  (if decide (i = length rest) then None
                   else Some (length (link_store s) + S i)%nat)
                  root None (Some (length (link_store s) + length rest)%nat) [] VUndef).
Proof.
  intros Hfuel. eexists. split; [by apply Link_new_chain|].
  split; [by rewrite length_chain|].
  intros i p Hi. rewrite (chain_lookup _ _ _ _ _ _ _ Hi). do 2 f_equal.
  cbn [length]. destruct (decide (i = length rest)).
  - by rewrite decide_True by lia.
  - by rewrite decide_False by lia.
Qed.

Lemma first_link_builds_the_chain_witness :
  ∃ links,
    Link_new 3 0 "a" ["b"; "c"] (VObj 1) false empty_state
    = Ok (length (link_store empty_state))
        (with_link_store (link_store empty_state ++ links) empty_state)
    ∧ length links = S (length ["b"; "c"])
    ∧ ∀ i p, ("a" :: ["b"; "c"]) !! i = Some p →
        links !! i
        = Some (Link 0 p
                  (if decide (i = length ["b"; "c"]) then None
                   else Some (length (link_store empty_state) + S i)%nat)
                  (VObj 1) None
                  (Some (length (link_store empty_state) + length ["b"; "c"])%nat)
                  [] VUndef).
Proof.
  apply (first_link_builds_the_chain 3 0 (VObj 1) "a" ["b"; "c"] empty_state).
  simpl. lia.
Defined.

(** ** Paths along nested objects *)

Lemma registry_insert (obs : gmap string (gmap nat nat)) (k : string) (l n : nat)
    (k' : string) (l' : nat) :
  (<[k := <[l := n]> (default ∅ (obs !! k))]> obs !! k' ≫= fun m : gmap nat nat => m !! l')
  = if decide (k' = k ∧ l' = l) then Some n else obs !! k' ≫= fun m => m !! l'.
Proof.
  destruct (decide (k' = k)) as [->|Hk].
  - rewrite lookup_insert_eq. simpl. destruct (decide (l' = l)) as [->|Hl].
    + rewrite decide_True by done. by rewrite lookup_insert_eq.
    + rewrite decide_False by (intros [? ?]; congruence). rewrite lookup_insert_ne by done.
      destruct (obs !! k); [done|]. simpl. by rewrite lookup_empty.
  - rewrite decide_False by (intros [? ?]; congruence). by rewrite lookup_insert_ne.
Qed.

Lemma registry_delete_lookup (obs : gmap string (gmap nat nat)) (k : string) (l : nat)
    (m : gmap nat nat) (k' : string) (l' : nat) :
  obs !! k = Some m →
  (<[k := delete l m]> obs !! k' ≫= fun m : gmap nat nat => m !! l')
  = if decide (k' = k ∧ l' = l) then None else obs !! k' ≫= fun m => m !! l'.
Proof.
  intros Hm. destruct (decide (k' = k)) as [->|Hk].
  - rewrite lookup_insert_eq. simpl. destruct (decide (l' = l)) as [->|Hl].
    + rewrite decide_True by done. by rewrite lookup_delete_eq.
    + rewrite decide_False by (intros [? ?]; congruence). rewrite lookup_delete_ne by done.
      by rewrite Hm.
  - rewrite decide_False by (intros [? ?]; congruence). by rewrite lookup_insert_ne.
Qed.

Lemma alter_as_insert {A} (f : A → A) (l : list A) (n : nat) (x : A) :
  l !! n = Some x → alter f n l = <[n := f x]> l.
Proof.
  revert n. induction l as [|y l IH]; intros [|n] H; try done.
  - injection H as ->. done.
  - simpl in *. f_equal. by apply IH.
Qed.

(** Removing the only callback of an observer that instruments a property:
    the kept descriptor is defined again with the cached value, and the
    registry loses the entry. *)
Lemma Observer_remove_last s n cb val l part x e c o n' e' m :
  observer_store s !! n
  = Some (Observer [cb] val (Some (VObj l)) (Some part) (Some (kept_definition x e c))) →
  c ≠ Some false →
  heap s !! l = Some o →
  o !! part = Some (bound_accessor n' e') →
  observers s !! part = Some m →
  Observer_remove n cb s
  = Ok true
      (State (<[l := <[part := DataProperty val true e true]> o]> (heap s)) (cells s)
         (<[part := delete l m]> (observers s))
         (<[n := Observer [] val (Some (VObj l)) (Some part)
                   (Some (kept_definition val e c))]> (observer_store s))
         (link_store s) (path_store s) (trace s)).
Proof.
  intros Hob Hc Hl Hp Hm.
  unfold Observer_remove. mrun.
  destruct (decide (cb = cb)); [|done]. mrun.
  unfold Observer_dispose. mrun. unfold Object_defineProperty. mrun.
  unfold registry_delete. mrun.
  rewrite (alter_as_insert _ _ n _ Hob). simpl.
  erewrite (alter_as_insert _ (<[n:=_]> _) n) by
    (apply list_lookup_insert_eq; by eapply lookup_lt_Some). simpl.
  rewrite list_insert_insert_eq. unfold kept_definition.
  by destruct c as [[]|].
Qed.

Lemma links_same_eq s s' j :
  link_store s' !! j = link_store s !! j → links_same_at s s' j.
Proof. intros H lk Hlk. exists lk. by rewrite H. Qed.

Lemma links_same_alter s s' (f : link → link) k j :
  link_store s' = alter f k (link_store s) →
  (∀ lk, link_same lk (f lk)) →
  links_same_at s s' j.
Proof.
  intros H Hf lk Hlk. rewrite H. destruct (decide (j = k)) as [->|Hne].
  - exists (f lk). by rewrite list_lookup_alter_eq, Hlk.
  - exists lk. by rewrite list_lookup_alter_ne.
Qed.

Lemma attach_frame_trans ls1 ls2 s s1 s2 :
  attach_frame ls1 s s1 → attach_frame ls2 s1 s2 → attach_frame (ls1 ++ ls2) s s2.
Proof.
  intros (Hh1 & Hr1 & Ho1 & Hp1 & Hc1 & Ht1) (Hh2 & Hr2 & Ho2 & Hp2 & Hc2 & Ht2).
  split; [|split; [|split; [|split; [|split]]]]; try congruence.
  - intros l Hl. rewrite not_elem_of_app in Hl. destruct Hl.
    rewrite Hh2 by done. by apply Hh1.
  - intros p l Hl. rewrite not_elem_of_app in Hl. destruct Hl.
    rewrite Hr2 by done. by apply Hr1.
  - intros n ob H. by apply Ho2, Ho1.
Qed.

Lemma links_kept_trans k1 k2 s s1 s2 :
  (k1 ≤ k2)%nat → links_kept k1 s s1 → links_kept k2 s1 s2 → links_kept k1 s s2.
Proof.
  intros Hk (Hb1 & Hk1) (Hb2 & Hk2). split.
  - intros k Hlt. rewrite Hb2 by lia. by apply Hb1.
  - intros k lk Hlk. destruct (Hk1 k lk Hlk) as (o1 & H1).
    destruct (Hk2 k _ H1) as (o2 & H2). exists o2. rewrite H2. by destruct lk.
Qed.

Lemma level_ok_transfer s s' this root k lv val next :
  level_ok s this root k lv val next →
  links_same_at s s' k →
  (∀ n ob, observer_store s !! n = Some ob →
           ob_target ob = Some (VObj (lv_object lv)) →
           observer_store s' !! n = Some ob) →
  registry s' (lv_part lv) (lv_object lv) = registry s (lv_part lv) (lv_object lv) →
  heap s' !! lv_object lv = heap s !! lv_object lv →
  level_ok s' this root k lv val next.
Proof.
  intros (lk & n & x & Hlk & H1 & H2 & H3 & H4 & H5 & Hob & Hi & Hr & Hh) Hl Ho Hr' Hh'.
  destruct (Hl lk Hlk) as (lk' & Hlk' & S1 & S2 & S3 & S4 & S5).
  exists lk', n, x. rewrite Hr', Hh'.
  split; [done|]. do 5 (split; [congruence|]). split; [by apply Ho|]. done.
Qed.

Lemma unobserved_transfer s s' lvs v :
  unobserved s lvs v →
  (∀ l, l ∈ lv_object <$> lvs → heap s' !! l = heap s !! l) →
  (∀ p l, l ∈ lv_object <$> lvs → registry s' p l = registry s p l) →
  unobserved s' lvs v.
Proof.
  induction lvs as [|lv rest IH]; [done|].
  intros (Hh & Hi & Hr & Hrest) Hh' Hr'. simpl.
  rewrite Hh', Hr' by (rewrite fmap_cons; apply list_elem_of_here).
  repeat (split; [done|]). apply IH; [done| |].
  - intros l Hl. apply Hh'. rewrite fmap_cons. by apply list_elem_of_further.
  - intros p l Hl. apply Hr'. rewrite fmap_cons. by apply list_elem_of_further.
Qed.

Lemma stale_transfer s s' k o :
  stale s k o →
  (∀ n ob, observer_store s !! n = Some ob → observer_store s' !! n = Some ob) →
  stale s' k o.
Proof.
  destruct o as [n|]; [|done]. intros (ob & Hob & Hi) Ho. exists ob.
  split; [by apply Ho|done].
Qed.

Lemma detached_transfer s s' this root lvs : ∀ k,
  detached s this root k lvs →
  (∀ j, (k ≤ j)%nat → links_same_at s s' j) →
  (∀ n ob, observer_store s !! n = Some ob → observer_store s' !! n = Some ob) →
  detached s' this root k lvs.
Proof.
  induction lvs as [|lv rest IH]; intros k; [done|].
  intros ((lk & Hlk & H1 & H2 & H3 & H4 & Hs) & Hrest) Hl Ho. split.
  - destruct (Hl k ltac:(lia) lk Hlk) as (lk' & Hlk' & S1 & S2 & S3 & S4 & S5).
    exists lk'. split; [done|]. do 4 (split; [congruence|]).
    rewrite S5. by eapply stale_transfer.
  - apply IH; [done| |done]. intros j Hj. apply Hl. lia.
Qed.

Lemma attached_transfer more s s' this root lvs v : ∀ k,
  attached more s this root k lvs v →
  (∀ j, (k ≤ j < k + length lvs)%nat → links_same_at s s' j) →
  (∀ n ob l, observer_store s !! n = Some ob →
             ob_target ob = Some (VObj l) → l ∈ lv_object <$> lvs →
             observer_store s' !! n = Some ob) →
  (∀ l, l ∈ lv_object <$> lvs → heap s' !! l = heap s !! l) →
  (∀ p l, l ∈ lv_object <$> lvs → registry s' p l = registry s p l) →
  attached more s' this root k lvs v.
Proof.
  induction lvs as [|lv rest IH]; intros k; [done|].
  intros (Hlv & Hrest) Hl Ho Hh Hr.
  assert (lv_object lv ∈ lv_object <$> lv :: rest) as Hin
    by (rewrite fmap_cons; apply list_elem_of_here).
  split.
  - eapply level_ok_transfer; [exact Hlv| | | |].
    + apply Hl. simpl. lia.
    + intros n ob Hob Ht. by eapply Ho.
    + by apply Hr.
    + by apply Hh.
  - apply IH; [done| | | |].
    + intros j Hj. apply Hl. simpl. lia.
    + intros n ob l Hob Ht Hl'. eapply Ho; [done|done|].
      rewrite fmap_cons. by apply list_elem_of_further.
    + intros l Hl'. apply Hh. rewrite fmap_cons. by apply list_elem_of_further.
    + intros p l Hl'. apply Hr. rewrite fmap_cons. by apply list_elem_of_further.
Qed.

(** Detaching a chain that is not attached does nothing. *)
Lemma Link_detach_stale this root lvs : ∀ k s fuel,
  detached s this root k lvs →
  (0 < length lvs)%nat →
  (length lvs ≤ fuel)%nat →
  Link_detach fuel k s = Ok tt s.
Proof.
  induction lvs as [|lv rest IH]; intros k s fuel; [simpl; lia|].
  intros ((lk & Hlk & H1 & H2 & H3 & H4 & Hs) & Hrest) _ Hfuel.
  destruct fuel as [|fuel]; [simpl in Hfuel; lia|].
  cbn [Link_detach]. rewrite bind_run. unfold the_link. rewrite Hlk.
  destruct (lk_observer lk) as [n|]; [|done].
  destruct Hs as (ob & Hob & Hi).
  rewrite bind_run. unfold Observer_remove. rewrite bind_run.
  unfold the_observer. rewrite Hob, Hi. unfold mret at 1. unfold M_ret.
  rewrite H4. destruct rest as [|lv' rest]; [done|].
  cbn [next_link]. apply IH; [done|simpl; lia|simpl in *; lia].
Qed.

Lemma NoDup_objects_cons lv rest :
  NoDup (lv_object <$> (lv :: rest)) →
  (lv_object lv ∉ lv_object <$> rest) ∧ NoDup (lv_object <$> rest).
Proof. rewrite fmap_cons. intros H. by apply NoDup_cons in H. Qed.

(** The levels from a given one on are attached when the whole chain is. *)
Lemma attached_suffix more s this root v pre lv suf : ∀ k,
  attached more s this root k (pre ++ lv :: suf) v →
  attached more s this root (k + length pre) (lv :: suf) v.
Proof.
  induction pre as [|lv0 pre IH]; intros k H.
  - by rewrite Nat.add_0_r.
  - destruct H as [_ H]. apply IH in H.
    by replace (k + length (lv0 :: pre))%nat with (S k + length pre)%nat by (simpl; lia).
Qed.

(** Replacing the levels from a given one on, when the levels before it
    are left alone. *)
Lemma attached_splice more more' s s' this root v v' pre lv suf suf' : ∀ k,
  attached more s this root k (pre ++ lv :: suf) v →
  (∀ j, (k ≤ j < k + length pre)%nat → links_same_at s s' j) →
  (∀ n ob l, observer_store s !! n = Some ob →
             ob_target ob = Some (VObj l) → l ∈ lv_object <$> pre →
             observer_store s' !! n = Some ob) →
  (∀ l, l ∈ lv_object <$> pre → heap s' !! l = heap s !! l) →
  (∀ p l, l ∈ lv_object <$> pre → registry s' p l = registry s p l) →
  attached more' s' this root (k + length pre) (lv :: suf') v' →
  attached more' s' this root k (pre ++ lv :: suf') v'.
Proof.
  induction pre as [|lv0 pre IH]; intros k H Hl Ho Hh Hr Hnew.
  - by rewrite Nat.add_0_r in Hnew.
  - destruct H as [Hlv H].
    assert (lv_object lv0 ∈ lv_object <$> (lv0 :: pre)) as Hin
      by (rewrite fmap_cons; apply list_elem_of_here).
    split.
    + replace (level_value (pre ++ lv :: suf') v')
        with (level_value (pre ++ lv :: suf) v) by (by destruct pre).
      replace (next_link more' k (pre ++ lv :: suf'))
        with (next_link more k (pre ++ lv :: suf)) by (by destruct pre).
      eapply level_ok_transfer; [exact Hlv| | | |].
      * apply Hl. simpl. lia.
      * intros n ob Hob Ht. by eapply Ho.
      * by apply Hr.
      * by apply Hh.
    + apply IH; [done| | | | |].
      * intros j Hj. apply Hl. simpl. lia.
      * intros n ob l Hob Ht Hl'. eapply Ho; [done|done|].
        rewrite fmap_cons. by apply list_elem_of_further.
      * intros l Hl'. apply Hh. rewrite fmap_cons. by apply list_elem_of_further.
      * intros p l Hl'. apply Hr. rewrite fmap_cons. by apply list_elem_of_further.
      * by replace (S k + length pre)%nat with (k + length (lv0 :: pre))%nat
          by (simpl; lia).
Qed.

Lemma Link_attach_step this root s k lk lv val rest fuel :
  link_store s !! k = Some lk →
  lk_part lk = lv_part lv →
  detached s this root k (lv :: rest) →
  heap s !! lv_object lv = Some (lv_original lv) →
  initial_value (lv_original lv !! lv_part lv) = Some val →
  registry s (lv_part lv) (lv_object lv) = None →
  inherited (lv_part lv) = false →
  (length rest ≤ fuel)%nat →
  Link_attach (S fuel) k (VObj (lv_object lv)) s
  = match lk_next lk with
    | Some n => if truthy val then Link_attach fuel n val else mret VUndef
    | None => mret val
    end (attached_level s k lv val).
Proof.
  intros Hlk H2 Hdet Hh Hi Hr Hown Hfuel.
  cbn [Link_attach]. rewrite bind_run. unfold the_link at 1. rewrite Hlk.
  rewrite bind_run.
  assert ((match lk_observer lk with
           | Some _ => Link_detach (S fuel) k
           | None => mret ()
           end) s = Ok tt s) as ->.
  { destruct (lk_observer lk) eqn:Ho; [|done].
    apply (Link_detach_stale this root (lv :: rest)); [done|simpl; lia|simpl; lia]. }
  rewrite bind_run, H2.
  rewrite (Observer_observe_fresh s _ _ _ _ _ Hh Hi Hr Hown).
  rewrite bind_run. unfold Observer_get. rewrite bind_run.
  unfold the_observer at 1. cbn [observer_store]. rewrite lookup_snoc.
  unfold mret at 1. unfold M_ret. cbn [ob_value].
  rewrite bind_run. reflexivity.
Qed.

Lemma attached_level_ok this root s k lk lv val next :
  link_store s !! k = Some lk →
  lk_path lk = this → lk_part lk = lv_part lv → lk_root lk = root → lk_next lk = next →
  initial_value (lv_original lv !! lv_part lv) = Some val →
  level_ok (attached_level s k lv val) this root k lv val next
  ∧ attach_frame [lv_object lv] s (attached_level s k lv val)
  ∧ links_kept k s (attached_level s k lv val)
  ∧ (∀ j, j ≠ k → link_store (attached_level s k lv val) !! j = link_store s !! j).
Proof.
  intros Hlk H1 H2 H3 H4 Hi. unfold attached_level.
  split; [|split; [|split]].
  - eexists _, _, _.
    cbn [heap cells observers observer_store link_store path_store trace].
    rewrite list_lookup_alter_eq, Hlk. cbn [fmap option_fmap option_map].
    split; [reflexivity|].
    cbn [set_lk_observer lk_path lk_part lk_root lk_next lk_observer].
    do 4 (split; [done|]).
    split; [reflexivity|]. split; [apply lookup_snoc|]. split; [by rewrite Hi|].
    split; [unfold registry; cbn [observers]; rewrite registry_insert;
            by rewrite decide_True|].
    by rewrite lookup_insert_eq.
  - split; [|split; [|split; [|done]]];
      cbn [heap cells observers observer_store link_store path_store trace].
    + intros l Hl. rewrite not_elem_of_cons in Hl. destruct Hl as [Hl _].
      by rewrite lookup_insert_ne.
    + intros p l Hl. rewrite not_elem_of_cons in Hl. destruct Hl as [Hl _].
      unfold registry; cbn [observers]. rewrite registry_insert.
      rewrite decide_False; [done|]. by intros [_ ?].
    + intros n ob Hob. by apply lookup_app_l_Some.
  - split; cbn [heap cells observers observer_store link_store path_store trace].
    + intros j Hj. rewrite list_lookup_alter_ne; [done|lia].
    + intros j lk' Hlk'. destruct (decide (j = k)) as [->|Hne].
      * exists (Some (length (observer_store s))).
        by rewrite list_lookup_alter_eq, Hlk'.
      * rewrite list_lookup_alter_ne by done. exists (lk_observer lk').
        rewrite Hlk'. by destruct lk'.
  - intros j Hj. cbn [link_store]. by rewrite list_lookup_alter_ne.
Qed.

(** Attaching a chain to nested objects that nobody observes: every level is
    instrumented and the chain resolves to the final value.  When the value
    of the last object is falsy, the links of the parts that remain stay as
    they are and the chain resolves to [undefined]. *)
Lemma Link_attach_chain this root v rem rest : ∀ lv k s fuel,
  detached s this root k (lv :: rest ++ rem) →
  unobserved s (lv :: rest) v →
  own_names (lv :: rest) →
  NoDup (lv_object <$> (lv :: rest)) →
  (has_more rem = true → truthy v = false) →
  (S (length rest + length rem) ≤ fuel)%nat →
  ∃ s', Link_attach fuel k (VObj (lv_object lv)) s = Ok (resolved rem v) s'
        ∧ attached (has_more rem) s' this root k (lv :: rest) v
        ∧ attach_frame (lv_object <$> (lv :: rest)) s s'
        ∧ links_kept k s s'
        ∧ (∀ j, (k + S (length rest) ≤ j)%nat → link_store s' !! j = link_store s !! j).
Proof.
  induction rest as [|lv' rest IH]; intros lv k s fuel Hdet Hun Hown Hnd Hfalsy Hfuel;
    (destruct fuel as [|fuel]; [simpl in Hfuel; lia|]);
    pose proof Hdet as ((lk & Hlk & H1 & H2 & H3 & H4 & Hs) & Hdet');
    pose proof Hun as (Hh & Hi & Hr & Hun');
    apply Forall_cons in Hown as [Hown Hown'];
    rewrite (Link_attach_step this root s k lk lv _ _ fuel Hlk H2 Hdet Hh Hi Hr Hown)
      by (rewrite ?length_app; simpl in *; lia);
    destruct (attached_level_ok this root s k lk lv _ _ Hlk H1 H2 H3 H4 Hi)
      as (Hlv & Hfr & Hlk1 & Hlk2);
    rewrite H4; cbn [app level_value] in *.
  - assert (match next_link false k rem with
            | Some n => if truthy v then Link_attach fuel n v else mret VUndef
            | None => mret v
            end = mret (resolved rem v)) as ->.
    { destruct rem; [done|]. cbn. by rewrite Hfalsy. }
    eexists. split; [reflexivity|]. split; [|split; [|split]]; try done.
    + split; [|done]. by destruct rem.
    + intros j Hj. apply Hlk2. lia.
  - cbn [next_link truthy].
    apply NoDup_objects_cons in Hnd as [Hnotin Hnd].
    set (s2 := attached_level s k lv (VObj (lv_object lv'))) in *.
    destruct Hfr as (Fh & Fr & Fo & Fp & Fc & Ft).
    destruct (IH lv' (S k) s2 fuel) as (s' & E & Hatt & Hfr' & Hlk' & Hbeyond).
    { apply (detached_transfer s); [done| |done].
      intros j Hj. apply links_same_eq, Hlk2. lia. }
    { apply (unobserved_transfer s); [done| |].
      - intros l Hl. apply Fh. rewrite not_elem_of_cons. split; [|apply not_elem_of_nil].
        intros ->. done.
      - intros p l Hl. apply Fr. rewrite not_elem_of_cons. split; [|apply not_elem_of_nil].
        intros ->. done. }
    { done. }
    { done. }
    { done. }
    { simpl in *. lia. }
    exists s'. split; [exact E|]. split; [|split; [|split]].
    + split; [|exact Hatt].
      destruct Hfr' as (Fh' & Fr' & Fo' & _). destruct Hlk' as (Hb' & _).
      eapply level_ok_transfer; [exact Hlv|apply links_same_eq, Hb'; lia| | |].
      * intros n ob Hob _. by apply Fo'.
      * by apply Fr'.
      * by apply Fh'.
    + apply (attach_frame_trans [lv_object lv] _ s s2 s'); [|exact Hfr'].
      by repeat split.
    + by apply (links_kept_trans k (S k) s s2 s'); [lia| |].
    + intros j Hj. rewrite Hbeyond by (simpl in *; lia). apply Hlk2. simpl in Hj. lia.
Qed.

Lemma chain_detached this root last lvs : ∀ pre s,
  link_store s = pre ++ chain this (length pre) (lv_part <$> lvs) root last →
  detached s this root (length pre) lvs.
Proof.
  induction lvs as [|lv rest IH]; intros pre s Hs; [done|].
  rewrite fmap_cons in Hs. cbn [chain] in Hs. split.
  - eexists. rewrite Hs, lookup_middle'. split; [reflexivity|].
    cbn [lk_path lk_part lk_root lk_next lk_observer].
    do 3 (split; [done|]). split; [by destruct rest|done].
  - replace (S (length pre)) with (length (pre ++ [Link this (lv_part lv)
        (match lv_part <$> rest with [] => None | _ => Some (S (length pre)) end)
        root None last [] VUndef])) by (rewrite length_app; simpl; lia).
    apply IH. rewrite Hs, <- app_assoc. simpl.
    rewrite length_app. simpl. by rewrite Nat.add_1_r.
Qed.

Lemma chain_head this k part rest root last pre :
  (pre ++ chain this k (part :: rest) root last) !! length pre
  = Some (Link this part (match rest with [] => None | _ => Some (S k) end)
            root None last [] VUndef).
Proof. cbn [chain]. apply lookup_middle'. Qed.

(** [path.observe] on a root that the path does not observe yet, along
    nested objects that nobody observes. *)
Lemma Path_observe_first_deep fuel s this pa lv rest v f :
  path_store s !! this = Some pa →
  p_path pa = lv_part <$> (lv :: rest) →
  p_observed pa !! lv_object lv = None →
  unobserved s (lv :: rest) v →
  own_names (lv :: rest) →
  NoDup (lv_object <$> (lv :: rest)) →
  (S (length rest) ≤ fuel)%nat →
  ∃ s1,
    Path_observe fuel this (VObj (lv_object lv)) f s = Ok tt s1
    ∧ deep_bound this (lv_object lv) (length (link_store s)) (lv :: rest) [f] v s1
    ∧ trace s1 = trace s
    ∧ cells s1 = cells s
    ∧ (∀ l, l ∉ lv_object <$> (lv :: rest) →
            heap s1 !! l = heap s !! l ∧ ∀ p, registry s1 p l = registry s p l).
Proof.
  intros Hpa Hpath Hobs Hun Hown Hnd Hfuel.
  unfold Path_observe. cbn [truthy negb].
  rewrite bind_run. unfold the_path at 1. rewrite Hpa. unfold WeakMap_get.
  cbn [ref_of mbind option_bind]. rewrite Hobs, Hpath. rewrite fmap_cons.
  rewrite bind_run, Link_new_chain by (rewrite length_fmap; lia).
  rewrite length_fmap.
  set (k := length (link_store s)).
  set (links := chain this k (lv_part lv :: (lv_part <$> rest)) (VObj (lv_object lv))
                  (Some (k + length rest)%nat)).
  unfold observed_set, update_path, update_link. cbn [ref_of].
  unfold modify, with_link_store, with_path_store.
  rewrite !bind_run. cbv beta iota.
  cbn [heap cells observers observer_store link_store path_store trace].
  set (sc := State _ _ _ _ _ _ _).
  assert (link_store sc = alter (set_lk_callbacks [f]) k (link_store s ++ links)) as Hsc
    by done.
  assert (detached sc this (VObj (lv_object lv)) k (lv :: rest)) as Hdet.
  { apply (detached_transfer (with_link_store (link_store s ++ links) s)).
    - eapply chain_detached. cbn [link_store]. rewrite fmap_cons. reflexivity.
    - intros j _. eapply links_same_alter; [exact Hsc|]. by intros [].
    - done. }
  assert (unobserved sc (lv :: rest) v) as Hun'.
  { by apply (unobserved_transfer s). }
  destruct (Link_attach_chain this (VObj (lv_object lv)) v [] rest lv k sc fuel)
    as (sd & E & Hatt & Hfr & Hlk & _);
    [by rewrite app_nil_r | done | done | done | done | simpl; lia |].
  cbn [resolved has_more] in *.
  rewrite E.
  eexists. split; [reflexivity|].
  destruct Hfr as (Fh & Fr & Fo & Fp & Fc & Ft).
  destruct Hlk as (Hb & Hk).
  split; [|split; [|split]];
    cbn [heap cells observers observer_store link_store path_store trace].
  - split; [done|]. split; [|split; [|split]].
    + cbn [path_store]. rewrite Fp. subst sc. cbn [path_store].
      eexists. rewrite list_lookup_alter_eq, Hpa. cbn [fmap option_fmap option_map].
      split; [reflexivity|]. cbn [p_path p_observed].
      split; [by rewrite Hpath|]. apply lookup_insert_eq.
    + cbn [link_store].
      destruct (Hk k (set_lk_callbacks [f]
                        (Link this (lv_part lv)
                           (match lv_part <$> rest with [] => None | _ => Some (S k) end)
                           (VObj (lv_object lv)) None (Some (k + length rest)%nat) []
                           VUndef))) as (o & Ho).
      { rewrite Hsc, list_lookup_alter_eq. subst links.
        by rewrite (chain_head this k _ _ _ _ (link_store s)). }
      eexists. rewrite list_lookup_alter_eq, Ho. cbn [fmap option_fmap option_map].
      split; [reflexivity|]. cbn. do 2 (split; [done|]).
      f_equal. lia.
    + eapply attached_transfer; [exact Hatt| | | |]; try done.
      intros j _. eapply links_same_alter; [reflexivity|]. by intros [].
    + done.
  - by rewrite Ft.
  - by rewrite Fc.
  - intros l Hl. split; [by rewrite Fh|]. intros p.
    unfold registry at 1. cbn [observers]. by apply Fr.
Qed.

(** Reading the property of an attached level gives the value its observer
    holds. *)
Lemma level_read s this root k lv val next :
  level_ok s this root k lv val next →
  Js_get (VObj (lv_object lv)) (lv_part lv) s = Ok val s.
Proof.
  intros (lk & n & x & Hlk & H1 & H2 & H3 & H4 & H5 & Hob & Hi & Hr & Hh).
  unfold Js_get, own_property, gets. rewrite bind_run, Hh.
  cbn [mbind option_bind]. rewrite lookup_insert_eq.
  unfold bound_accessor, call_getter, Observer_get. rewrite bind_run.
  unfold the_observer. by rewrite Hob.
Qed.

(** Following the parts from the root through the installed accessors
    reaches the value the chain resolves to. *)
Lemma attached_walk s this root v rest : ∀ lv k,
  attached false s this root k (lv :: rest) v →
  walk (lv_part <$> (lv :: rest)) (VObj (lv_object lv)) s = Ok v s.
Proof.
  induction rest as [|lv' rest IH]; intros lv k [Hlv Hrest];
    rewrite fmap_cons; cbn [walk]; rewrite bind_run, (level_read _ _ _ _ _ _ _ Hlv).
  - cbn [level_value fmap list_fmap walk]. by destruct (truthy v).
  - cbn [level_value truthy negb]. by apply (IH lv' (S k)).
Qed.

Lemma set_value_id v ob : ob_value ob = v → set_value v ob = ob.
Proof. intros <-. by destruct ob. Qed.

Lemma set_lk_value_id v lk : lk_value lk = v → set_lk_value v lk = lk.
Proof. intros <-. by destruct lk. Qed.

Lemma alter_id_at {A} (f : A → A) (l : list A) (n : nat) (x : A) :
  l !! n = Some x → f x = x → alter f n l = l.
Proof.
  intros H Hf. rewrite (alter_as_insert f l n x H), Hf. by apply list_insert_id.
Qed.

(** [observer.set(value, silent)] on the observer of a last link whose
    chain is attached. *)
Lemma Observer_set_terminal fuel s this pa l0 k0 lk0 k lk n v x e c tgt part v' silent :
  path_store s !! this = Some pa →
  p_observed pa !! l0 = Some k0 →
  link_store s !! k0 = Some lk0 →
  lk_value lk0 = v →
  link_store s !! k = Some lk →
  lk_path lk = this → lk_root lk = VObj l0 → lk_next lk = None → lk_observer lk = Some n →
  observer_store s !! n
  = Some (Observer [CbLink k] v tgt part (Some (kept_definition x e c))) →
  (3 ≤ fuel)%nat →
  Observer_set fuel n v' silent s
  = Ok tt
      (if decide (v = v') then s
       else State (heap s) (cells s) (observers s)
              (alter (set_value v') n (observer_store s))
              (if silent then link_store s
               else alter (set_lk_value v') k0 (link_store s))
              (path_store s)
              (trace s ++ (if silent then [] else path_events (lk_callbacks lk0) v' v))).
Proof.
  intros Hpa Hobs Hlk0 Hv Hlk P1 P2 P3 P4 Hob Hfuel.
  destruct fuel as [|[|[|fuel]]]; try lia.
  cbn [Observer_set]. rewrite bind_run. unfold the_observer at 1. rewrite Hob.
  cbn [ob_definition ob_value ob_target kept_definition d_set default].
  unfold strict_eq. rewrite bool_decide_decide.
  destruct (decide (v = v')) as [->|Hne]; [done|].
  destruct silent.
  - unfold update_observer, modify, with_observer_store, mbind, M_bind, mret, M_ret.
    cbn. by rewrite app_nil_r.
  - rewrite !bind_run. cbn [for_of_callbacks]. rewrite bind_run.
    unfold the_observer at 1. rewrite Hob. cbn [ob_callbacks lookup list_lookup].
    rewrite bind_run. cbn [call_callback].
    assert (lk_path lk = this ∧ lk_root lk = VObj l0) as [Q1 Q2] by done.
    rewrite (Link_change_terminal _ _ _ _ _ _ _ _ Hlk P4 P3 Hob Hne), Q1, Q2.
    rewrite (Path_change_run s this pa (VObj l0) k0 lk0 v' Hpa Hobs Hlk0).
    rewrite Hv, decide_False by done.
    rewrite bind_run. unfold the_observer at 1.
    cbn [heap cells observers observer_store link_store path_store trace].
    rewrite Hob. cbn [ob_callbacks lookup list_lookup].
    unfold update_observer, modify, with_observer_store, mbind, M_bind, mret, M_ret.
    reflexivity.
Qed.

Lemma NoDup_objects_last pre lz :
  NoDup (lv_object <$> (pre ++ [lz])) → lv_object lz ∉ lv_object <$> pre.
Proof.
  rewrite fmap_app. intros H. apply NoDup_app in H as (_ & H & _).
  intros Hin. apply (H _ Hin). rewrite fmap_cons. apply list_elem_of_here.
Qed.

(** The last level of a bound chain, with the records of its link and of
    its observer. *)
Lemma deep_bound_last this l0 k0 pre lz fs v s :
  deep_bound this l0 k0 (pre ++ [lz]) fs v s →
  level_ok s this (VObj l0) (k0 + length pre) lz v None.
Proof.
  intros (_ & _ & _ & Hatt & _). by apply attached_suffix in Hatt as [H _].
Qed.

(** A bound chain stays bound when the value of the last level changes in
    its observer and in the first link, and the callbacks of the first link
    change. *)
Lemma deep_bound_update this l0 k0 pre lz fs fs' v v' s s' n :
  deep_bound this l0 k0 (pre ++ [lz]) fs v s →
  (∃ lk, link_store s !! (k0 + length pre)%nat = Some lk ∧ lk_observer lk = Some n) →
  heap s' = heap s →
  observers s' = observers s →
  path_store s' = path_store s →
  observer_store s' = alter (set_value v') n (observer_store s) →
  link_store s'
  = alter (fun lk => set_lk_callbacks fs' (set_lk_value v' lk)) k0 (link_store s) →
  deep_bound this l0 k0 (pre ++ [lz]) fs' v' s'.
Proof.
  intros Hb (lkz & Hlkz & Hn) Hh Hr Hp Ho Hl.
  pose proof (deep_bound_last _ _ _ _ _ _ _ _ Hb)
    as (lk & n' & x & Hlk & H1 & H2 & H3 & H4 & H5 & Hob & Hi & Hreg & Hheap).
  assert (n' = n) as -> by congruence. clear lkz Hlkz Hn.
  destruct Hb as (Hhd & (pa & Hpa & Hpath & Hobs) & (lk0 & Hlk0 & C1 & C2 & C3) & Hatt & Hnd).
  assert (∀ j, links_same_at s s' j) as Hsame.
  { intros j. eapply links_same_alter; [exact Hl|]. by intros []. }
  split; [done|]. split; [|split; [|split; [|done]]].
  - exists pa. by rewrite Hp.
  - eexists. rewrite Hl, list_lookup_alter_eq, Hlk0. cbn [fmap option_fmap option_map].
    split; [reflexivity|]. by destruct lk0.
  - eapply (attached_splice false false s s' this (VObj l0) v v' pre lz [] []);
      [exact Hatt| | | | |].
    + intros j _. apply Hsame.
    + intros m ob l Hob' Ht Hl'. rewrite Ho.
      rewrite list_lookup_alter_ne; [done|].
      intros <-. rewrite Hob in Hob'. injection Hob' as <-. cbn in Ht.
      injection Ht as <-. by apply NoDup_objects_last in Hnd.
    + intros l _. by rewrite Hh.
    + intros p l _. unfold registry. by rewrite Hr.
    + split; [|done].
      destruct (Hsame (k0 + length pre)%nat lk Hlk) as (lk' & Hlk' & S1 & S2 & S3 & S4 & S5).
      exists lk', n, x. rewrite Hh. unfold registry. rewrite Hr.
      split; [done|]. cbn [next_link level_value]. do 5 (split; [congruence|]).
      split; [by rewrite Ho, list_lookup_alter_eq, Hob|]. done.
Qed.

Section deep_bound.
Variables (this l0 k0 : nat) (pre : list level) (lz : level).
Abbreviation dbound := (deep_bound this l0 k0 (pre ++ [lz])).

Lemma deep_get fs v s : dbound fs v s → Path_get this (VObj l0) s = Ok v s.
Proof.
  intros (_ & (pa & Hpa & Hpath & Hobs) & (lk0 & Hlk0 & C1 & C2 & C3) & _).
  unfold Path_get. rewrite bind_run. unfold the_path. rewrite Hpa.
  unfold WeakMap_get. cbn [ref_of mbind option_bind]. rewrite Hobs.
  rewrite bind_run. unfold the_link. rewrite Hlk0. by rewrite C2.
Qed.

Lemma deep_walk fs v s :
  dbound fs v s → walk (lv_part <$> (pre ++ [lz])) (VObj l0) s = Ok v s.
Proof.
  intros (Hhd & _ & _ & Hatt & _).
  destruct (pre ++ [lz]) as [|lv rest] eqn:E; [by destruct pre|].
  rewrite fmap_cons in Hhd. injection Hhd as <-. by eapply attached_walk.
Qed.

Lemma deep_observe fuel fs v f s :
  dbound fs v s →
  ∃ s', Path_observe fuel this (VObj l0) f s = Ok tt s'
        ∧ dbound (fs ++ [f]) v s' ∧ trace s' = trace s ∧ heap s' = heap s
        ∧ cells s' = cells s ∧ observers s' = observers s.
Proof.
  intros Hb.
  pose proof (deep_bound_last _ _ _ _ _ _ _ _ Hb)
    as (lk & n & x & Hlk & H1 & H2 & H3 & H4 & H5 & Hob & _).
  pose proof Hb as (_ & (pa & Hpa & Hpath & Hobs) & (lk0 & Hlk0 & C1 & C2 & C3) & _).
  unfold Path_observe. cbn [truthy negb]. rewrite bind_run. unfold the_path.
  rewrite Hpa. unfold WeakMap_get. cbn [ref_of mbind option_bind]. rewrite Hobs.
  unfold update_link, modify. eexists. split; [reflexivity|].
  split; [|done].
  eapply (deep_bound_update _ _ _ _ _ _ _ _ v _ _ n Hb); try done; [eauto| |].
  - cbn [observer_store with_link_store]. symmetry.
    eapply alter_id_at; [exact Hob|done].
  - cbn [link_store with_link_store]. apply list_alter_ext; [|done].
    intros lk' Hlk'. rewrite Hlk0 in Hlk'. injection Hlk' as <-.
    rewrite C1. by destruct lk0; cbn in *; subst.
Qed.

Lemma deep_observe_each fuel rest : ∀ fs v s,
  dbound fs v s →
  ∃ s', path_observe_each fuel this (VObj l0) rest s = Ok tt s'
        ∧ dbound (fs ++ rest) v s' ∧ trace s' = trace s ∧ heap s' = heap s
        ∧ cells s' = cells s ∧ observers s' = observers s.
Proof.
  induction rest as [|f rest IH]; intros fs v s HI; simpl.
  - exists s. by rewrite app_nil_r.
  - destruct (deep_observe fuel fs v f s HI) as (s1 & E1 & H1 & T1 & Hh1 & C1 & R1).
    destruct (IH _ _ _ H1) as (s2 & E2 & H2 & T2 & Hh2 & C2 & R2).
    exists s2. rewrite bind_run, E1. split; [done|].
    rewrite <- app_assoc in H2. split; [done|]. repeat split; congruence.
Qed.

Lemma deep_set_observer fuel fs v v' silent s :
  dbound fs v s →
  (3 ≤ fuel)%nat →
  ∃ lk n s1,
    link_store s !! (k0 + length pre)%nat = Some lk ∧ lk_observer lk = Some n
    ∧ heap s !! lv_object lz
      = Some (<[lv_part lz := bound_accessor n
                                (initial_enumerable (lv_original lz !! lv_part lz))]>
                (lv_original lz))
    ∧ Observer_set fuel n v' silent s = Ok tt s1
    ∧ heap s1 = heap s ∧ observers s1 = observers s ∧ path_store s1 = path_store s
    ∧ observer_store s1 = alter (set_value v') n (observer_store s)
    ∧ link_store s1
      = alter (fun lk => set_lk_callbacks fs
                           (set_lk_value (if silent then v else v') lk)) k0 (link_store s)
    ∧ trace s1 = trace s ++ (if silent then []
                             else if decide (v = v') then [] else path_events fs v' v).
Proof.
  intros Hb Hfuel.
  pose proof (deep_bound_last _ _ _ _ _ _ _ _ Hb)
    as (lk & n & x & Hlk & H1 & H2 & H3 & H4 & H5 & Hob & _ & _ & Hheap).
  pose proof Hb as (_ & (pa & Hpa & Hpath & Hobs) & (lk0 & Hlk0 & C1 & C2 & C3) & _).
  assert (∀ w, w = v → link_store s
            = alter (fun lk => set_lk_callbacks fs (set_lk_value w lk)) k0 (link_store s))
    as Hid.
  { intros w ->. symmetry. eapply alter_id_at; [exact Hlk0|].
    destruct lk0; cbn in *; by subst. }
  exists lk, n. eexists. split; [done|]. split; [done|]. split; [done|].
  split.
  { eapply (Observer_set_terminal fuel s this pa l0 k0 lk0 _ lk n v); eauto. }
  destruct (decide (v = v')) as [<-|Hne].
  - do 3 (split; [done|]). split; [|split].
    + symmetry. eapply alter_id_at; [exact Hob|done].
    + apply Hid. by destruct silent.
    + destruct silent; by rewrite app_nil_r.
  - cbn [heap cells observers observer_store link_store path_store trace].
    do 4 (split; [done|]). rewrite C1. split; [|done].
    destruct silent; [by apply Hid|].
    apply list_alter_ext; [|done]. intros lk' Hlk'. rewrite Hlk0 in Hlk'.
    injection Hlk' as <-. destruct lk0; cbn in *; by subst.
Qed.

Lemma deep_assign fuel fs v v' s :
  dbound fs v s →
  (3 ≤ fuel)%nat →
  ∃ s', Js_set fuel (VObj (lv_object lz)) (lv_part lz) v' s = Ok tt s'
        ∧ dbound fs v' s'
        ∧ trace s' = trace s ++ (if decide (v = v') then [] else path_events fs v' v)
        ∧ heap s' = heap s.
Proof.
  intros Hb Hfuel.
  destruct (deep_set_observer fuel fs v v' false s Hb Hfuel)
    as (lk & n & s1 & Hlk & Hn & Hheap & E & Fh & Fr & Fp & Fo & Fl & Ft).
  exists s1. split; [|split; [|done]].
  - unfold Js_set, own_property, gets. cbn [ref_of]. rewrite bind_run, Hheap.
    cbn [mbind option_bind]. rewrite lookup_insert_eq.
    unfold bound_accessor, call_setter. exact E.
  - eapply (deep_bound_update _ _ _ _ _ _ _ _ _ _ _ n Hb); eauto.
Qed.

Lemma deep_set fuel fs v v' silent s :
  dbound fs v s →
  (3 ≤ fuel)%nat →
  ∃ s', Path_set fuel this (VObj l0) v' silent s = Ok true s'
        ∧ dbound fs v' s'
        ∧ trace s' = trace s ++ (if silent then []
                                 else if decide (v = v') then []
                                 else path_events fs v' v).
Proof.
  intros Hb Hfuel.
  destruct (deep_set_observer fuel fs v v' silent s Hb Hfuel)
    as (lk & n & s1 & Hlk & Hn & Hheap & E & Fh & Fr & Fp & Fo & Fl & Ft).
  pose proof Hb as (_ & (pa & Hpa & Hpath & Hobs) & (lk0 & Hlk0 & C1 & C2 & C3) & _).
  unfold Path_set. rewrite bind_run. unfold the_path at 1. rewrite Hpa.
  unfold WeakMap_get. cbn [ref_of mbind option_bind]. rewrite Hobs.
  rewrite bind_run. unfold the_link at 1. rewrite Hlk0, C3.
  replace (k0 + length (pre ++ [lz]) - 1)%nat with (k0 + length pre)%nat
    by (rewrite length_app; simpl; lia).
  unfold Link_set. rewrite !bind_run. unfold the_link at 1. rewrite Hlk, Hn.
  rewrite bind_run, E. cbn [negb mret]. unfold M_ret.
  unfold update_link, modify, mbind, M_bind, mret, M_ret.
  eexists. split; [reflexivity|]. split; [|done].
  eapply (deep_bound_update _ _ _ _ _ _ _ _ _ _ _ n Hb); eauto.
  cbn [link_store with_link_store]. rewrite Fl, list_alter_alter_eq.
  apply list_alter_ext; [|done]. intros lk' _. by destruct lk'.
Qed.
End deep_bound.

Lemma restored_levels_objects lvs v :
  lv_object <$> restored_levels lvs v = lv_object <$> lvs.
Proof.
  induction lvs as [|lv rest IH]; [done|].
  cbn [restored_levels]. by rewrite !fmap_cons, IH.
Qed.

Lemma restored_levels_parts lvs v :
  lv_part <$> restored_levels lvs v = lv_part <$> lvs.
Proof.
  induction lvs as [|lv rest IH]; [done|].
  cbn [restored_levels]. by rewrite !fmap_cons, IH.
Qed.

Lemma level_value_restored rest v :
  level_value (restored_levels rest v) v = level_value rest v.
Proof. by destruct rest. Qed.

Lemma detach_frame_trans ls1 ls2 s s1 s2 :
  detach_frame ls1 s s1 → detach_frame ls2 s1 s2 → detach_frame (ls1 ++ ls2) s s2.
Proof.
  intros (Hh1 & Hr1 & Ho1 & Hl1 & Hp1 & Hc1 & Ht1) (Hh2 & Hr2 & Ho2 & Hl2 & Hp2 & Hc2 & Ht2).
  split; [|split; [|split; [|split; [|split; [|split]]]]]; try congruence.
  - intros l Hl. rewrite not_elem_of_app in Hl. destruct Hl.
    rewrite Hh2 by done. by apply Hh1.
  - intros p l Hl. rewrite not_elem_of_app in Hl. destruct Hl.
    rewrite Hr2 by done. by apply Hr1.
  - intros n ob H Ht. apply Ho2; [apply Ho1; [done|]|].
    + intros l Hl. specialize (Ht l Hl). rewrite not_elem_of_app in Ht. by destruct Ht.
    + intros l Hl. specialize (Ht l Hl). rewrite not_elem_of_app in Ht. by destruct Ht.
Qed.

Lemma kept_configurable_not_false po :
  is_Some (initial_value po) → kept_configurable po ≠ Some false.
Proof. destruct po as [[v [] e []|]|]; simpl; intros [? ?]; congruence. Qed.

Lemma Link_detach_step s this root k lv val next fuel :
  level_ok s this root k lv val next →
  ∃ lk n m ob,
    link_store s !! k = Some lk
    ∧ lk_path lk = this ∧ lk_part lk = lv_part lv ∧ lk_root lk = root
    ∧ lk_next lk = next ∧ lk_observer lk = Some n
    ∧ observers s !! lv_part lv = Some m
    ∧ observer_store s !! n = Some ob
    ∧ ob_target ob = Some (VObj (lv_object lv))
    ∧ Link_detach (S fuel) k s
      = match next with
        | Some k' => Link_detach fuel k'
        | None => mret tt
        end (detached_level s lv n val m).
Proof.
  intros (lk & n & x & Hlk & H1 & H2 & H3 & H4 & H5 & Hob & Hi & Hr & Hh).
  unfold registry in Hr.
  destruct (observers s !! lv_part lv) as [m|] eqn:Hm; [|done].
  exists lk, n, m. eexists. do 6 (split; [done|]). split; [done|].
  split; [exact Hob|]. split; [done|].
  cbn [Link_detach]. rewrite bind_run. unfold the_link at 1. rewrite Hlk, H5.
  rewrite bind_run.
  rewrite (Observer_remove_last s n _ _ _ _ _ _ _ _ n
             (initial_enumerable (lv_original lv !! lv_part lv)) m Hob
             (kept_configurable_not_false _ Hi) Hh (lookup_insert_eq _ _ _) Hm).
  rewrite insert_insert_eq, H4. reflexivity.
Qed.

Lemma detached_level_frame s lv n val m ob :
  observers s !! lv_part lv = Some m →
  observer_store s !! n = Some ob →
  ob_target ob = Some (VObj (lv_object lv)) →
  detach_frame [lv_object lv] s (detached_level s lv n val m)
  ∧ registry (detached_level s lv n val m) (lv_part lv) (lv_object lv) = None.
Proof.
  intros Hm Hob Ht. unfold detached_level. split.
  - split; [|split; [|split; [|done]]];
      cbn [heap cells observers observer_store link_store path_store trace].
    + intros l Hl. rewrite not_elem_of_cons in Hl. destruct Hl as [Hl _].
      by rewrite lookup_insert_ne.
    + intros p l Hl. rewrite not_elem_of_cons in Hl. destruct Hl as [Hl _].
      unfold registry; cbn [observers]. rewrite (registry_delete_lookup _ _ _ _ _ _ Hm).
      rewrite decide_False; [done|]. by intros [_ ?].
    + intros n' ob' Hob' Ht'. rewrite list_lookup_insert_ne; [done|].
      intros <-. rewrite Hob in Hob'. injection Hob' as <-.
      specialize (Ht' _ Ht). rewrite not_elem_of_cons in Ht'. by destruct Ht'.
  - unfold registry; cbn [observers]. rewrite (registry_delete_lookup _ _ _ _ _ _ Hm).
    by rewrite decide_True.
Qed.

(** Detaching an attached chain: every level gets its data property back,
    leaves the registry, and its observer keeps no callback. *)
Lemma Link_detach_chain this root v lvs : ∀ k s fuel,
  attached false s this root k lvs v →
  NoDup (lv_object <$> lvs) →
  (0 < length lvs)%nat →
  (length lvs ≤ fuel)%nat →
  ∃ s', Link_detach fuel k s = Ok tt s'
        ∧ unobserved s' (restored_levels lvs v) v
        ∧ detach_frame (lv_object <$> lvs) s s'
        ∧ detached s' this root k lvs.
Proof.
  induction lvs as [|lv rest IH]; intros k s fuel Hatt Hnd Hlen Hfuel;
    [simpl in Hlen; lia|].
  destruct fuel as [|fuel]; [simpl in Hfuel; lia|].
  destruct Hatt as [Hlv Hrest].
  apply NoDup_objects_cons in Hnd as [Hnotin Hnd].
  destruct (Link_detach_step s this root k lv _ _ fuel Hlv)
    as (lk & n & m & ob & Hlk & H1 & H2 & H3 & H4 & H5 & Hm & Hob & Ht & E).
  rewrite E. clear E.
  destruct (detached_level_frame s lv n (level_value rest v) m ob Hm Hob Ht)
    as (Hfr & Hreg).
  set (s1 := detached_level s lv n (level_value rest v) m) in *.
  assert (heap s1 !! lv_object lv
          = Some (<[lv_part lv := DataProperty (level_value rest v) true
                      (initial_enumerable (lv_original lv !! lv_part lv)) true]>
                    (lv_original lv))) as Hheap1 by apply lookup_insert_eq.
  assert (∃ ob1, observer_store s1 !! n = Some ob1 ∧ ob_callbacks ob1 = []
                 ∧ ob_target ob1 = Some (VObj (lv_object lv))) as (ob1 & Hob1 & Hcb1 & Ht1).
  { eexists. split; [apply list_lookup_insert_eq; by eapply lookup_lt_Some|done]. }
  assert (link_store s1 = link_store s) as Hls1 by done.
  assert (unobserved s1 [Level (lv_object lv) (lv_part lv)
            (<[lv_part lv := DataProperty (level_value rest v) true
                 (initial_enumerable (lv_original lv !! lv_part lv)) true]>
               (lv_original lv))] (level_value rest v)) as Hun1.
  { cbn [unobserved lv_object lv_part lv_original level_value].
    rewrite lookup_insert_eq. done. }
  destruct rest as [|lv' rest].
  - cbn [next_link]. eexists. split; [reflexivity|].
    split; [exact Hun1|]. split; [exact Hfr|].
    split; [|done]. exists lk. rewrite Hls1. do 5 (split; [done|]).
    rewrite H5. exists ob1. by rewrite Hcb1.
  - cbn [next_link].
    destruct Hfr as (Fh & Fr & Fo & Fl & Fp & Fc & Ft).
    destruct (IH (S k) s1 fuel) as (s' & E & Hun' & Hfr' & Hdet').
    { eapply attached_transfer; [exact Hrest| | | |].
      - intros j _. apply links_same_eq. by rewrite Hls1.
      - intros n0 ob0 l Hob0 Ht0 Hl. apply Fo; [done|].
        intros l' Hl'. rewrite Hl' in Ht0. injection Ht0 as <-.
        rewrite not_elem_of_cons. split; [|apply not_elem_of_nil].
        intros ->. done.
      - intros l Hl. apply Fh. rewrite not_elem_of_cons. split; [|apply not_elem_of_nil].
        intros ->. done.
      - intros p l Hl. apply Fr. rewrite not_elem_of_cons. split; [|apply not_elem_of_nil].
        intros ->. done. }
    { done. }
    { simpl. lia. }
    { simpl in *. lia. }
    exists s'. split; [exact E|].
    pose proof Hfr' as (Fh' & Fr' & Fo' & Fl' & Fp' & Fc' & Ft').
    split; [|split].
    + cbn [restored_levels unobserved lv_object lv_part lv_original].
      rewrite Fh', Fr' by done. rewrite Hheap1, lookup_insert_eq.
      split; [done|]. split; [done|]. split; [done|].
      exact Hun'.
    + apply (detach_frame_trans [lv_object lv] _ s s1 s'); [|exact Hfr'].
      by repeat split.
    + split; [|exact Hdet'].
      exists lk. rewrite Fl', Hls1. do 5 (split; [done|]).
      rewrite H5. exists ob1. split; [|by rewrite Hcb1].
      apply Fo'; [done|]. intros l Hl. rewrite Ht1 in Hl. by injection Hl as <-.
Qed.

Lemma index_of_lt {A} `{EqDecision A} (x : A) (l : list A) i :
  index_of x l = Some i → (i < length l)%nat.
Proof.
  revert i. induction l as [|y l IH]; intros i Hi; [done|].
  simpl in Hi. destruct (decide (y = x)); [injection Hi as <-; simpl; lia|].
  destruct (index_of x l) as [j|]; [|done]. injection Hi as <-.
  specialize (IH j eq_refl). simpl. lia.
Qed.

Section deep_unobserve.
Variables (this l0 k0 : nat) (pre : list level) (lz : level).
Abbreviation dbound' := (deep_bound this l0 k0 (pre ++ [lz])).

Lemma deep_unobserve_at fuel fs f i v s :
  dbound' fs v s →
  index_of f fs = Some i →
  (1 < length fs)%nat →
  ∃ s', Path_unobserve fuel this (VObj l0) f s = Ok true s'
        ∧ dbound' (delete i fs) v s' ∧ trace s' = trace s ∧ heap s' = heap s
        ∧ cells s' = cells s.
Proof.
  intros Hb Hi Hlen.
  pose proof (deep_bound_last _ _ _ _ _ _ _ _ Hb)
    as (lk & n & x & Hlk & H1 & H2 & H3 & H4 & H5 & Hob & _).
  pose proof Hb as (_ & (pa & Hpa & Hpath & Hobs) & (lk0 & Hlk0 & C1 & C2 & C3) & _).
  assert (delete i fs ≠ []) as Hne.
  { intros Heq. apply (f_equal length) in Heq.
    rewrite length_delete in Heq by (apply lookup_lt_is_Some_2; by eapply index_of_lt).
    simpl in Heq. lia. }
  unfold Path_unobserve. cbn [truthy negb]. rewrite bind_run. unfold the_path at 1.
  rewrite Hpa. unfold WeakMap_get. cbn [ref_of mbind option_bind]. rewrite Hobs.
  rewrite bind_run. unfold the_link at 1. rewrite Hlk0, C1, Hi.
  rewrite bool_decide_eq_false_2 by done.
  unfold update_link, modify, mbind, M_bind, mret, M_ret.
  eexists. split; [reflexivity|]. split; [|done].
  eapply (deep_bound_update _ _ _ _ _ _ _ _ v _ _ n Hb); try done; [eauto| |].
  - cbn [observer_store with_link_store]. symmetry.
    eapply alter_id_at; [exact Hob|done].
  - cbn [link_store with_link_store]. apply list_alter_ext; [|done].
    intros lk' Hlk'. rewrite Hlk0 in Hlk'. injection Hlk' as <-.
    by destruct lk0; cbn in *; subst.
Qed.

Lemma deep_unobserve_last fuel f v s :
  dbound' [f] v s →
  (S (length pre) ≤ fuel)%nat →
  ∃ s', Path_unobserve fuel this (VObj l0) f s = Ok true s'
        ∧ unobserved s' (restored_levels (pre ++ [lz]) v) v
        ∧ (∀ l, l ∉ lv_object <$> (pre ++ [lz]) → heap s' !! l = heap s !! l)
        ∧ (∃ pa, path_store s' !! this = Some pa
                 ∧ p_path pa = lv_part <$> (pre ++ [lz])
                 ∧ p_observed pa !! l0 = None)
        ∧ trace s' = trace s
        ∧ cells s' = cells s.
Proof.
  intros Hb Hfuel.
  pose proof Hb as (_ & (pa & Hpa & Hpath & Hobs) & (lk0 & Hlk0 & C1 & C2 & C3)
                    & Hatt & Hnd).
  set (sa := with_link_store (alter (set_lk_callbacks []) k0 (link_store s)) s).
  assert (attached false sa this (VObj l0) k0 (pre ++ [lz]) v) as Hatt'.
  { eapply attached_transfer; [exact Hatt| | | |]; try done.
    intros j _. eapply links_same_alter; [reflexivity|]. by intros []. }
  destruct (Link_detach_chain this (VObj l0) v (pre ++ [lz]) k0 sa fuel Hatt' Hnd)
    as (s' & E & Hun & (Fh & Fr & Fo & Fl & Fp & Fc & Ft) & _).
  { rewrite length_app. simpl. lia. }
  { rewrite length_app. simpl. lia. }
  unfold Path_unobserve. cbn [truthy negb]. rewrite bind_run. unfold the_path at 1.
  rewrite Hpa. unfold WeakMap_get. cbn [ref_of mbind option_bind]. rewrite Hobs.
  rewrite bind_run. unfold the_link at 1. rewrite Hlk0, C1.
  cbn [index_of]. rewrite decide_True by done. cbn [delete list_delete].
  rewrite bool_decide_eq_true_2 by done.
  rewrite bind_run. unfold update_link at 1, modify at 1. fold sa.
  rewrite !bind_run, E.
  unfold observed_delete. cbn [ref_of]. unfold update_path, modify, mret, M_ret.
  eexists. split; [reflexivity|].
  split; [|split; [|split; [|done]]].
  - eapply unobserved_transfer; [exact Hun|done|done].
  - intros l Hl. cbn [heap with_path_store]. by rewrite Fh.
  - cbn [path_store with_path_store]. rewrite Fp. cbn [path_store sa with_link_store].
    eexists. rewrite list_lookup_alter_eq, Hpa. cbn [fmap option_fmap option_map].
    split; [reflexivity|]. cbn [p_path p_observed]. split; [done|].
    apply lookup_delete_eq.
Qed.

Lemma deep_unobserve_each fuel fs : ∀ v s,
  dbound' fs v s →
  (0 < length fs)%nat →
  (S (length pre) ≤ fuel)%nat →
  ∃ s', path_unobserve_each fuel this (VObj l0) fs s = Ok true s'
        ∧ unobserved s' (restored_levels (pre ++ [lz]) v) v
        ∧ (∀ l, l ∉ lv_object <$> (pre ++ [lz]) → heap s' !! l = heap s !! l)
        ∧ (∃ pa, path_store s' !! this = Some pa
                 ∧ p_path pa = lv_part <$> (pre ++ [lz])
                 ∧ p_observed pa !! l0 = None)
        ∧ trace s' = trace s
        ∧ cells s' = cells s.
Proof.
  induction fs as [|f [|g rest] IH]; intros v s HI Hlen Hfuel; [simpl in Hlen; lia| |].
  - destruct (deep_unobserve_last fuel f v s HI Hfuel) as (s1 & E1 & H1).
    exists s1. split; [|exact H1]. simpl. rewrite bind_run, E1. reflexivity.
  - destruct (deep_unobserve_at fuel (f :: g :: rest) f 0 v s HI)
      as (s1 & E1 & H1 & T1 & Hh1 & C1).
    { simpl. by rewrite decide_True. }
    { simpl. lia. }
    destruct (IH v s1 H1) as (s2 & E2 & Hun & Hh & Hp & T2 & C2); [simpl; lia | done |].
    exists s2. split; [|rewrite T2, T1, C2, C1, <- Hh1; done].
    change (path_unobserve_each fuel this (VObj l0) (f :: g :: rest))
      with (found ← Path_unobserve fuel this (VObj l0) f;
            others ← path_unobserve_each fuel this (VObj l0) (g :: rest);
            mret (found && others)).
    rewrite bind_run, E1, bind_run, E2. reflexivity.
Qed.
End deep_unobserve.

Lemma levels_split pre lz :
  ∃ lv rest, pre ++ [lz] = lv :: rest ∧ first_object pre lz = lv_object lv
             ∧ length rest = length pre.
Proof.
  destruct pre as [|a pre].
  - by exists lz, [].
  - exists a, (pre ++ [lz]). rewrite length_app. simpl. split; [done|]. split; [done|lia].
Qed.

(** The condition on the names, from the parts of a path to the levels. *)
Lemma own_names_parts (parts : list string) (lvs : list level) :
  Forall (fun part => inherited part = false) parts →
  parts = lv_part <$> lvs →
  own_names lvs.
Proof. intros H ->. by apply Forall_fmap in H. Qed.

Lemma own_names_fmap (lvs : list level) :
  own_names lvs ↔ Forall (fun part => inherited part = false) (lv_part <$> lvs).
Proof. unfold own_names. by rewrite Forall_fmap. Qed.

Section deep_path.
Variables (s : state) (this : nat) (pa : path) (pre : list level) (lz : level)
  (v0 : value).
Hypothesis Hpa : path_store s !! this = Some pa.
Hypothesis Hpath : p_path pa = lv_part <$> (pre ++ [lz]).
Hypothesis Hown : Forall (fun part => inherited part = false) (p_path pa).
Hypothesis Hobs : p_observed pa !! first_object pre lz = None.
Hypothesis Hun : unobserved s (pre ++ [lz]) v0.
Hypothesis Hnd : NoDup (lv_object <$> (pre ++ [lz])).

Lemma deep_observe_first_each fuel fs :
  (0 < length fs)%nat →
  (S (length pre) ≤ fuel)%nat →
  ∃ s1,
    path_observe_each fuel this (VObj (first_object pre lz)) fs s = Ok tt s1
    ∧ deep_bound this (first_object pre lz) (length (link_store s)) (pre ++ [lz]) fs v0 s1
    ∧ trace s1 = trace s
    ∧ cells s1 = cells s
    ∧ (∀ l, l ∉ lv_object <$> (pre ++ [lz]) →
            heap s1 !! l = heap s !! l ∧ ∀ p, registry s1 p l = registry s p l).
Proof.
  destruct fs as [|f rest]; [simpl; lia|]. intros _ Hfuel.
  destruct (levels_split pre lz) as (lv & more & Hsplit & Hfirst & Hlen).
  rewrite Hfirst in *.
  pose proof (own_names_parts _ _ Hown Hpath) as Hown'.
  revert Hpath Hun Hnd Hown'. rewrite !Hsplit. intros Hpath Hun Hnd Hown'.
  destruct (Path_observe_first_deep fuel s this pa lv more v0 f Hpa Hpath Hobs Hun Hown'
              Hnd)
    as (s1 & E1 & H1 & T1 & C1 & Hh1); [lia|].
  rewrite <- Hsplit in H1.
  destruct (deep_observe_each _ _ _ _ _ fuel rest _ _ _ H1)
    as (s2 & E2 & H2 & T2 & Hh2 & C2 & R2).
  rewrite Hsplit in H2.
  exists s2. split; [simpl; rewrite bind_run, E1; exact E2|].
  split; [exact H2|]. split; [congruence|]. split; [congruence|].
  intros l Hl. destruct (Hh1 l Hl) as [Hh Hr]. split; [by rewrite Hh2|].
  intros p. unfold registry at 1. rewrite R2. apply Hr.
Qed.
End deep_path.

Lemma unobserved_heap s lvs v lv :
  unobserved s lvs v → lv ∈ lvs → heap s !! lv_object lv = Some (lv_original lv).
Proof.
  induction lvs as [|lv' rest IH]; intros Hun Hin; [by apply elem_of_nil in Hin|].
  destruct Hun as (Hh & _ & _ & Hrest).
  apply elem_of_cons in Hin as [->|Hin]; [done|by apply IH].
Qed.

Lemma unobserved_registry s lvs v lv :
  unobserved s lvs v → lv ∈ lvs → registry s (lv_part lv) (lv_object lv) = None.
Proof.
  induction lvs as [|lv' rest IH]; intros Hun Hin; [by apply elem_of_nil in Hin|].
  destruct Hun as (_ & _ & Hr & Hrest).
  apply elem_of_cons in Hin as [->|Hin]; [done|by apply IH].
Qed.

(** [detach] gives the levels before the last one their original
    properties back exactly. *)
Lemma restored_levels_pre s pre lz v v' :
  unobserved s (pre ++ [lz]) v →
  restored_levels (pre ++ [lz]) v'
  = pre ++ [Level (lv_object lz) (lv_part lz)
              (<[lv_part lz := DataProperty v' true
                                 (initial_enumerable (lv_original lz !! lv_part lz)) true]>
                 (lv_original lz))].
Proof.
  induction pre as [|lv pre IH]; intros Hun; [done|].
  destruct Hun as (Hh & Hi & Hr & Hrest).
  rewrite <- !app_comm_cons. cbn [restored_levels]. rewrite (IH Hrest). f_equal.
  replace (level_value (pre ++ [lz]) v') with (level_value (pre ++ [lz]) v)
    by (by destruct pre).
  destruct lv as [l part orig]. cbn [lv_object lv_part lv_original] in *. f_equal.
  destruct (orig !! part) as [p|] eqn:Hp.
  - destruct p as [x [] e []|]; try discriminate. cbn in Hi. injection Hi as ->.
    by apply insert_id.
  - cbn in Hi. injection Hi as Hi. by destruct pre.
Qed.

(** A path of any length observed on nested objects reports an assignment
    to the property of the last object to every callback once, in
    registration order, with the new value first and the previous one
    second; an assignment of the value the property has calls nothing.
    [path.get], and following the parts from the root, give the current
    value before and after. *)
Theorem deep_path_notifies s this pa pre lz v0 fs v fuel :
  path_store s !! this = Some pa →
  p_path pa = lv_part <$> (pre ++ [lz]) →
  Forall (fun part => inherited part = false) (p_path pa) →
  p_observed pa !! first_object pre lz = None →
  unobserved s (pre ++ [lz]) v0 →
  NoDup (lv_object <$> (pre ++ [lz])) →
  (0 < length fs)%nat →
  (length pre + 3 ≤ fuel)%nat →
  ∃ s1 s2,
    path_observe_each fuel this (VObj (first_object pre lz)) fs s = Ok tt s1
    ∧ Path_get this (VObj (first_object pre lz)) s1 = Ok v0 s1
    ∧ walk (p_path pa) (VObj (first_object pre lz)) s1 = Ok v0 s1
    ∧ Js_set fuel (VObj (lv_object lz)) (lv_part lz) v s1 = Ok tt s2
    ∧ trace s2 = trace s ++ (if decide (v = v0) then [] else path_events fs v v0)
    ∧ Path_get this (VObj (first_object pre lz)) s2 = Ok v s2
    ∧ walk (p_path pa) (VObj (first_object pre lz)) s2 = Ok v s2.
Proof.
  intros Hpa Hpath Hown Hobs Hun Hnd Hfs Hfuel.
  destruct (deep_observe_first_each s this pa pre lz v0 Hpa Hpath Hown Hobs Hun Hnd fuel fs Hfs)
    as (s1 & E1 & H1 & T1 & _); [lia|].
  destruct (deep_assign _ _ _ _ _ fuel fs v0 v s1 H1) as (s2 & E2 & H2 & T2 & _); [lia|].
  exists s1, s2. rewrite Hpath.
  split; [exact E1|]. split; [by eapply deep_get|]. split; [by eapply deep_walk|].
  split; [exact E2|].
  split; [|split; [by eapply deep_get|by eapply deep_walk]].
  rewrite T2, T1. by destruct (decide (v0 = v)), (decide (v = v0)).
Qed.

Lemma deep_path_notifies_witness :
  (path_store abc_state !! 0%nat = Some (Path ["a"; "b"; "c"] ∅)
   ∧ Forall (fun part => inherited part = false) ["a"; "b"; "c"]
   ∧ unobserved abc_state (abc_levels ++ [abc_last]) (VNum 7)
   ∧ NoDup (lv_object <$> (abc_levels ++ [abc_last])))
  ∧ ∃ s1 s2,
    path_observe_each 5 0 (VObj (first_object abc_levels abc_last)) [7; 8]%nat abc_state
    = Ok tt s1
    ∧ Path_get 0 (VObj (first_object abc_levels abc_last)) s1 = Ok (VNum 7) s1
    ∧ walk (p_path (Path ["a"; "b"; "c"] ∅)) (VObj (first_object abc_levels abc_last)) s1
      = Ok (VNum 7) s1
    ∧ Js_set 5 (VObj (lv_object abc_last)) (lv_part abc_last) (VNum 5) s1 = Ok tt s2
    ∧ trace s2 = trace abc_state
                 ++ (if decide (VNum 5 = VNum 7) then []
                     else path_events [7; 8]%nat (VNum 5) (VNum 7))
    ∧ Path_get 0 (VObj (first_object abc_levels abc_last)) s2 = Ok (VNum 5) s2
    ∧ walk (p_path (Path ["a"; "b"; "c"] ∅)) (VObj (first_object abc_levels abc_last)) s2
      = Ok (VNum 5) s2.
Proof.
  assert (NoDup (lv_object <$> (abc_levels ++ [abc_last]))) as Hnd
    by (apply (bool_decide_unpack _); vm_compute; exact I).
  assert (unobserved abc_state (abc_levels ++ [abc_last]) (VNum 7)) as Hun
    by (simpl; repeat split; reflexivity).
  assert (Forall (fun part => inherited part = false) ["a"; "b"; "c"]) as Hown
    by (repeat constructor).
  split; [split; [reflexivity|split; [exact Hown|split; [exact Hun|exact Hnd]]]|].
  apply (deep_path_notifies abc_state 0 (Path ["a"; "b"; "c"] ∅) abc_levels abc_last
           (VNum 7) [7; 8]%nat (VNum 5) 5);
    [reflexivity | reflexivity | exact Hown | reflexivity | exact Hun | exact Hnd
    | simpl; lia | simpl; lia].
Defined.

(** [path.set(root, v, silent)] on an observed path of any length returns
    [true] and writes the property of the last object: [path.get] and
    following the parts from the root give [v] afterwards.  The callbacks
    are called as for an assignment, and not at all when [silent] is set. *)
Theorem deep_Path_set_writes_through s this pa pre lz v0 fs v silent fuel :
  path_store s !! this = Some pa →
  p_path pa = lv_part <$> (pre ++ [lz]) →
  Forall (fun part => inherited part = false) (p_path pa) →
  p_observed pa !! first_object pre lz = None →
  unobserved s (pre ++ [lz]) v0 →
  NoDup (lv_object <$> (pre ++ [lz])) →
  (0 < length fs)%nat →
  (length pre + 3 ≤ fuel)%nat →
  ∃ s1 s2,
    path_observe_each fuel this (VObj (first_object pre lz)) fs s = Ok tt s1
    ∧ Path_set fuel this (VObj (first_object pre lz)) v silent s1 = Ok true s2
    ∧ trace s2 = trace s ++ (if silent then []
                             else if decide (v = v0) then []
                             else path_events fs v v0)
    ∧ Path_get this (VObj (first_object pre lz)) s2 = Ok v s2
    ∧ walk (p_path pa) (VObj (first_object pre lz)) s2 = Ok v s2.
Proof.
  intros Hpa Hpath Hown Hobs Hun Hnd Hfs Hfuel.
  destruct (deep_observe_first_each s this pa pre lz v0 Hpa Hpath Hown Hobs Hun Hnd fuel fs Hfs)
    as (s1 & E1 & H1 & T1 & _); [lia|].
  destruct (deep_set _ _ _ _ _ fuel fs v0 v silent s1 H1) as (s2 & E2 & H2 & T2); [lia|].
  exists s1, s2. rewrite Hpath.
  split; [exact E1|]. split; [exact E2|].
  split; [|split; [by eapply deep_get|by eapply deep_walk]].
  rewrite T2, T1. destruct silent; [done|].
  by destruct (decide (v0 = v)), (decide (v = v0)).
Qed.

Lemma deep_Path_set_writes_through_witness :
  (path_store abc_state !! 0%nat = Some (Path ["a"; "b"; "c"] ∅)
   ∧ Forall (fun part => inherited part = false) ["a"; "b"; "c"]
   ∧ unobserved abc_state (abc_levels ++ [abc_last]) (VNum 7)
   ∧ NoDup (lv_object <$> (abc_levels ++ [abc_last])))
  ∧ ∃ s1 s2,
    path_observe_each 5 0 (VObj (first_object abc_levels abc_last)) [7; 8]%nat abc_state
    = Ok tt s1
    ∧ Path_set 5 0 (VObj (first_object abc_levels abc_last)) (VStr "test") true s1
      = Ok true s2
    ∧ trace s2 = trace abc_state
                 ++ (if true then []
                     else if decide (VStr "test" = VNum 7) then []
                     else path_events [7; 8]%nat (VStr "test") (VNum 7))
    ∧ Path_get 0 (VObj (first_object abc_levels abc_last)) s2 = Ok (VStr "test") s2
    ∧ walk (p_path (Path ["a"; "b"; "c"] ∅)) (VObj (first_object abc_levels abc_last)) s2
      = Ok (VStr "test") s2.
Proof.
  assert (NoDup (lv_object <$> (abc_levels ++ [abc_last]))) as Hnd
    by (apply (bool_decide_unpack _); vm_compute; exact I).
  assert (unobserved abc_state (abc_levels ++ [abc_last]) (VNum 7)) as Hun
    by (simpl; repeat split; reflexivity).
  assert (Forall (fun part => inherited part = false) ["a"; "b"; "c"]) as Hown
    by (repeat constructor).
  split; [split; [reflexivity|split; [exact Hown|split; [exact Hun|exact Hnd]]]|].
  apply (deep_Path_set_writes_through abc_state 0 (Path ["a"; "b"; "c"] ∅) abc_levels
           abc_last (VNum 7) [7; 8]%nat (VStr "test") true 5);
    [reflexivity | reflexivity | exact Hown | reflexivity | exact Hun | exact Hnd
    | simpl; lia | simpl; lia].
Defined.

(** Observing a path of any length with any callbacks, assigning the
    property of the last object, and removing every callback again: each
    [unobserve] returns [true]; every object but the last has the properties
    it had, and the last has its property as a writable, configurable data
    property with the original enumerability and the assigned value; the
    path and the registry have no entry for the objects left, and a later
    assignment calls nothing. *)
Theorem deep_unobserve_all_restores s this pa pre lz v0 fs v w fuel :
  path_store s !! this = Some pa →
  p_path pa = lv_part <$> (pre ++ [lz]) →
  Forall (fun part => inherited part = false) (p_path pa) →
  p_observed pa !! first_object pre lz = None →
  unobserved s (pre ++ [lz]) v0 →
  NoDup (lv_object <$> (pre ++ [lz])) →
  (0 < length fs)%nat →
  (length pre + 3 ≤ fuel)%nat →
  ∃ s1 s2,
    (path_observe_each fuel this (VObj (first_object pre lz)) fs ;;
     Js_set fuel (VObj (lv_object lz)) (lv_part lz) v ;;
     path_unobserve_each fuel this (VObj (first_object pre lz)) fs) s = Ok true s1
    ∧ heap s1
      = <[lv_object lz :=
            <[lv_part lz := DataProperty v true
                              (initial_enumerable (lv_original lz !! lv_part lz)) true]>
              (lv_original lz)]> (heap s)
    ∧ (∃ pa', path_store s1 !! this = Some pa' ∧ p_path pa' = p_path pa
              ∧ p_observed pa' !! first_object pre lz = None)
    ∧ Forall (fun lv => registry s1 (lv_part lv) (lv_object lv) = None) (pre ++ [lz])
    ∧ trace s1 = trace s ++ (if decide (v = v0) then [] else path_events fs v v0)
    ∧ Js_set fuel (VObj (lv_object lz)) (lv_part lz) w s1 = Ok tt s2
    ∧ trace s2 = trace s1.
Proof.
  intros Hpa Hpath Hown Hobs Hun Hnd Hfs Hfuel.
  destruct (deep_observe_first_each s this pa pre lz v0 Hpa Hpath Hown Hobs Hun Hnd fuel fs Hfs)
    as (s1 & E1 & H1 & T1 & C1 & Hh1); [lia|].
  destruct (deep_assign _ _ _ _ _ fuel fs v0 v s1 H1) as (s2 & E2 & H2 & T2 & Hh2); [lia|].
  destruct (deep_unobserve_each _ _ _ _ _ fuel fs v s2 H2 Hfs)
    as (s3 & E3 & Hun3 & Hh3 & Hp3 & T3 & C3); [lia|].
  rewrite (restored_levels_pre s pre lz v0 v Hun) in Hun3.
  set (lz' := Level (lv_object lz) (lv_part lz)
                (<[lv_part lz := DataProperty v true
                     (initial_enumerable (lv_original lz !! lv_part lz)) true]>
                   (lv_original lz))) in *.
  assert (heap s3 !! lv_object lz = Some (lv_original lz')) as Hz.
  { apply (unobserved_heap s3 (pre ++ [lz']) v lz' Hun3).
    apply elem_of_app. right. apply list_elem_of_here. }
  assert (heap s3 = <[lv_object lz := lv_original lz']> (heap s)) as Hheap.
  { apply map_eq. intros l. destruct (decide (l = lv_object lz)) as [->|Hne].
    - by rewrite lookup_insert_eq.
    - rewrite lookup_insert_ne by done.
      destruct (decide (l ∈ lv_object <$> pre)) as [Hin|Hnin].
      + apply list_elem_of_fmap in Hin as (lv & -> & Hin).
        rewrite (unobserved_heap s3 (pre ++ [lz']) v lv Hun3)
          by (apply elem_of_app; by left).
        rewrite (unobserved_heap s (pre ++ [lz]) v0 lv Hun)
          by (apply elem_of_app; by left).
        done.
      + assert (l ∉ lv_object <$> (pre ++ [lz])) as Hout.
        { rewrite fmap_app, not_elem_of_app. split; [done|].
          rewrite fmap_cons, not_elem_of_cons. split; [done|apply not_elem_of_nil]. }
        rewrite Hh3, Hh2 by done. by apply Hh1. }
  exists s3. eexists.
  split; [rewrite !bind_run, E1, bind_run, E2; exact E3|].
  split; [exact Hheap|].
  split; [destruct Hp3 as (pa' & ? & ? & ?); exists pa'; by rewrite Hpath|].
  split.
  { apply Forall_forall. intros lv Hin.
    apply elem_of_app in Hin as [Hin|Hin].
    - apply (unobserved_registry s3 (pre ++ [lz']) v lv Hun3). apply elem_of_app. by left.
    - apply list_elem_of_singleton in Hin as ->.
      apply (unobserved_registry s3 (pre ++ [lz']) v lz' Hun3).
      apply elem_of_app. right. apply list_elem_of_here. }
  split; [rewrite T3, T2, T1; by destruct (decide (v0 = v)), (decide (v = v0))|].
  unfold Js_set, own_property, gets. cbn [ref_of]. rewrite bind_run, Hz.
  cbn [mbind option_bind lz' lv_original]. rewrite lookup_insert_eq.
  unfold modify. split; [reflexivity|done].
Qed.

Lemma deep_unobserve_all_restores_witness :
  (path_store abc_state !! 0%nat = Some (Path ["a"; "b"; "c"] ∅)
   ∧ Forall (fun part => inherited part = false) ["a"; "b"; "c"]
   ∧ unobserved abc_state (abc_levels ++ [abc_last]) (VNum 7)
   ∧ NoDup (lv_object <$> (abc_levels ++ [abc_last])))
  ∧ ∃ s1 s2,
    (path_observe_each 5 0 (VObj (first_object abc_levels abc_last)) [7; 8; 7]%nat ;;
     Js_set 5 (VObj (lv_object abc_last)) (lv_part abc_last) (VNum 5) ;;
     path_unobserve_each 5 0 (VObj (first_object abc_levels abc_last)) [7; 8; 7]%nat)
      abc_state = Ok true s1
    ∧ heap s1
      = <[lv_object abc_last :=
            <[lv_part abc_last :=
                DataProperty (VNum 5) true
                  (initial_enumerable (lv_original abc_last !! lv_part abc_last)) true]>
              (lv_original abc_last)]> (heap abc_state)
    ∧ (∃ pa', path_store s1 !! 0%nat = Some pa'
              ∧ p_path pa' = p_path (Path ["a"; "b"; "c"] ∅)
              ∧ p_observed pa' !! first_object abc_levels abc_last = None)
    ∧ Forall (fun lv => registry s1 (lv_part lv) (lv_object lv) = None)
        (abc_levels ++ [abc_last])
    ∧ trace s1 = trace abc_state
                 ++ (if decide (VNum 5 = VNum 7) then []
                     else path_events [7; 8; 7]%nat (VNum 5) (VNum 7))
    ∧ Js_set 5 (VObj (lv_object abc_last)) (lv_part abc_last) (VNum 6) s1 = Ok tt s2
    ∧ trace s2 = trace s1.
Proof.
  assert (NoDup (lv_object <$> (abc_levels ++ [abc_last]))) as Hnd
    by (apply (bool_decide_unpack _); vm_compute; exact I).
  assert (unobserved abc_state (abc_levels ++ [abc_last]) (VNum 7)) as Hun
    by (simpl; repeat split; reflexivity).
  assert (Forall (fun part => inherited part = false) ["a"; "b"; "c"]) as Hown
    by (repeat constructor).
  split; [split; [reflexivity|split; [exact Hown|split; [exact Hun|exact Hnd]]]|].
  apply (deep_unobserve_all_restores abc_state 0 (Path ["a"; "b"; "c"] ∅) abc_levels
           abc_last (VNum 7) [7; 8; 7]%nat (VNum 5) (VNum 6) 5);
    [reflexivity | reflexivity | exact Hown | reflexivity | exact Hun | exact Hnd
    | simpl; lia | simpl; lia].
Defined.

(** Removing one callback of several from an observed path of any length
    returns [true] and leaves the others registered: the next assignment to
    the property of the last object calls them, in their order, and not the
    removed one. *)
Theorem path_unobserve_one_keeps_the_others s this pa pre lz v0 fs f i v fuel :
  path_store s !! this = Some pa →
  p_path pa = lv_part <$> (pre ++ [lz]) →
  Forall (fun part => inherited part = false) (p_path pa) →
  p_observed pa !! first_object pre lz = None →
  unobserved s (pre ++ [lz]) v0 →
  NoDup (lv_object <$> (pre ++ [lz])) →
  index_of f fs = Some i →
  (1 < length fs)%nat →
  v ≠ v0 →
  (length pre + 3 ≤ fuel)%nat →
  ∃ s',
    (path_observe_each fuel this (VObj (first_object pre lz)) fs ;;
     removed ← Path_unobserve fuel this (VObj (first_object pre lz)) f;
     Js_set fuel (VObj (lv_object lz)) (lv_part lz) v ;;
     mret removed) s = Ok true s'
    ∧ trace s' = trace s ++ path_events (delete i fs) v v0.
Proof.
  intros Hpa Hpath Hown Hobs Hun Hnd Hi Hlen Hne Hfuel.
  destruct (deep_observe_first_each s this pa pre lz v0 Hpa Hpath Hown Hobs Hun Hnd fuel fs)
    as (s1 & E1 & H1 & T1 & _); [lia | lia |].
  destruct (deep_unobserve_at _ _ _ _ _ fuel fs f i v0 s1 H1 Hi Hlen)
    as (s2 & E2 & H2 & T2 & _).
  destruct (deep_assign _ _ _ _ _ fuel _ v0 v s2 H2) as (s3 & E3 & H3 & T3 & _); [lia|].
  exists s3. split.
  - rewrite bind_run, E1, bind_run, E2, bind_run, E3. reflexivity.
  - rewrite T3, T2, T1. by rewrite decide_False by congruence.
Qed.

Lemma path_unobserve_one_keeps_the_others_witness :
  (path_store abc_state !! 0%nat = Some (Path ["a"; "b"; "c"] ∅)
   ∧ Forall (fun part => inherited part = false) ["a"; "b"; "c"]
   ∧ unobserved abc_state (abc_levels ++ [abc_last]) (VNum 7)
   ∧ NoDup (lv_object <$> (abc_levels ++ [abc_last]))
   ∧ index_of 8%nat [7; 8; 9]%nat = Some 1%nat)
  ∧ ∃ s',
    (path_observe_each 5 0 (VObj (first_object abc_levels abc_last)) [7; 8; 9]%nat ;;
     removed ← Path_unobserve 5 0 (VObj (first_object abc_levels abc_last)) 8;
     Js_set 5 (VObj (lv_object abc_last)) (lv_part abc_last) (VNum 5) ;;
     mret removed) abc_state = Ok true s'
    ∧ trace s' = trace abc_state
                 ++ path_events (delete 1%nat [7; 8; 9]%nat) (VNum 5) (VNum 7).
Proof.
  assert (NoDup (lv_object <$> (abc_levels ++ [abc_last]))) as Hnd
    by (apply (bool_decide_unpack _); vm_compute; exact I).
  assert (unobserved abc_state (abc_levels ++ [abc_last]) (VNum 7)) as Hun
    by (simpl; repeat split; reflexivity).
  assert (Forall (fun part => inherited part = false) ["a"; "b"; "c"]) as Hown
    by (repeat constructor).
  split; [split; [reflexivity|split; [exact Hown|split; [exact Hun
    |split; [exact Hnd|reflexivity]]]]|].
  apply (path_unobserve_one_keeps_the_others abc_state 0 (Path ["a"; "b"; "c"] ∅)
           abc_levels abc_last (VNum 7) [7; 8; 9]%nat 8%nat 1%nat (VNum 5) 5);
    [reflexivity | reflexivity | exact Hown | reflexivity | exact Hun | exact Hnd | reflexivity
    | simpl; lia | discriminate | simpl; lia].
Defined.

(** [path.unobserve] returns [false] and changes nothing when the path does
    not observe the root, and when it does but the function is not one of
    the callbacks registered for the root. *)
Theorem Path_unobserve_unknown s this pa pre lz v0 fs f g fuel :
  path_store s !! this = Some pa →
  p_path pa = lv_part <$> (pre ++ [lz]) →
  Forall (fun part => inherited part = false) (p_path pa) →
  p_observed pa !! first_object pre lz = None →
  unobserved s (pre ++ [lz]) v0 →
  NoDup (lv_object <$> (pre ++ [lz])) →
  (0 < length fs)%nat →
  index_of f fs = None →
  (S (length pre) ≤ fuel)%nat →
  Path_unobserve fuel this (VObj (first_object pre lz)) g s = Ok false s
  ∧ ∃ s1, path_observe_each fuel this (VObj (first_object pre lz)) fs s = Ok tt s1
          ∧ Path_unobserve fuel this (VObj (first_object pre lz)) f s1 = Ok false s1.
Proof.
  intros Hpa Hpath Hown Hobs Hun Hnd Hfs Hi Hfuel. split.
  - unfold Path_unobserve. cbn [truthy negb]. rewrite bind_run. unfold the_path.
    rewrite Hpa. unfold WeakMap_get. cbn [ref_of mbind option_bind]. by rewrite Hobs.
  - destruct (deep_observe_first_each s this pa pre lz v0 Hpa Hpath Hown Hobs Hun Hnd fuel fs)
      as (s1 & E1 & H1 & _); [lia | lia |].
    exists s1. split; [exact E1|].
    destruct H1 as (_ & (pa' & Hpa' & _ & Hobs') & (lk0 & Hlk0 & C1 & _) & _).
    unfold Path_unobserve. cbn [truthy negb]. rewrite bind_run. unfold the_path.
    rewrite Hpa'. unfold WeakMap_get. cbn [ref_of mbind option_bind]. rewrite Hobs'.
    rewrite bind_run. unfold the_link. by rewrite Hlk0, C1, Hi.
Qed.

Lemma Path_unobserve_unknown_witness :
  (path_store abc_state !! 0%nat = Some (Path ["a"; "b"; "c"] ∅)
   ∧ Forall (fun part => inherited part = false) ["a"; "b"; "c"]
   ∧ unobserved abc_state (abc_levels ++ [abc_last]) (VNum 7)
   ∧ NoDup (lv_object <$> (abc_levels ++ [abc_last]))
   ∧ index_of 5%nat [7; 8]%nat = None)
  ∧ Path_unobserve 3 0 (VObj (first_object abc_levels abc_last)) 7 abc_state
    = Ok false abc_state
  ∧ ∃ s1, path_observe_each 3 0 (VObj (first_object abc_levels abc_last)) [7; 8]%nat
            abc_state = Ok tt s1
          ∧ Path_unobserve 3 0 (VObj (first_object abc_levels abc_last)) 5 s1
            = Ok false s1.
Proof.
  assert (NoDup (lv_object <$> (abc_levels ++ [abc_last]))) as Hnd
    by (apply (bool_decide_unpack _); vm_compute; exact I).
  assert (unobserved abc_state (abc_levels ++ [abc_last]) (VNum 7)) as Hun
    by (simpl; repeat split; reflexivity).
  assert (Forall (fun part => inherited part = false) ["a"; "b"; "c"]) as Hown
    by (repeat constructor).
  split; [split; [reflexivity|split; [exact Hown|split; [exact Hun
    |split; [exact Hnd|reflexivity]]]]|].
  apply (Path_unobserve_unknown abc_state 0 (Path ["a"; "b"; "c"] ∅)
           abc_levels abc_last (VNum 7) [7; 8]%nat 5%nat 7%nat 3);
    [reflexivity | reflexivity | exact Hown | reflexivity | exact Hun | exact Hnd | simpl; lia
    | reflexivity | simpl; lia].
Defined.

Lemma detached_parts s this root lvs : ∀ lvs' k,
  lv_part <$> lvs' = lv_part <$> lvs →
  detached s this root k lvs →
  detached s this root k lvs'.
Proof.
  induction lvs as [|lv rest IH]; intros [|lv' rest'] k Hparts Hdet; try done.
  rewrite !fmap_cons in Hparts. injection Hparts as Hp Hrest.
  destruct Hdet as ((lk & Hlk & H1 & H2 & H3 & H4 & Hs) & Hdet). split.
  - exists lk. rewrite Hp. do 4 (split; [done|]). split; [|done].
    rewrite H4. destruct rest, rest'; done.
  - by apply IH.
Qed.

(** [attach] on a link that is attached detaches the chain first. *)
Lemma Link_attach_after_detach fuel k target s sd lk n :
  link_store s !! k = Some lk →
  lk_observer lk = Some n →
  Link_detach fuel k s = Ok tt sd →
  link_store sd = link_store s →
  Link_detach fuel k sd = Ok tt sd →
  Link_attach fuel k target s = Link_attach fuel k target sd.
Proof.
  intros Hlk Hn Hd Hls Hd'. destruct fuel as [|fuel]; [done|].
  cbn [Link_attach]. rewrite !bind_run. unfold the_link.
  rewrite Hls, Hlk, Hn. rewrite !bind_run, Hd, Hd'. reflexivity.
Qed.

(** Attaching an attached chain to other objects: the levels it was
    attached to get their data properties back, and the chain is attached
    along the new levels. *)
Lemma Link_reattach_chain this root v v' old new k s fuel :
  attached false s this root k old v →
  unobserved s new v' →
  own_names new →
  lv_part <$> new = lv_part <$> old →
  NoDup (lv_object <$> (old ++ new)) →
  (0 < length old)%nat →
  (length old ≤ fuel)%nat →
  ∃ s', Link_attach fuel k (VObj (lv_object (hd (Level 0 EmptyString ∅) new))) s = Ok v' s'
        ∧ attached false s' this root k new v'
        ∧ unobserved s' (restored_levels old v) v
        ∧ (∀ l, l ∉ lv_object <$> (old ++ new) → heap s' !! l = heap s !! l)
        ∧ (∀ p l, l ∉ lv_object <$> (old ++ new) → registry s' p l = registry s p l)
        ∧ (∀ n ob, observer_store s !! n = Some ob →
                   (∀ l, ob_target ob = Some (VObj l) → l ∉ lv_object <$> old) →
                   observer_store s' !! n = Some ob)
        ∧ links_kept k s s'
        ∧ path_store s' = path_store s ∧ cells s' = cells s ∧ trace s' = trace s.
Proof.
  intros Hatt Hun Hown Hparts Hnd Hlen Hfuel.
  rewrite fmap_app in Hnd. apply NoDup_app in Hnd as (Hnd_old & Hdisj & Hnd_new).
  destruct (Link_detach_chain this root v old k s fuel Hatt Hnd_old Hlen Hfuel)
    as (sd & Ed & Hres & (Fh & Fr & Fo & Fl & Fp & Fc & Ft) & Hdet).
  assert (length new = length old) as Hlen'.
  { by rewrite <- (length_fmap lv_part new), Hparts, length_fmap. }
  destruct new as [|lv more]; [simpl in Hlen'; lia|].
  destruct old as [|lv0 old']; [simpl in Hlen; lia|].
  destruct Hatt as [(lk & n & x & Hlk & H1 & H2 & H3 & H4 & H5 & _) _].
  rewrite (Link_attach_after_detach fuel k _ s sd lk n Hlk H5 Ed Fl).
  2:{ eapply Link_detach_stale; [exact Hdet|simpl; lia|done]. }
  assert (∀ l, l ∈ lv_object <$> (lv :: more) → l ∉ lv_object <$> (lv0 :: old')) as Hd2.
  { intros l Hl Hl'. by apply (Hdisj l). }
  destruct (Link_attach_chain this root v' [] more lv k sd fuel)
    as (sa & Ea & Hatt' & Hfr & Hlk' & _).
  { rewrite app_nil_r. eapply detached_parts; [exact Hparts|exact Hdet]. }
  { eapply unobserved_transfer; [exact Hun| |].
    - intros l Hl. apply Fh. by apply Hd2.
    - intros p l Hl. apply Fr. by apply Hd2. }
  { done. }
  { done. }
  { done. }
  { simpl in *. lia. }
  cbn [resolved has_more] in *.
  destruct Hfr as (Ah & Ar & Ao & Ap & Ac & At).
  exists sa. cbn [hd]. split; [exact Ea|]. split; [exact Hatt'|]. split.
  { eapply unobserved_transfer; [exact Hres| |].
    - intros l Hl. rewrite restored_levels_objects in Hl. apply Ah.
      intros Hl'. by apply (Hdisj l).
    - intros p l Hl. rewrite restored_levels_objects in Hl. apply Ar.
      intros Hl'. by apply (Hdisj l). }
  split.
  { intros l Hl. rewrite fmap_app, not_elem_of_app in Hl. destruct Hl.
    rewrite Ah by done. by apply Fh. }
  split.
  { intros p l Hl. rewrite fmap_app, not_elem_of_app in Hl. destruct Hl.
    rewrite Ar by done. by apply Fr. }
  split.
  { intros m ob Hob Ht. apply Ao. by apply Fo. }
  split.
  { destruct Hlk' as (Hb & Hk). split.
    - intros j Hj. rewrite Hb by done. by rewrite Fl.
    - intros j lk' Hlk''. apply Hk. by rewrite Fl. }
  repeat split; congruence.
Qed.

Lemma NoDup_objects_middle pre lv rest l :
  NoDup (lv_object <$> (pre ++ lv :: rest)) →
  l ∈ lv_object <$> pre ∨ l ∈ lv_object <$> rest →
  l ≠ lv_object lv.
Proof.
  rewrite fmap_app, fmap_cons. intros Hnd Hl ->.
  apply NoDup_app in Hnd as (_ & Hd & Hnd). apply NoDup_cons in Hnd as [Hn _].
  destruct Hl as [Hl|Hl]; [|done]. apply (Hd _ Hl), list_elem_of_here.
Qed.

Lemma NoDup_objects_pre_rest pre lv rest l :
  NoDup (lv_object <$> (pre ++ lv :: rest)) →
  l ∈ lv_object <$> pre → l ∉ lv_object <$> rest.
Proof.
  rewrite fmap_app, fmap_cons. intros Hnd Hl Hl'.
  apply NoDup_app in Hnd as (_ & Hd & _). apply (Hd _ Hl).
  by apply list_elem_of_further.
Qed.

(** The levels up to one that is not the last are attached, with more links
    after them. *)
Lemma attached_prefix more s this root v pre lv suf : ∀ k,
  attached more s this root k (pre ++ lv :: suf) v →
  (0 < length suf)%nat →
  attached true s this root k (pre ++ [lv]) (level_value suf v).
Proof.
  induction pre as [|lv0 pre IH]; intros k H Hsuf.
  - destruct H as [Hlv _]. split; [|done]. destruct suf; [simpl in Hsuf; lia|done].
  - destruct H as [Hlv H]. split; [|by apply IH].
    replace (level_value (pre ++ [lv]) (level_value suf v))
      with (level_value (pre ++ lv :: suf) v) by (by destruct pre).
    replace (next_link true k (pre ++ [lv]))
      with (next_link more k (pre ++ lv :: suf)) by (by destruct pre).
    done.
Qed.

(** Assigning an object to the property of a level that has links after it,
    when [attach] on the next link moves the rest of the chain to the levels
    [new]: the path reports the value it resolves to now, and the chain is
    bound along the new levels. *)
Lemma chain_moved this l0 k0 pre lv new fs vp u v' s sa pa lk0 fuel :
  head (lv_object <$> (pre ++ [lv])) = Some l0 →
  path_store s !! this = Some pa →
  p_observed pa !! l0 = Some k0 →
  p_path pa = lv_part <$> (pre ++ lv :: new) →
  link_store s !! k0 = Some lk0 →
  lk_callbacks lk0 = fs →
  lk_value lk0 = vp →
  lk_last lk0 = Some (k0 + length (pre ++ lv :: new) - 1)%nat →
  attached true s this (VObj l0) k0 (pre ++ [lv]) u →
  NoDup (lv_object <$> (pre ++ lv :: new)) →
  (0 < length new)%nat →
  u ≠ VObj (lv_object (hd (Level 0 EmptyString ∅) new)) →
  (1 ≤ fuel)%nat →
  Link_attach fuel (S (k0 + length pre)) (VObj (lv_object (hd (Level 0 EmptyString ∅) new))) s
  = Ok v' sa →
  attached false sa this (VObj l0) (S (k0 + length pre)) new v' →
  (∀ l, l ∈ lv_object <$> (pre ++ [lv]) →
        heap sa !! l = heap s !! l ∧ ∀ p, registry sa p l = registry s p l) →
  (∀ n ob l, observer_store s !! n = Some ob →
             ob_target ob = Some (VObj l) → l ∈ lv_object <$> (pre ++ [lv]) →
             observer_store sa !! n = Some ob) →
  (∀ j, (j < S (k0 + length pre))%nat → link_store sa !! j = link_store s !! j) →
  path_store sa = path_store s →
  trace sa = trace s →
  ∃ sf, Js_set (S (S fuel)) (VObj (lv_object lv)) (lv_part lv)
          (VObj (lv_object (hd (Level 0 EmptyString ∅) new))) s = Ok tt sf
        ∧ deep_bound this l0 k0 (pre ++ lv :: new) fs v' sf
        ∧ heap sf = heap sa
        ∧ observers sf = observers sa
        ∧ trace sf = trace s ++ (if decide (vp = v') then [] else path_events fs v' vp).
Proof.
  intros Hhd Hpa Hobs Hpath Hlk0 C1 C2 C3 Hatt Hnd Hnew_ne Hne Hfuel Ea Hnew Fhr Fo Fb Fp Ft.
  pose proof (attached_suffix _ _ _ _ _ _ _ _ _ Hatt) as [Hlv _].
  set (ki := (k0 + length pre)%nat) in *.
  set (l' := lv_object (hd (Level 0 EmptyString ∅) new)) in *.
  cbn [level_value next_link] in Hlv.
  pose proof Hlv as (lk & n & x & Hlk & H1 & H2 & H3 & H4 & H5 & Hob & Hi & Hr & Hh).
  assert (lv_object lv ∈ lv_object <$> (pre ++ [lv])) as Hlv_in.
  { rewrite fmap_app. apply elem_of_app. right. rewrite fmap_cons. apply list_elem_of_here. }
  assert (observer_store sa !! n
          = Some (Observer [CbLink ki] u (Some (VObj (lv_object lv))) (Some (lv_part lv))
                    (Some (kept_definition x
                             (initial_enumerable (lv_original lv !! lv_part lv))
                             (kept_configurable (lv_original lv !! lv_part lv))))))
    as Hob_a by (by eapply Fo).
  assert (k0 ≤ ki)%nat as Hk0 by (unfold ki; lia).
  assert (∃ sp, Path_change this (VObj l0) v' sa = Ok tt sp
                ∧ heap sp = heap sa ∧ observers sp = observers sa
                ∧ observer_store sp = observer_store sa ∧ path_store sp = path_store sa
                ∧ link_store sp
                  = alter (fun lk => set_lk_callbacks fs (set_lk_value v' lk)) k0
                      (link_store sa)
                ∧ trace sp = trace s ++ (if decide (vp = v') then []
                                         else path_events fs v' vp))
    as (sp & Ep & Ph & Pr & Po & Pp & Pl & Pt).
  { assert (link_store sa !! k0 = Some lk0) as Hlk0a by (rewrite Fb by lia; done).
    rewrite (Path_change_run sa this pa (VObj l0) k0 lk0 v'); [|by rewrite Fp|done|done].
    rewrite C2, C1. destruct (decide (vp = v')) as [<-|Hv].
    - exists sa. do 5 (split; [done|]). split; [|by rewrite app_nil_r].
      symmetry. eapply alter_id_at; [exact Hlk0a|]. destruct lk0; cbn in *; by subst.
    - eexists. split; [reflexivity|]. cbn.
      do 4 (split; [done|]). split; [|by rewrite Ft].
      apply list_alter_ext; [|done]. intros lk' Hlk'. rewrite Hlk0a in Hlk'.
      injection Hlk' as <-. destruct lk0; cbn in *; by subst. }
  set (sf := with_observer_store (alter (set_value (VObj l')) n (observer_store sp)) sp).
  exists sf. split; [|split; [|split; [by cbn; rewrite Ph|split; [by cbn; rewrite Pr|done]]]].
  - unfold Js_set, own_property, gets. cbn [ref_of]. rewrite bind_run, Hh.
    cbn [mbind option_bind]. rewrite lookup_insert_eq.
    unfold bound_accessor, call_setter.
    cbn [Observer_set]. rewrite bind_run. unfold the_observer at 1. rewrite Hob.
    cbn [ob_definition ob_value ob_target kept_definition d_set default].
    unfold strict_eq. rewrite bool_decide_eq_false_2 by done.
    cbn [negb]. rewrite !bind_run.
    cbn [for_of_callbacks]. rewrite bind_run. unfold the_observer at 1. rewrite Hob.
    cbn [ob_callbacks lookup list_lookup]. rewrite bind_run. cbn [call_callback].
    unfold Link_change. rewrite bind_run. unfold the_link at 1. rewrite Hlk, H5.
    rewrite bind_run. unfold Observer_get. rewrite bind_run.
    unfold the_observer at 1. rewrite Hob. unfold mret at 1. unfold M_ret.
    cbn [ob_value]. unfold strict_eq. rewrite bool_decide_eq_false_2 by done.
    rewrite H4. cbn [truthy typeof].
    rewrite bool_decide_eq_true_2 by done. cbn [orb].
    rewrite bind_run, Ea, H1, H3, Ep.
    destruct fuel as [|fuel]; [lia|].
    cbn [for_of_callbacks]. rewrite bind_run. unfold the_observer at 1.
    rewrite Po, Hob_a. cbn [ob_callbacks lookup list_lookup].
    unfold mret at 1. unfold M_ret.
    unfold update_observer, modify, mbind, M_bind, mret, M_ret. reflexivity.
  - assert (heap sf = heap sa) as Sh by (by cbn; rewrite Ph).
    assert (observers sf = observers sa) as Sr by (by cbn; rewrite Pr).
    assert (observer_store sf = alter (set_value (VObj l')) n (observer_store sa)) as So
      by (by cbn; rewrite Po).
    assert (link_store sf
            = alter (fun lk => set_lk_callbacks fs (set_lk_value v' lk)) k0
                (link_store sa)) as Sl by (by cbn; rewrite Pl).
    assert (∀ j, links_same_at sa sf j) as Hsame_a.
    { intros j. eapply links_same_alter; [exact Sl|]. by intros []. }
    assert (∀ j, (j < S ki)%nat → links_same_at s sf j) as Hsame.
    { intros j Hj lk' Hlk'. apply Hsame_a. by rewrite Fb. }
    assert (∀ m ob l, observer_store sa !! m = Some ob →
                      ob_target ob = Some (VObj l) → l ≠ lv_object lv →
                      observer_store sf !! m = Some ob) as Hkeep.
    { intros m ob l Hm Ht Hl. rewrite So, list_lookup_alter_ne; [done|].
      intros <-. rewrite Hob_a in Hm. injection Hm as <-. cbn in Ht. congruence. }
    assert (∀ l, l ∈ lv_object <$> (pre ++ [lv]) →
                 heap sf !! l = heap s !! l
                 ∧ ∀ p, registry sf p l = registry s p l) as Hin.
    { intros l Hl. destruct (Fhr l Hl) as [Fh Fr]. split; [by rewrite Sh|].
      intros p. unfold registry at 1. rewrite Sr. apply Fr. }
    assert (∀ l, l ∈ lv_object <$> pre → l ∈ lv_object <$> (pre ++ [lv])) as Hpre_in.
    { intros l Hl. rewrite fmap_app. apply elem_of_app. by left. }
    split; [|split; [|split; [|split; [|exact Hnd]]]].
    + revert Hhd. by destruct pre.
    + exists pa. by cbn; rewrite Pp, Fp.
    + eexists. rewrite Sl, list_lookup_alter_eq, Fb, Hlk0 by lia.
      cbn [fmap option_fmap option_map]. split; [reflexivity|].
      by destruct lk0; cbn in *.
    + eapply (attached_splice true false s sf this (VObj l0) u v' pre lv [] new);
        [exact Hatt| | | | |].
      * intros j Hj. apply Hsame. unfold ki. lia.
      * intros m ob l Hm Ht Hl. eapply Hkeep; [|exact Ht|].
        -- eapply Fo; [done|done|by apply Hpre_in].
        -- by apply (NoDup_objects_middle pre lv new _ Hnd (or_introl Hl)).
      * intros l Hl. by apply Hin, Hpre_in.
      * intros p l Hl. by apply Hin, Hpre_in.
      * fold ki. split.
        -- destruct (Hsame ki ltac:(lia) lk Hlk) as (lk' & Hlk' & S1 & S2 & S3 & S4 & S5).
           destruct (Hin _ Hlv_in) as [Hh' Hr'].
           exists lk', n, x. rewrite Hh', Hr'.
           split; [done|].
           assert (level_value new v' = VObj l' ∧ next_link false ki new = Some (S ki))
             as [-> ->].
           { destruct new; [simpl in Hnew_ne; lia|done]. }
           do 5 (split; [congruence|]).
           split; [by rewrite So, list_lookup_alter_eq, Hob_a|]. done.
        -- eapply attached_transfer; [exact Hnew| | | |].
           ++ intros j _. apply Hsame_a.
           ++ intros m ob l Hm Ht Hl. eapply Hkeep; [exact Hm|exact Ht|].
              intros ->. by apply (NoDup_objects_middle pre lv new _ Hnd (or_intror Hl)).
           ++ intros l _. by rewrite Sh.
           ++ intros p l _. unfold registry. by rewrite Sr.
Qed.

(** Assigning another object to the property of a level that is not the
    last one: the links beyond it leave the old objects and are attached
    along the new ones, and the path reports the value it resolves to
    now. *)
Lemma deep_replace this l0 k0 pre lv old new fs v v' s fuel :
  deep_bound this l0 k0 (pre ++ lv :: old) fs v s →
  unobserved s new v' →
  own_names new →
  lv_part <$> new = lv_part <$> old →
  NoDup (lv_object <$> (pre ++ lv :: new)) →
  NoDup (lv_object <$> (old ++ new)) →
  (0 < length old)%nat →
  (length old + 3 ≤ fuel)%nat →
  ∃ s', Js_set fuel (VObj (lv_object lv)) (lv_part lv)
          (VObj (lv_object (hd (Level 0 EmptyString ∅) new))) s = Ok tt s'
        ∧ deep_bound this l0 k0 (pre ++ lv :: new) fs v' s'
        ∧ unobserved s' (restored_levels old v) v
        ∧ trace s' = trace s ++ (if decide (v = v') then [] else path_events fs v' v).
Proof.
  intros Hb Hun Hown Hparts Hnd' Hdis Hlen Hfuel.
  pose proof Hb as (Hhd & (pa & Hpa & Hpath & Hobs) & (lk0 & Hlk0 & C1 & C2 & C3)
                    & Hatt & Hnd).
  pose proof (attached_suffix _ _ _ _ _ _ _ _ _ Hatt) as [_ Hold].
  pose proof (attached_prefix _ _ _ _ _ _ _ _ _ Hatt Hlen) as Hpre.
  assert (length new = length old) as Hlen'.
  { by rewrite <- (length_fmap lv_part new), Hparts, length_fmap. }
  destruct fuel as [|[|fuel]]; [lia|lia|].
  destruct (Link_reattach_chain this (VObj l0) v v' old new (S (k0 + length pre)) s fuel
              Hold Hun Hown Hparts Hdis Hlen ltac:(lia))
    as (sa & Ea & Hnew & Hres & Fh & Fr & Fo & (Fb & Fk) & Fp & Fc & Ft).
  assert (∀ l, l ∈ lv_object <$> (pre ++ [lv]) →
               (l ∉ lv_object <$> old) ∧ (l ∉ lv_object <$> new)) as Hout.
  { intros l Hl. rewrite fmap_app, fmap_cons in Hl.
    apply elem_of_app in Hl as [Hl|Hl].
    - split; by apply (NoDup_objects_pre_rest pre lv).
    - apply list_elem_of_singleton in Hl as ->. split; intros Hin.
      + by apply (NoDup_objects_middle pre lv old _ Hnd (or_intror Hin)).
      + by apply (NoDup_objects_middle pre lv new _ Hnd' (or_intror Hin)). }
  destruct (chain_moved this l0 k0 pre lv new fs v (level_value old v) v' s sa pa lk0 fuel)
    as (sf & Ef & Hbf & Sh & Sr & Tf); try done.
  - revert Hhd. by destruct pre.
  - rewrite Hpath, !fmap_app. f_equal.
    change (lv_part lv :: (lv_part <$> old) = lv_part lv :: (lv_part <$> new)).
    by rewrite Hparts.
  - rewrite C3, !length_app. cbn [length]. by rewrite Hlen'.
  - lia.
  - destruct old as [|lv1 old']; [simpl in Hlen; lia|].
    destruct new as [|nv more]; [simpl in Hlen'; lia|].
    cbn. intros [= Heq]. rewrite !fmap_app, !fmap_cons in Hdis.
    apply NoDup_app in Hdis as (_ & Hd & _).
    apply (Hd (lv_object lv1)); [apply list_elem_of_here|].
    rewrite Heq. apply list_elem_of_here.
  - lia.
  - intros l Hl. destruct (Hout l Hl) as [Ho Hn].
    assert (l ∉ lv_object <$> (old ++ new)) as Hon
      by (by rewrite fmap_app, not_elem_of_app).
    split; [by apply Fh|]. intros p. by apply Fr.
  - intros n ob l Hob Ht Hl. apply Fo; [done|].
    intros l'' Ht'. rewrite Ht in Ht'. injection Ht' as <-. by apply Hout.
  - exists sf. split; [exact Ef|]. split; [exact Hbf|]. split; [|exact Tf].
    eapply unobserved_transfer; [exact Hres| |].
    + intros l _. by rewrite Sh.
    + intros p l _. unfold registry. by rewrite Sr.
Qed.

Lemma NoDup_objects_split3 pre lv old new :
  NoDup (lv_object <$> (pre ++ lv :: old ++ new)) →
  NoDup (lv_object <$> (pre ++ lv :: old))
  ∧ NoDup (lv_object <$> (pre ++ lv :: new))
  ∧ NoDup (lv_object <$> (old ++ new)).
Proof.
  intros H. split; [|split].
  - eapply sublist_NoDup; [exact H|]. apply fmap_sublist, sublist_app; [done|].
    apply sublist_skip. by apply sublist_inserts_r.
  - eapply sublist_NoDup; [exact H|]. apply fmap_sublist, sublist_app; [done|].
    apply sublist_skip. by apply sublist_inserts_l.
  - eapply sublist_NoDup; [exact H|]. apply fmap_sublist, sublist_inserts_l.
    by apply sublist_cons.
Qed.

(** Assigning another object to a property in the middle of an observed
    path moves the links beyond it: the callbacks are called once with the
    value the path resolves to through the new object and the previous one
    (not at all when the two are the same); the objects that left the path
    have their data properties back, so that an assignment to the last of
    them calls nothing, while an assignment to the property of the last new
    object is reported. *)
Theorem replaced_object_moves_the_chain s this pa pre lv oldp oz newp nz v0 v1 fs w fuel :
  path_store s !! this = Some pa →
  p_path pa = lv_part <$> (pre ++ lv :: oldp ++ [oz]) →
  Forall (fun part => inherited part = false) (p_path pa) →
  p_observed pa !! first_object pre lv = None →
  unobserved s (pre ++ lv :: oldp ++ [oz]) v0 →
  unobserved s (newp ++ [nz]) v1 →
  lv_part <$> (newp ++ [nz]) = lv_part <$> (oldp ++ [oz]) →
  NoDup (lv_object <$> (pre ++ lv :: (oldp ++ [oz]) ++ (newp ++ [nz]))) →
  (0 < length fs)%nat →
  (length pre + length oldp + 5 ≤ fuel)%nat →
  ∃ s1 s2 s3 s4,
    path_observe_each fuel this (VObj (first_object pre lv)) fs s = Ok tt s1
    ∧ Js_set fuel (VObj (lv_object lv)) (lv_part lv) (VObj (first_object newp nz)) s1
      = Ok tt s2
    ∧ trace s2 = trace s ++ (if decide (v0 = v1) then [] else path_events fs v1 v0)
    ∧ Path_get this (VObj (first_object pre lv)) s2 = Ok v1 s2
    ∧ walk (p_path pa) (VObj (first_object pre lv)) s2 = Ok v1 s2
    ∧ unobserved s2 (restored_levels (oldp ++ [oz]) v0) v0
    ∧ Js_set fuel (VObj (lv_object oz)) (lv_part oz) w s2 = Ok tt s3
    ∧ trace s3 = trace s2
    ∧ Js_set fuel (VObj (lv_object nz)) (lv_part nz) w s2 = Ok tt s4
    ∧ trace s4 = trace s2 ++ (if decide (v1 = w) then [] else path_events fs w v1).
Proof.
  intros Hpa Hpath Hown Hobs Hun Hnew Hparts Hnd Hfs Hfuel.
  assert (own_names (newp ++ [nz])) as Hown_new.
  { apply own_names_fmap. rewrite Hparts. rewrite Hpath, fmap_app in Hown.
    apply Forall_app in Hown as [_ Hown]. rewrite fmap_cons in Hown.
    by apply Forall_cons in Hown as [_ Hown]. }
  assert (first_object (pre ++ lv :: oldp) oz = first_object pre lv) as Hfirst
    by (by destruct pre).
  assert (first_object newp nz = lv_object (hd (Level 0 EmptyString ∅) (newp ++ [nz])))
    as Hfirst' by (by destruct newp).
  apply NoDup_objects_split3 in Hnd as (Hnd_old & Hnd_new & Hdis).
  assert (unobserved s ((pre ++ lv :: oldp) ++ [oz]) v0) as Hun'
    by (by rewrite <- app_assoc).
  destruct (deep_observe_first_each s this pa (pre ++ lv :: oldp) oz v0 Hpa
              ltac:(by rewrite <- app_assoc) Hown ltac:(by rewrite Hfirst) Hun'
              ltac:(by rewrite <- app_assoc) fuel fs Hfs)
    as (s1 & E1 & H1 & T1 & _ & Hframe).
  { rewrite length_app. simpl. lia. }
  rewrite Hfirst in *. rewrite <- app_assoc in H1. cbn [app] in H1.
  destruct (deep_replace this _ _ pre lv (oldp ++ [oz]) (newp ++ [nz]) fs v0 v1 s1 fuel H1)
    as (s2 & E2 & H2 & Hres & T2).
  { assert (∀ l, l ∈ lv_object <$> (newp ++ [nz]) →
                 l ∉ lv_object <$> ((pre ++ lv :: oldp) ++ [oz])) as Hout.
    { intros l Hl. rewrite <- app_assoc. cbn [app]. intros Hl'.
      rewrite fmap_app, fmap_cons in Hl'. apply elem_of_app in Hl' as [Hl'|Hl'].
      - by apply (NoDup_objects_pre_rest pre lv (newp ++ [nz]) l Hnd_new).
      - apply elem_of_cons in Hl' as [->|Hl'].
        + by apply (NoDup_objects_middle pre lv (newp ++ [nz]) _ Hnd_new (or_intror Hl)).
        + rewrite fmap_app in Hdis. apply NoDup_app in Hdis as (_ & Hd & _).
          by apply (Hd l). }
    eapply unobserved_transfer; [exact Hnew| |].
    - intros l Hl. by apply Hframe, Hout.
    - intros p l Hl. by apply Hframe, Hout. }
  { done. }
  { done. }
  { done. }
  { done. }
  { rewrite length_app. simpl. lia. }
  { rewrite length_app. simpl. lia. }
  rewrite <- Hfirst' in E2.
  assert (pre ++ lv :: newp ++ [nz] = (pre ++ lv :: newp) ++ [nz]) as Hassoc
    by (by rewrite <- app_assoc).
  rewrite Hassoc in H2.
  assert (p_path pa = lv_part <$> ((pre ++ lv :: newp) ++ [nz])) as Hpath'.
  { rewrite Hpath, <- Hassoc, !fmap_app. f_equal.
    change (lv_part lv :: (lv_part <$> (oldp ++ [oz]))
            = lv_part lv :: (lv_part <$> (newp ++ [nz]))).
    by rewrite Hparts. }
  destruct (deep_assign _ _ _ _ _ fuel fs v1 w s2 H2) as (s4 & E4 & _ & T4 & _); [lia|].
  assert (unobserved s (oldp ++ [oz]) v0) as Hold.
  { clear -Hun. induction pre as [|lv' pre IH]; [by destruct Hun as (_ & _ & _ & ?)|].
    apply IH. by destruct Hun as (_ & _ & _ & ?). }
  rewrite (restored_levels_pre s oldp oz v0 v0 Hold) in Hres.
  pose proof (unobserved_heap s2 _ v0 _ Hres
                ltac:(apply elem_of_app; right; apply list_elem_of_here)) as Hz.
  cbn [lv_object lv_original] in Hz.
  exists s1, s2. eexists. exists s4.
  split; [exact E1|]. split; [exact E2|].
  split; [by rewrite T2, T1|].
  split; [by eapply deep_get|].
  split; [rewrite Hpath'; by eapply deep_walk|].
  split; [by rewrite (restored_levels_pre s oldp oz v0 v0 Hold)|].
  split; [|split; [|split; [exact E4|exact T4]]].
  - unfold Js_set, own_property, gets. cbn [ref_of]. rewrite bind_run, Hz.
    cbn [mbind option_bind]. rewrite lookup_insert_eq. unfold modify. reflexivity.
  - done.
Qed.

Lemma replaced_object_moves_the_chain_witness :
  (path_store abc_spare_state !! 0%nat = Some (Path ["a"; "b"; "c"] ∅)
   ∧ Forall (fun part => inherited part = false) ["a"; "b"; "c"]
   ∧ unobserved abc_spare_state
       ([] ++ abc_root_level :: abc_middle_levels ++ [abc_last]) (VNum 7)
   ∧ unobserved abc_spare_state (abc_spare_levels ++ [abc_spare_last]) (VStr "x")
   ∧ NoDup (lv_object <$> ([] ++ abc_root_level :: (abc_middle_levels ++ [abc_last])
                             ++ (abc_spare_levels ++ [abc_spare_last]))))
  ∧ ∃ s1 s2 s3 s4,
    path_observe_each 6 0 (VObj (first_object [] abc_root_level)) [7; 8]%nat
      abc_spare_state = Ok tt s1
    ∧ Js_set 6 (VObj (lv_object abc_root_level)) (lv_part abc_root_level)
        (VObj (first_object abc_spare_levels abc_spare_last)) s1 = Ok tt s2
    ∧ trace s2 = trace abc_spare_state
                 ++ (if decide (VNum 7 = VStr "x") then []
                     else path_events [7; 8]%nat (VStr "x") (VNum 7))
    ∧ Path_get 0 (VObj (first_object [] abc_root_level)) s2 = Ok (VStr "x") s2
    ∧ walk (p_path (Path ["a"; "b"; "c"] ∅)) (VObj (first_object [] abc_root_level)) s2
      = Ok (VStr "x") s2
    ∧ unobserved s2 (restored_levels (abc_middle_levels ++ [abc_last]) (VNum 7)) (VNum 7)
    ∧ Js_set 6 (VObj (lv_object abc_last)) (lv_part abc_last) (VNum 9) s2 = Ok tt s3
    ∧ trace s3 = trace s2
    ∧ Js_set 6 (VObj (lv_object abc_spare_last)) (lv_part abc_spare_last) (VNum 9) s2
      = Ok tt s4
    ∧ trace s4 = trace s2 ++ (if decide (VStr "x" = VNum 9) then []
                              else path_events [7; 8]%nat (VNum 9) (VStr "x")).
Proof.
  assert (NoDup (lv_object <$> ([] ++ abc_root_level :: (abc_middle_levels ++ [abc_last])
                                  ++ (abc_spare_levels ++ [abc_spare_last])))) as Hnd
    by (apply (bool_decide_unpack _); vm_compute; exact I).
  assert (unobserved abc_spare_state
            ([] ++ abc_root_level :: abc_middle_levels ++ [abc_last]) (VNum 7)) as Hun
    by (simpl; repeat split; reflexivity).
  assert (unobserved abc_spare_state (abc_spare_levels ++ [abc_spare_last]) (VStr "x"))
    as Hnew by (simpl; repeat split; reflexivity).
  assert (Forall (fun part => inherited part = false) ["a"; "b"; "c"]) as Hown
    by (repeat constructor).
  split; [split; [reflexivity|split; [exact Hown|split; [exact Hun
    |split; [exact Hnew|exact Hnd]]]]|].
  apply (replaced_object_moves_the_chain abc_spare_state 0 (Path ["a"; "b"; "c"] ∅) []
           abc_root_level abc_middle_levels abc_last abc_spare_levels abc_spare_last
           (VNum 7) (VStr "x") [7; 8]%nat (VNum 9) 6);
    [reflexivity | reflexivity | exact Hown | reflexivity | exact Hun | exact Hnew
    | reflexivity
    | exact Hnd | simpl; lia | simpl; lia].
Defined.

(** ** Paths observed before their objects exist *)

Lemma detached_suffix s this root pre suf : ∀ k,
  detached s this root k (pre ++ suf) →
  detached s this root (k + length pre) suf.
Proof.
  induction pre as [|lv pre IH]; intros k H.
  - by rewrite Nat.add_0_r.
  - destruct H as [_ H]. apply IH in H.
    by replace (k + length (lv :: pre))%nat with (S k + length pre)%nat by (simpl; lia).
Qed.

(** [path.observe] on a root that the path does not observe yet, when the
    nested objects end in a falsy value before the parts do. *)
Lemma Path_observe_first_open fuel s this pa lv rest rem u f :
  path_store s !! this = Some pa →
  p_path pa = lv_part <$> ((lv :: rest) ++ rem) →
  p_observed pa !! lv_object lv = None →
  unobserved s (lv :: rest) u →
  own_names (lv :: rest) →
  truthy u = false →
  NoDup (lv_object <$> (lv :: rest)) →
  (0 < length rem)%nat →
  (S (length rest + length rem) ≤ fuel)%nat →
  ∃ s1,
    Path_observe fuel this (VObj (lv_object lv)) f s = Ok tt s1
    ∧ open_bound this (lv_object lv) (length (link_store s)) (lv :: rest) rem [f] u s1
    ∧ trace s1 = trace s
    ∧ (∀ l, l ∉ lv_object <$> (lv :: rest) →
            heap s1 !! l = heap s !! l ∧ ∀ p, registry s1 p l = registry s p l).
Proof.
  intros Hpa Hpath Hobs Hun Hown Hfalsy Hnd Hrem Hfuel.
  unfold Path_observe. cbn [truthy negb].
  rewrite bind_run. unfold the_path at 1. rewrite Hpa. unfold WeakMap_get.
  cbn [ref_of mbind option_bind]. rewrite Hobs, Hpath.
  rewrite <- app_comm_cons, fmap_cons.
  rewrite bind_run, Link_new_chain by (rewrite length_fmap, length_app; lia).
  rewrite length_fmap.
  set (k := length (link_store s)).
  set (links := chain this k (lv_part lv :: (lv_part <$> (rest ++ rem)))
                  (VObj (lv_object lv)) (Some (k + length (rest ++ rem))%nat)).
  unfold observed_set, update_path, update_link. cbn [ref_of].
  unfold modify, with_link_store, with_path_store.
  rewrite !bind_run. cbv beta iota.
  cbn [heap cells observers observer_store link_store path_store trace].
  set (sc := State _ _ _ _ _ _ _).
  assert (link_store sc = alter (set_lk_callbacks [f]) k (link_store s ++ links)) as Hsc
    by done.
  assert (detached sc this (VObj (lv_object lv)) k (lv :: rest ++ rem)) as Hdet.
  { apply (detached_transfer (with_link_store (link_store s ++ links) s)).
    - eapply chain_detached. cbn [link_store]. rewrite fmap_cons. reflexivity.
    - intros j _. eapply links_same_alter; [exact Hsc|]. by intros [].
    - done. }
  assert (unobserved sc (lv :: rest) u) as Hun'.
  { by apply (unobserved_transfer s). }
  destruct (Link_attach_chain this (VObj (lv_object lv)) u rem rest lv k sc fuel)
    as (sd & E & Hatt & Hfr & Hlk & Hbeyond); try done.
  assert (has_more rem = true ∧ resolved rem u = VUndef) as [Hmore Hres].
  { destruct rem; [simpl in Hrem; lia|done]. }
  rewrite Hmore, Hres in *.
  rewrite E.
  eexists. split; [reflexivity|].
  destruct Hfr as (Fh & Fr & Fo & Fp & Fc & Ft).
  destruct Hlk as (Hb & Hk).
  assert (∀ j, links_same_at sd
            (State (heap sd) (cells sd) (observers sd) (observer_store sd)
               (alter (set_lk_value VUndef) k (link_store sd)) (path_store sd) (trace sd)) j)
    as Hsame.
  { intros j. eapply links_same_alter; [reflexivity|]. by intros []. }
  split; [|split];
    cbn [heap cells observers observer_store link_store path_store trace].
  - split; [done|]. split; [|split; [|split; [|split; [done|split; [|split]]]]].
    + cbn [path_store]. rewrite Fp. subst sc. cbn [path_store].
      eexists. rewrite list_lookup_alter_eq, Hpa. cbn [fmap option_fmap option_map].
      split; [reflexivity|]. cbn [p_path p_observed].
      split; [by rewrite Hpath|]. apply lookup_insert_eq.
    + cbn [link_store].
      destruct (Hk k (set_lk_callbacks [f]
                        (Link this (lv_part lv)
                           (match lv_part <$> (rest ++ rem) with
                            | [] => None | _ => Some (S k) end)
                           (VObj (lv_object lv)) None
                           (Some (k + length (rest ++ rem))%nat) [] VUndef)))
        as (o & Ho).
      { rewrite Hsc, list_lookup_alter_eq. subst links.
        by rewrite (chain_head this k _ _ _ _ (link_store s)). }
      eexists. rewrite list_lookup_alter_eq, Ho. cbn [fmap option_fmap option_map].
      split; [reflexivity|]. cbn. do 2 (split; [done|]).
      f_equal; rewrite ?length_app; simpl; lia.
    + eapply attached_transfer; [exact Hatt| | | |]; done.
    + eapply (detached_transfer sd); [| |done].
      * eapply (detached_transfer sc sd).
        -- apply (detached_suffix sc this _ (lv :: rest) rem k Hdet).
        -- intros j Hj. apply links_same_eq, Hbeyond. simpl in Hj. lia.
        -- exact Fo.
      * intros j _. apply Hsame.
    + cbn [link_store].
      assert (k + length ((lv :: rest) ++ rem) - 1 = k + S (length rest) + (length rem - 1))%nat
        as -> by (rewrite length_app; simpl; lia).
      rewrite list_lookup_alter_ne by lia.
      rewrite Hbeyond by lia. rewrite Hsc, list_lookup_alter_ne by lia.
      subst links k. rewrite lookup_app_r by lia.
      assert (∃ p, (lv_part lv :: (lv_part <$> (rest ++ rem)))
                     !! (S (length rest) + (length rem - 1))%nat = Some p) as [p Hp].
      { apply lookup_lt_is_Some_2. simpl. rewrite length_fmap, length_app. lia. }
      replace (length (link_store s) + S (length rest) + (length rem - 1)
               - length (link_store s))%nat
        with (S (length rest) + (length rem - 1))%nat by lia.
      rewrite (chain_lookup _ _ _ _ _ _ _ Hp). eauto.
    + split; [done|]. split; [simpl; lia|done].
  - by rewrite Ft.
  - intros l Hl. split; [by rewrite Fh|]. intros p.
    unfold registry at 1. cbn [observers]. by apply Fr.
Qed.

Section open_bound.
Variables (this l0 k0 : nat) (lvs rem : list level).
Abbreviation obound := (open_bound this l0 k0 lvs rem).

Lemma open_get fs u s : obound fs u s → Path_get this (VObj l0) s = Ok VUndef s.
Proof.
  intros (_ & (pa & Hpa & Hpath & Hobs) & (lk0 & Hlk0 & C1 & C2 & C3) & _).
  unfold Path_get. rewrite bind_run. unfold the_path. rewrite Hpa.
  unfold WeakMap_get. cbn [ref_of mbind option_bind]. rewrite Hobs.
  rewrite bind_run. unfold the_link. rewrite Hlk0. by rewrite C2.
Qed.

(** The last link of a chain that stops short has no observer, so that
    [path.set] returns [false] and does nothing. *)
Lemma open_set fuel fs u v silent s :
  obound fs u s → Path_set fuel this (VObj l0) v silent s = Ok false s.
Proof.
  intros (_ & (pa & Hpa & Hpath & Hobs) & (lk0 & Hlk0 & C1 & C2 & C3) & _ & _ & _
          & (lkz & Hlkz & Hz) & _).
  unfold Path_set. rewrite bind_run. unfold the_path. rewrite Hpa.
  unfold WeakMap_get. cbn [ref_of mbind option_bind]. rewrite Hobs.
  rewrite bind_run. unfold the_link at 1. rewrite Hlk0, C3.
  unfold Link_set. rewrite !bind_run. unfold the_link. by rewrite Hlkz, Hz.
Qed.

Lemma open_observe fuel fs u f s :
  obound fs u s →
  ∃ s', Path_observe fuel this (VObj l0) f s = Ok tt s'
        ∧ obound (fs ++ [f]) u s' ∧ trace s' = trace s ∧ heap s' = heap s
        ∧ observers s' = observers s.
Proof.
  intros (Hhd & (pa & Hpa & Hpath & Hobs) & (lk0 & Hlk0 & C1 & C2 & C3) & Hatt & Hu & Hdet
          & (lkz & Hlkz & Hz) & Hnd & Hlen & Hrem).
  unfold Path_observe. cbn [truthy negb]. rewrite bind_run. unfold the_path.
  rewrite Hpa. unfold WeakMap_get. cbn [ref_of mbind option_bind]. rewrite Hobs.
  unfold update_link, modify. eexists. split; [reflexivity|].
  split; [|done].
  assert (∀ j, links_same_at s
            (with_link_store
               (alter (λ lk, set_lk_callbacks (lk_callbacks lk ++ [f]) lk) k0
                  (link_store s)) s) j) as Hsame.
  { intros j. eapply links_same_alter; [reflexivity|]. by intros []. }
  split; [done|]. split; [by exists pa|].
  split; [|split; [|split; [done|split; [|split; [|done]]]]].
  - eexists. cbn [link_store with_link_store].
    rewrite list_lookup_alter_eq, Hlk0. cbn [fmap option_fmap option_map].
    split; [reflexivity|]. destruct lk0; cbn in *. by subst.
  - eapply attached_transfer; [exact Hatt| | | |]; done.
  - eapply detached_transfer; [exact Hdet| |]; done.
  - exists lkz. cbn [link_store with_link_store].
    rewrite list_lookup_alter_ne; [done|]. rewrite length_app. lia.
Qed.

Lemma open_observe_each fuel rest : ∀ fs u s,
  obound fs u s →
  ∃ s', path_observe_each fuel this (VObj l0) rest s = Ok tt s'
        ∧ obound (fs ++ rest) u s' ∧ trace s' = trace s ∧ heap s' = heap s
        ∧ observers s' = observers s.
Proof.
  induction rest as [|f rest IH]; intros fs u s HI; simpl.
  - exists s. by rewrite app_nil_r.
  - destruct (open_observe fuel fs u f s HI) as (s1 & E1 & H1 & T1 & Hh1 & R1).
    destruct (IH _ _ _ H1) as (s2 & E2 & H2 & T2 & Hh2 & R2).
    exists s2. rewrite bind_run, E1. split; [done|].
    rewrite <- app_assoc in H2. split; [done|]. repeat split; congruence.
Qed.
End open_bound.

(** Assigning an object to the falsy property a chain stops at: the links
    that remain are attached along the levels of the object, and the path
    reports the value it resolves to now. *)
Lemma open_attach this l0 k0 pre lv new fs u v' s fuel :
  open_bound this l0 k0 (pre ++ [lv]) new fs u s →
  unobserved s new v' →
  own_names new →
  NoDup (lv_object <$> (pre ++ lv :: new)) →
  (length new + 3 ≤ fuel)%nat →
  ∃ s', Js_set fuel (VObj (lv_object lv)) (lv_part lv)
          (VObj (lv_object (hd (Level 0 EmptyString ∅) new))) s = Ok tt s'
        ∧ deep_bound this l0 k0 (pre ++ lv :: new) fs v' s'
        ∧ trace s' = trace s ++ (if decide (VUndef = v') then []
                                 else path_events fs v' VUndef).
Proof.
  intros (Hhd & (pa & Hpa & Hpath & Hobs) & (lk0 & Hlk0 & C1 & C2 & C3) & Hatt & Hu & Hdet
          & _ & Hnd0 & Hlen & Hrem) Hun Hown Hnd Hfuel.
  destruct fuel as [|[|fuel]]; [lia|lia|].
  destruct new as [|nv more]; [simpl in Hrem; lia|].
  rewrite length_app in Hdet. cbn [length] in Hdet.
  replace (k0 + (length pre + 1))%nat with (S (k0 + length pre)) in Hdet by lia.
  assert (NoDup (lv_object <$> (nv :: more))) as Hnd_new.
  { eapply sublist_NoDup; [exact Hnd|]. apply fmap_sublist.
    apply sublist_inserts_l. by apply sublist_cons. }
  destruct (Link_attach_chain this (VObj l0) v' [] more nv (S (k0 + length pre)) s fuel)
    as (sa & Ea & Hnew & (Fh & Fr & Fo & Fp & Fc & Ft) & (Fb & Fk) & _); try done.
  { by rewrite app_nil_r. }
  { simpl in *. lia. }
  cbn [resolved has_more] in *.
  assert (∀ l, l ∈ lv_object <$> (pre ++ [lv]) → l ∉ lv_object <$> (nv :: more)) as Hout.
  { intros l Hl. rewrite fmap_app, fmap_cons in Hl.
    apply elem_of_app in Hl as [Hl|Hl].
    - by apply (NoDup_objects_pre_rest pre lv).
    - apply list_elem_of_singleton in Hl as ->. intros Hin.
      by apply (NoDup_objects_middle pre lv (nv :: more) _ Hnd (or_intror Hin)). }
  destruct (chain_moved this l0 k0 pre lv (nv :: more) fs VUndef u v' s sa pa lk0 fuel)
    as (sf & Ef & Hbf & Sh & Sr & Tf); try done.
  - by rewrite Hpath, <- app_assoc.
  - by rewrite C3, <- app_assoc.
  - cbn [hd]. intros ->. done.
  - simpl in *. lia.
  - intros l Hl. split; [by apply Fh, Hout|]. intros p. by apply Fr, Hout.
  - intros n ob l Hob _ _. by apply Fo.
  - by exists sf.
Qed.

(** A path can be observed before the objects along it exist.  While a
    property on the way holds a falsy value, observing calls nothing,
    [path.get] gives [undefined], and [path.set] returns [false] and changes
    nothing.  Assigning an object to that property attaches the rest of the
    path to it: the callbacks are called once, in registration order, with
    the value the path resolves to now and [undefined] (not at all when
    that value is [undefined] too), and [path.get] and following the parts
    from the root give that value. *)
Theorem late_object_completes_the_path s this pa pre lv new u v' fs w silent fuel :
  path_store s !! this = Some pa →
  p_path pa = lv_part <$> (pre ++ lv :: new) →
  Forall (fun part => inherited part = false) (p_path pa) →
  p_observed pa !! first_object pre lv = None →
  unobserved s (pre ++ [lv]) u →
  truthy u = false →
  unobserved s new v' →
  NoDup (lv_object <$> (pre ++ lv :: new)) →
  (0 < length new)%nat →
  (0 < length fs)%nat →
  (length pre + length new + 3 ≤ fuel)%nat →
  ∃ s1 s2,
    path_observe_each fuel this (VObj (first_object pre lv)) fs s = Ok tt s1
    ∧ trace s1 = trace s
    ∧ Path_get this (VObj (first_object pre lv)) s1 = Ok VUndef s1
    ∧ Path_set fuel this (VObj (first_object pre lv)) w silent s1 = Ok false s1
    ∧ Js_set fuel (VObj (lv_object lv)) (lv_part lv)
        (VObj (lv_object (hd lv new))) s1 = Ok tt s2
    ∧ trace s2 = trace s ++ (if decide (v' = VUndef) then []
                             else path_events fs v' VUndef)
    ∧ Path_get this (VObj (first_object pre lv)) s2 = Ok v' s2
    ∧ walk (p_path pa) (VObj (first_object pre lv)) s2 = Ok v' s2.
Proof.
  intros Hpa Hpath Hown Hobs Hun Hu Hnew Hnd Hlen Hfs Hfuel.
  destruct fs as [|f rest]; [simpl in Hfs; lia|]. clear Hfs.
  assert (own_names (pre ++ [lv]) ∧ own_names new) as [Hown0 Hown_new].
  { pose proof (own_names_parts _ _ Hown Hpath) as H. unfold own_names in *.
    apply Forall_app in H as [Hp H]. apply Forall_cons in H as [Hv H].
    split; [|done]. apply Forall_app. split; [done|]. by apply Forall_cons. }
  destruct (levels_split pre lv) as (lv0 & more & Hsplit & Hfirst & Hmore).
  rewrite Hfirst in *.
  assert (NoDup (lv_object <$> (pre ++ [lv]))) as Hnd0.
  { eapply sublist_NoDup; [exact Hnd|]. apply fmap_sublist, sublist_app; [done|].
    apply sublist_skip, sublist_nil_l. }
  assert (p_path pa = lv_part <$> ((lv0 :: more) ++ new)) as Hpath'.
  { by rewrite <- Hsplit, <- app_assoc. }
  revert Hun Hnd0 Hown0. rewrite Hsplit. intros Hun Hnd0 Hown0.
  destruct (Path_observe_first_open fuel s this pa lv0 more new u f Hpa Hpath' Hobs Hun
              Hown0 Hu Hnd0 Hlen) as (s1 & E1 & H1 & T1 & Hh1); [lia|].
  rewrite <- Hsplit in H1, Hh1.
  destruct (open_observe_each _ _ _ _ _ fuel rest _ _ _ H1)
    as (s2 & E2 & H2 & T2 & Hh2 & R2).
  assert (unobserved s2 new v') as Hnew2.
  { assert (∀ l, l ∈ lv_object <$> new → l ∉ lv_object <$> (pre ++ [lv])) as Hout.
    { intros l Hl Hin. rewrite fmap_app, fmap_cons in Hin.
      apply elem_of_app in Hin as [Hin|Hin].
      - by apply (NoDup_objects_pre_rest pre lv new l Hnd).
      - apply list_elem_of_singleton in Hin as ->.
        by apply (NoDup_objects_middle pre lv new _ Hnd (or_intror Hl)). }
    eapply unobserved_transfer; [exact Hnew| |].
    - intros l Hl. rewrite Hh2. by apply Hh1, Hout.
    - intros p l Hl. unfold registry at 1. rewrite R2. by apply Hh1, Hout. }
  destruct (open_attach this (lv_object lv0) (length (link_store s)) pre lv new
              ([f] ++ rest) u v' s2 fuel H2 Hnew2 Hown_new Hnd) as (s3 & E3 & H3 & T3); [lia|].
  exists s2, s3.
  split; [simpl; rewrite bind_run, E1; exact E2|].
  split; [congruence|].
  split; [by eapply open_get|].
  split; [by eapply open_set|].
  split.
  { destruct new as [|nv new']; [simpl in Hlen; lia|]. exact E3. }
  split.
  { rewrite T3, T2, T1. by destruct (decide (VUndef = v')), (decide (v' = VUndef)). }
  assert (∃ pre' lz, pre ++ lv :: new = pre' ++ [lz]) as (pre' & lz & Hsnoc).
  { destruct new as [|nv new' _] using rev_ind.
    - by exists pre, lv.
    - exists (pre ++ lv :: new'), nv. by rewrite <- app_assoc. }
  rewrite Hpath, Hsnoc in *.
  split; [by eapply deep_get|by eapply deep_walk].
Qed.

Lemma late_object_completes_the_path_witness :
  (path_store late_state !! 0%nat = Some (Path ["a"; "b"; "c"] ∅)
   ∧ Forall (fun part => inherited part = false) ["a"; "b"; "c"]
   ∧ unobserved late_state ([] ++ [late_root_level]) VUndef
   ∧ unobserved late_state late_levels (VStr "x")
   ∧ NoDup (lv_object <$> ([] ++ late_root_level :: late_levels)))
  ∧ ∃ s1 s2,
    path_observe_each 6 0 (VObj (first_object [] late_root_level)) [7; 8]%nat late_state
    = Ok tt s1
    ∧ trace s1 = trace late_state
    ∧ Path_get 0 (VObj (first_object [] late_root_level)) s1 = Ok VUndef s1
    ∧ Path_set 6 0 (VObj (first_object [] late_root_level)) (VNum 1) false s1 = Ok false s1
    ∧ Js_set 6 (VObj (lv_object late_root_level)) (lv_part late_root_level)
        (VObj (lv_object (hd late_root_level late_levels))) s1 = Ok tt s2
    ∧ trace s2 = trace late_state
                 ++ (if decide (VStr "x" = VUndef) then []
                     else path_events [7; 8]%nat (VStr "x") VUndef)
    ∧ Path_get 0 (VObj (first_object [] late_root_level)) s2 = Ok (VStr "x") s2
    ∧ walk (p_path (Path ["a"; "b"; "c"] ∅)) (VObj (first_object [] late_root_level)) s2
      = Ok (VStr "x") s2.
Proof.
  assert (NoDup (lv_object <$> ([] ++ late_root_level :: late_levels))) as Hnd
    by (apply (bool_decide_unpack _); vm_compute; exact I).
  assert (unobserved late_state ([] ++ [late_root_level]) VUndef) as Hun
    by (simpl; repeat split; reflexivity).
  assert (unobserved late_state late_levels (VStr "x")) as Hnew
    by (simpl; repeat split; reflexivity).
  assert (Forall (fun part => inherited part = false) ["a"; "b"; "c"]) as Hown
    by (repeat constructor).
  split; [split; [reflexivity|split; [exact Hown|split; [exact Hun
    |split; [exact Hnew|exact Hnd]]]]|].
  apply (late_object_completes_the_path late_state 0 (Path ["a"; "b"; "c"] ∅) []
           late_root_level late_levels VUndef (VStr "x") [7; 8]%nat (VNum 1) false 6);
    [reflexivity | reflexivity | exact Hown | reflexivity | exact Hun | reflexivity
    | exact Hnew
    | exact Hnd | simpl; lia | simpl; lia | simpl; lia].
Defined.

(** ** A path that ends in a property the constructor leaves alone *)

(** The chain of a one-segment path is one link, its own last link. *)
Lemma Link_new_single fuel this k root s :
  Link_new (S fuel) this k [] root false s
  = Ok (length (link_store s))
      (with_link_store
         (link_store s
          ++ [Link this k None root None (Some (length (link_store s))) [] VUndef]) s).
Proof. unfold Link_new, set_lk_root, set_lk_last. mrun. reflexivity. Qed.

(** A path of one segment whose property the [Observer] constructor leaves
    alone (a data property that is not writable, or any accessor property):
    [path.observe] changes no descriptor, [path.get] gives the data value, or
    [undefined] for an accessor property, and [path.set] throws a TypeError,
    silent or not, leaving everything as it was.  Nobody observes the
    property yet, and its name is not the name of a member of
    [Object.prototype]. *)
Theorem Path_set_read_only_throws s this pa l o k p f v silent fuel :
  path_store s !! this = Some pa →
  p_path pa = [k] →
  p_observed pa !! l = None →
  heap s !! l = Some o →
  o !! k = Some p →
  short_circuits p = true →
  (observers s !! k ≫= fun m => m !! l) = None →
  inherited k = false →
  (1 ≤ fuel)%nat →
  ∃ s1,
    Path_observe fuel this (VObj l) f s = Ok tt s1
    ∧ heap s1 = heap s
    ∧ trace s1 = trace s
    ∧ Path_get this (VObj l) s1 = Ok (cached_value p) s1
    ∧ Path_set fuel this (VObj l) v silent s1 = Throw TypeError s1.
Proof.
  intros Hpa Hpath Hobs Hl Hk Hp Hreg Hown Hfuel.
  destruct fuel as [|fuel]; [lia|].
  assert (∃ s1, Path_observe (S fuel) this (VObj l) f s = Ok tt s1
                ∧ heap s1 = heap s ∧ trace s1 = trace s
                ∧ (∃ pa', path_store s1 !! this = Some pa'
                          ∧ p_observed pa' !! l = Some (length (link_store s)))
                ∧ link_store s1 !! length (link_store s)
                  = Some (Link this k None (VObj l) (Some (length (observer_store s)))
                            (Some (length (link_store s))) [f] (cached_value p))
                ∧ observer_store s1 !! length (observer_store s)
                  = Some (Observer [CbLink (length (link_store s))] (cached_value p)
                            None None None))
    as (s1 & E1 & Hh & Ht & (pa' & Hpa' & Hobs') & Hlk & Hob).
  { unfold Path_observe. cbn [truthy negb].
    unfold mbind at 1. unfold M_bind, the_path. rewrite Hpa. unfold WeakMap_get.
    cbn [ref_of mbind option_bind].
    rewrite Hobs, Hpath. rewrite bind_run, Link_new_single. mrun.
    rewrite (Observer_observe_short_circuit _ l o k p) by done. mrun.
    eexists. split; [reflexivity|]. simpl.
    split; [done|]. split; [done|]. split; [|split].
    - eexists. rewrite list_lookup_alter_eq, Hpa. simpl. split; [done|].
      apply lookup_insert_eq.
    - by rewrite lookup_snoc.
    - by rewrite lookup_snoc. }
  exists s1. split; [exact E1|]. split; [exact Hh|]. split; [exact Ht|]. split.
  - unfold Path_get. mrun. reflexivity.
  - unfold Path_set, Link_set. mrun. reflexivity.
Qed.

Lemma Path_set_read_only_throws_witness :
  (path_store constant_path_state !! 0%nat = Some (Path ["a"] ∅)
   ∧ heap constant_path_state !! 1%nat = Some constant_property_object
   ∧ constant_property_object !! "a" = Some (DataProperty (VNum 7) false true true)
   ∧ (observers constant_path_state !! "a" ≫= fun m => m !! 1%nat) = None
   ∧ inherited "a" = false)
  ∧ ∃ s1,
    Path_observe 1 0 (VObj 1) 100 constant_path_state = Ok tt s1
    ∧ heap s1 = heap constant_path_state
    ∧ trace s1 = trace constant_path_state
    ∧ Path_get 0 (VObj 1) s1 = Ok (cached_value (DataProperty (VNum 7) false true true)) s1
    ∧ Path_set 1 0 (VObj 1) (VNum 8) true s1 = Throw TypeError s1.
Proof.
  split; [repeat split; reflexivity|].
  apply (Path_set_read_only_throws constant_path_state 0 (Path ["a"] ∅) 1
           constant_property_object "a" (DataProperty (VNum 7) false true true)
           100%nat (VNum 8) true 1);
    [reflexivity | reflexivity | reflexivity | reflexivity | reflexivity | reflexivity
    | reflexivity | reflexivity | lia].
Defined.

(** ** Edge cases of [Path] *)

(** [path.get] changes nothing, whatever the path and the root are and
    whether it returns or throws: it installs no accessor, registers nothing
    and calls no callback. *)
Theorem Path_get_changes_nothing this root s :
  state_of (Path_get this root s) = Some s.
Proof.
  unfold Path_get. msimp.
  destruct (path_store s !! this) as [pa|]; [|done].
  destruct (ref_of root ≫= _) as [kid|]; [|apply walk_pure].
  by destruct (link_store s !! kid).
Qed.

(** The statement [throw new Error('Event fired on unbound path')] of
    [path.change] is never reached: whatever the path, the root, the value
    and the state, the call does not end in that error, nor in any [Error].
    [link.value] is read before [link] is tested, so a root that the path
    does not observe gives a TypeError, with nothing changed and no callback
    called. *)
Theorem Path_change_unbound_is_a_TypeError this root v s msg :
  result_of (Path_change this root v s) ≠ Some (inr (Error msg))
  ∧ ∀ pa, path_store s !! this = Some pa →
          WeakMap_get (p_observed pa) root = None →
          Path_change this root v s = Throw TypeError s.
Proof.
  split.
  - unfold Path_change. rewrite bind_run. unfold the_path.
    destruct (path_store s !! this) as [pa|]; [|done]. cbv zeta.
    destruct (WeakMap_get (p_observed pa) root) as [kid|].
    + rewrite !bind_run. unfold the_link.
      destruct (link_store s !! kid) as [lk|] eqn:Hlk; [|done].
      unfold mret at 1. unfold M_ret.
      destruct (negb _); [|done].
      rewrite bind_run, Hlk, bind_run, call_path_callbacks_run. done.
    + rewrite bind_run. done.
  - intros pa Hpa Hroot. unfold Path_change. rewrite bind_run. unfold the_path.
    rewrite Hpa. cbv zeta. rewrite Hroot, bind_run. done.
Qed.

(** A path without segments: [path.get] returns the root it is given;
    [path.observe] throws, a TypeError for a truthy root, as there is no
    first link to construct; [path.set] and [path.unobserve] return
    [false].  None of them registers the root. *)
Theorem empty_path_observes_nothing fuel root f v silent s :
  (p ← Path_new []; Path_get p root) s
  = Ok root (with_path_store (path_store s ++ [Path [] ∅]) s)
  ∧ (p ← Path_new []; Path_observe fuel p root f) s
    = Throw (if truthy root then TypeError
             else Error "Cannot bind to undefined value")
        (with_path_store (path_store s ++ [Path [] ∅]) s)
  ∧ (p ← Path_new []; Path_set fuel p root v silent) s
    = Ok false (with_path_store (path_store s ++ [Path [] ∅]) s)
  ∧ (p ← Path_new []; Path_unobserve fuel p root f) s
    = Ok false (with_path_store (path_store s ++ [Path [] ∅]) s).
Proof.
  unfold Path_new, Path_get, Path_observe, Path_set, Path_unobserve.
  destruct (truthy root); msimp; rewrite !lookup_snoc; simpl;
    destruct (ref_of root) as [l|]; simpl; rewrite ?lookup_empty; done.
Qed.

(** ** Properties the constructor leaves alone *)

Lemma quiet_unobserve_each object k fs : quiet (unobserve_each object k fs).
Proof. induction fs; simpl; quiet_tac. Qed.

(** A property that the [Observer] constructor leaves alone (a data property
    that is not writable, or any accessor property) keeps its descriptor
    through observing with any callbacks and removing them all, and no user
    code runs.  The observer stays in the registry for the pair, since
    [remove] deletes the entry of an instrumented property only.  Nobody
    observes the property before, and its name is not the name of a member
    of [Object.prototype]. *)
Theorem short_circuit_round_trip s l o k p fs :
  heap s !! l = Some o →
  o !! k = Some p →
  short_circuits p = true →
  (observers s !! k ≫= fun m => m !! l) = None →
  inherited k = false →
  (0 < length fs)%nat →
  ∃ s',
    (observe_each (VObj l) k fs ;; unobserve_each (VObj l) k fs) s = Ok tt s'
    ∧ heap s' = heap s
    ∧ trace s' = trace s
    ∧ (observers s' !! k ≫= fun m => m !! l) = Some (length (observer_store s))
    ∧ observer_store s' !! length (observer_store s)
      = Some (Observer [] (cached_value p) None None None).
Proof.
  intros Hl Hk Hp Hreg Hown Hfs. destruct fs as [|f rest]; [simpl in Hfs; lia|].
  pose proof (Observer_observe_short_circuit s l o k p (CbUser f) Hl Hk Hp Hreg Hown)
    as E0.
  set (s0 := State (heap s) (cells s)
         (<[k := <[l := length (observer_store s)]> (default ∅ (observers s !! k))]>
            (observers s))
         (observer_store s ++ [Observer [CbUser f] (cached_value p) None None None])
         (link_store s) (path_store s) (trace s)) in *.
  assert (registered l k (length (observer_store s)) [f] (cached_value p) s0) as H0.
  { split; simpl.
    - by rewrite lookup_snoc.
    - eexists. rewrite lookup_insert_eq. split; [done|]. by rewrite lookup_insert_eq. }
  destruct (registered_observe_each l k _ rest _ _ _ H0) as (s1 & E1 & H1 & Hh1).
  assert (∀ fs' v s2, registered l k (length (observer_store s)) fs' v s2 →
    ∃ s3, unobserve_each (VObj l) k fs' s2 = Ok tt s3 ∧ heap s3 = heap s2
          ∧ registered l k (length (observer_store s)) [] v s3) as Hun.
  { clear. induction fs' as [|f fs IH]; intros v s2 (Hob & m & Hm & Hl); simpl.
    - exists s2. split; [done|]. split; [done|]. split; eauto.
    - destruct (IH v
        (with_observer_store
           (alter (set_callbacks (CbUser <$> fs)) (length (observer_store s))
              (observer_store s2)) s2))
        as (s3 & E3 & Hh & H3).
      { split; simpl; [|eauto]. by rewrite list_lookup_alter_eq, Hob. }
      exists s3. split; [|split; [done|exact H3]].
      unfold Observer_unobserve, Observer_getMap, map_get, Observer_remove, Observer_dispose.
      unfold with_observer_store, set_callbacks in E3.
      msimp. rewrite Hm. msimp. rewrite Hl, Hob. msimp.
      rewrite decide_True by done. msimp.
      destruct fs as [|f' fs]; msimp.
      + rewrite list_lookup_alter_eq, Hob. msimp. exact E3.
      + exact E3. }
  destruct (Hun _ _ _ H1) as (s3 & E3 & Hh3 & Hob3 & m & Hm & Hml).
  assert ((observe_each (VObj l) k (f :: rest) ;; unobserve_each (VObj l) k (f :: rest)) s
          = Ok tt s3) as E.
  { cbn [observe_each]. rewrite !bind_run, E0. fold s0. rewrite E1. exact E3. }
  exists s3. split; [exact E|]. split; [by rewrite Hh3, Hh1|].
  split.
  - assert (quiet (observe_each (VObj l) k (f :: rest) ;;
                   unobserve_each (VObj l) k (f :: rest))) as Hq.
    { apply quiet_bind; [apply quiet_observe_each|intros _; apply quiet_unobserve_each]. }
    by destruct (quiet_Ok _ _ _ _ Hq E).
  - split; [by rewrite Hm|]. exact Hob3.
Qed.

Lemma short_circuit_round_trip_witness :
  (heap getter_only_state !! 1%nat
   = Some {[ "a" := AccessorProperty (Some (GetUser 0)) None true false ]}
   ∧ short_circuits (AccessorProperty (Some (GetUser 0)) None true false) = true
   ∧ (observers getter_only_state !! "a" ≫= fun m => m !! 1%nat) = None
   ∧ inherited "a" = false)
  ∧ ∃ s',
    (observe_each (VObj 1) "a" [7; 8]%nat ;; unobserve_each (VObj 1) "a" [7; 8]%nat)
      getter_only_state = Ok tt s'
    ∧ heap s' = heap getter_only_state
    ∧ trace s' = trace getter_only_state
    ∧ (observers s' !! "a" ≫= fun m => m !! 1%nat)
      = Some (length (observer_store getter_only_state))
    ∧ observer_store s' !! length (observer_store getter_only_state)
      = Some (Observer []
                (cached_value (AccessorProperty (Some (GetUser 0)) None true false))
                None None None).
Proof.
  split; [repeat split; reflexivity|].
  apply (short_circuit_round_trip getter_only_state 1
           {[ "a" := AccessorProperty (Some (GetUser 0)) None true false ]} "a"
           (AccessorProperty (Some (GetUser 0)) None true false) [7; 8]%nat);
    [reflexivity | reflexivity | reflexivity | reflexivity | reflexivity | simpl; lia].
Defined.
